(** * Cobalt: Akoma Ntoso document model (cobalt/akn.py, cobalt/collection.py)

    A shallow embedding of the document layer of Cobalt and proofs about it.

    Conventions of the embedding.
    - An lxml element is a value [Element ns name attrib children]: the
      namespace URI of its tag (if any), its local name, its attributes in
      document order and its element children in document order.  Text, tails,
      comments and processing instructions are not represented.
    - Markup text is represented by the tree the XML parser builds from it
      (type [markup]: the root element and the namespace map in scope at the
      root).  Text that the parser refuses never reaches this layer.
    - A reference to an element attached to the document is the list of child
      indices leading to it from the root ([path]).  Python keeps a reference
      valid when siblings are inserted before it; every place where the code
      holds a reference across an insertion or removal is pointed out below,
      with the reason why the index path still denotes the same element.
    - Python exceptions are values of [exn]; a computation on the document is
      a function [state -> result A * state], and a raised exception keeps the
      mutations made so far (there is no rollback in the source).
    - The FRBR URI class (cobalt/uri.py), iso8601.parse_date and date.today
      are collaborators of this module: they are fields of [Collaborators]. *)

From Stdlib Require Import List String Ascii Bool Arith Lia.
Import ListNotations.
Local Open Scope string_scope.
Local Open Scope list_scope.

Set Implicit Arguments.
Set Warnings "-register-all".

(** String concatenation ([++] is kept for lists). *)
Infix "+++" := String.append (right associativity, at level 60).

(** ** Python strings *)

(** [s.split(c, 1)]: at most one split, at the first occurrence of [c]. *)
Fixpoint split_once (c : ascii) (s : string) : list string :=
  match s with
  | EmptyString => [EmptyString]
  | String a r =>
      if Ascii.eqb a c then [EmptyString; r]
      else match split_once c r with
           | h :: t => String a h :: t
           | [] => [String a EmptyString]
           end
  end.

(** [s.split(c)]: split at every occurrence of [c]. *)
Fixpoint split (c : ascii) (s : string) : list string :=
  match s with
  | EmptyString => [EmptyString]
  | String a r =>
      if Ascii.eqb a c then EmptyString :: split c r
      else match split c r with
           | h :: t => String a h :: t
           | [] => [String a EmptyString]
           end
  end.

(** [sep.join(l)] *)
Definition join (sep : string) (l : list string) : string := String.concat sep l.

(** [s.lower()] on ASCII letters. *)
Definition lower_ascii (a : ascii) : ascii :=
  let n := nat_of_ascii a in
  if ((65 <=? n)%nat && (n <=? 90)%nat)%bool then ascii_of_nat (n + 32) else a.

Fixpoint lower (s : string) : string :=
  match s with
  | EmptyString => EmptyString
  | String a r => String (lower_ascii a) (lower r)
  end.

(** Truth value of a string, and of a string-or-None. *)
Definition truthy (s : string) : bool := negb (String.eqb s "").

Definition truthy_opt (o : option string) : bool :=
  match o with Some s => truthy s | None => false end.

(** Is [x] a substring of [s]? *)
Fixpoint contains (x s : string) : bool :=
  String.prefix x s ||
  match s with
  | EmptyString => false
  | String _ r => contains x r
  end.

(** [sorted(l, reverse=True)] on pairs of strings: tuples compare
    lexicographically, strings by code point. *)
Definition pair_leb (a b : string * string) : bool :=
  match String.compare (fst a) (fst b) with
  | Lt => true
  | Gt => false
  | Eq => String.leb (snd a) (snd b)
  end.

Fixpoint insert_desc (x : string * string) (l : list (string * string)) :=
  match l with
  | [] => [x]
  | y :: r => if pair_leb x y && negb (pair_leb y x) then y :: insert_desc x r else x :: l
  end.

Definition sorted_reverse (l : list (string * string)) : list (string * string) :=
  fold_left (fun acc x => insert_desc x acc) (rev l) [].

(** Reading a string of decimal digits. *)
Definition is_digit (a : ascii) : bool :=
  let n := nat_of_ascii a in Nat.leb 48 n && Nat.leb n 57.

Fixpoint number_of (acc : nat) (s : string) : option nat :=
  match s with
  | EmptyString => Some acc
  | String a r =>
      if is_digit a then number_of (10 * acc + (nat_of_ascii a - 48)) r else None
  end.

(** The number a version label ["N.M"] denotes, in tenths (the labels of the
    namespace table have a single digit after the point). *)
Definition version_tenths (label : string) : nat :=
  match split "." label with
  | [a; b] =>
      match number_of 0 a, number_of 0 b with
      | Some x, Some y => 10 * x + y
      | _, _ => 0
      end
  | _ => 0
  end.

(** ** Dates and [datestring] *)

Record date := Date { year : nat; month : nat; day : nat }.

Definition digit (n : nat) : ascii := ascii_of_nat (48 + n mod 10).

(** Decimal digits of [n], least significant first; [fuel] bounds the number
    of digits. *)
Fixpoint digits_rev (fuel n : nat) : list ascii :=
  match fuel with
  | 0 => []
  | S f => digit n :: (if (n <? 10)%nat then [] else digits_rev f (n / 10))
  end.

Definition decimal (n : nat) : list ascii := rev (digits_rev (S n) n).

(** ["%0<w>d" % n]: decimal, padded with zeros on the left up to width [w]. *)
Definition zero_pad (w n : nat) : string :=
  let ds := decimal n in
  string_of_list_ascii (repeat "0"%char (w - List.length ds) ++ ds).

(** The value handed to a date setter: None, a string, or a date object. *)
Inductive datearg :=
| DNone
| DStr (s : string)
| DDate (d : date).

(** [datestring(value)] *)
Definition datestring (value : datearg) : string :=
  match value with
  | DNone => ""
  | DStr s => s
  | DDate d => zero_pad 4 (year d) +++ "-" +++ zero_pad 2 (month d) +++ "-" +++ zero_pad 2 (day d)
  end.

(** ** Exceptions and results *)

Inductive exn :=
| ValueError (msg : string)
| AttributeError
| IndexError
| KeyError
| TypeError
| ParseError
| RecursionError
| StaleReference.  (* a path that no longer denotes an element; never produced by the code paths below *)

Inductive result (A : Type) :=
| Ok (a : A)
| Raise (e : exn).
Arguments Ok {A} a.
Arguments Raise {A} e.

Definition is_AttributeError (e : exn) : bool :=
  match e with AttributeError => true | _ => false end.

(** ** Element trees *)

Inductive element : Type :=
  Element (ns : option string) (name : string)
          (attrib : list (string * string)) (children : list element).

Definition el_ns (e : element) := let (n, _, _, _) := e in n.
Definition el_name (e : element) := let (_, n, _, _) := e in n.
Definition attrib (e : element) := let (_, _, a, _) := e in a.
Definition children (e : element) := let (_, _, _, c) := e in c.

(** [e.tag]: Clark notation, ["{ns}name"], or the bare name without namespace. *)
Definition tag (e : element) : string :=
  match el_ns e with
  | Some h => "{" +++ h +++ "}" +++ el_name e
  | None => el_name e
  end.

Definition opt_string_eqb (a b : option string) : bool :=
  match a, b with
  | Some x, Some y => String.eqb x y
  | None, None => true
  | _, _ => false
  end.

(** Does the element carry the qualified name ([h], [n])? *)
Definition tag_is (h : option string) (n : string) (e : element) : bool :=
  opt_string_eqb (el_ns e) h && String.eqb (el_name e) n.

(** [e.get(k)] *)
Fixpoint assoc_get (k : string) (l : list (string * string)) : option string :=
  match l with
  | [] => None
  | (k', v) :: r => if String.eqb k' k then Some v else assoc_get k r
  end.

Definition get (e : element) (k : string) : option string := assoc_get k (attrib e).

(** [e.set(k, v)]: overwrite in place, or append a new attribute. *)
Fixpoint assoc_set (k v : string) (l : list (string * string)) : list (string * string) :=
  match l with
  | [] => [(k, v)]
  | (k', v') :: r => if String.eqb k' k then (k, v) :: r else (k', v') :: assoc_set k v r
  end.

Definition set_attr (k v : string) (e : element) : element :=
  Element (el_ns e) (el_name e) (assoc_set k v (attrib e)) (children e).

Definition set_children (cs : list element) (e : element) : element :=
  Element (el_ns e) (el_name e) (attrib e) cs.

(** Index of the first element of [l] satisfying [f]. *)
Fixpoint find_index {A} (f : A -> bool) (l : list A) : option nat :=
  match l with
  | [] => None
  | x :: r => if f x then Some 0 else option_map S (find_index f r)
  end.

(** Indices of all the elements of [l] satisfying [f], in order. *)
Fixpoint find_indices {A} (f : A -> bool) (i : nat) (l : list A) : list nat :=
  match l with
  | [] => []
  | x :: r => if f x then i :: find_indices f (S i) r else find_indices f (S i) r
  end.

(** lxml.objectify attribute access [getattr(e, n)]: the first child named
    [n] in the namespace of [e] itself (children without namespace when [e]
    has none).  [None] stands for the AttributeError objectify raises when
    there is no such child.  Names are element names: the Python members of
    the element class itself (tag, text, get, ...) are not element names of
    Akoma Ntoso and are outside this model. *)
Definition child_index (e : element) (n : string) : option nat :=
  find_index (tag_is (el_ns e) n) (children e).

(** *** Paths *)

Definition path := list nat.

Fixpoint subtree (e : element) (p : path) : option element :=
  match p with
  | [] => Some e
  | i :: q =>
      match nth_error (children e) i with
      | Some c => subtree c q
      | None => None
      end
  end.

Fixpoint list_update {A} (i : nat) (f : A -> A) (l : list A) : list A :=
  match l, i with
  | [], _ => []
  | x :: r, 0 => f x :: r
  | x :: r, S j => x :: list_update j f r
  end.

(** Apply [f] to the element at [p]; no effect when [p] leads nowhere. *)
Fixpoint update (p : path) (f : element -> element) (e : element) : element :=
  match p with
  | [] => f e
  | i :: q => set_children (list_update i (update q f) (children e)) e
  end.

Definition insert_at {A} (i : nat) (x : A) (l : list A) : list A :=
  firstn i l ++ x :: skipn i l.

Definition remove_at {A} (i : nat) (l : list A) : list A :=
  firstn i l ++ skipn (S i) l.

(** Parent path and own index of a non-root path. *)
Definition unsnoc (p : path) : option (path * nat) :=
  match rev p with
  | [] => None
  | i :: rq => Some (rev rq, i)
  end.

Definition next_sibling (p : path) : path :=
  match unsnoc p with
  | Some (q, i) => q ++ [S i]
  | None => []
  end.

(** ** Collaborators *)

(** The FRBR URI value object (cobalt/uri.py): the coordinates this module
    passes to its constructor or reads and writes as attributes. *)
Module FrbrUri.
Record t := Make {
  country : string;
  locality : option string;
  doctype : string;
  subtype : option string;
  date : string;
  number : string;
  work_component : option string;
  language : string;
  actor : option string;
  prefix : string;
  expression_date : option string
}.

Definition set_language (v : string) (u : t) : t :=
  Make (country u) (locality u) (doctype u) (subtype u) (date u) (number u)
       (work_component u) v (actor u) (prefix u) (expression_date u).

Definition set_expression_date (v : option string) (u : t) : t :=
  Make (country u) (locality u) (doctype u) (subtype u) (date u) (number u)
       (work_component u) (language u) (actor u) (prefix u) v.

Definition set_work_component (v : option string) (u : t) : t :=
  Make (country u) (locality u) (doctype u) (subtype u) (date u) (number u)
       v (language u) (actor u) (prefix u) (expression_date u).
End FrbrUri.

(** What this module calls on its collaborators.  The boolean of the URI
    methods is their [work_component] argument (default [True]). *)
Class Collaborators := {
  FrbrUri_parse : option string -> result FrbrUri.t;   (* FrbrUri.parse(s), s a str or None *)
  uri : FrbrUri.t -> string;                           (* u.uri() *)
  work_uri : FrbrUri.t -> bool -> string;              (* u.work_uri(work_component) *)
  expression_uri : FrbrUri.t -> bool -> string;        (* u.expression_uri(work_component) *)
  manifestation_uri : FrbrUri.t -> bool -> string;     (* u.manifestation_uri(work_component) *)
  place : FrbrUri.t -> string;                         (* u.place *)
  parse_date : option string -> result date;           (* iso8601.parse_date(s).date() *)
  today : date                                         (* date.today() *)
}.

(** The three constants a document type declares. *)
Record doc_class := DocClass {
  structure_type : string;
  main_content_tag : string;
  document_type : string
}.

(** cobalt/collection.py *)
Definition Collection : doc_class :=
  {| structure_type := "collectionStructure";
     main_content_tag := "collectionBody";
     document_type := "collection" |}.

(** ** Module constants *)

Definition AKN_NAMESPACES : list (string * string) :=
  [ ("2.0", "http://www.akomantoso.org/2.0");
    ("3.0", "http://docs.oasis-open.org/legaldocml/ns/akn/3.0") ].

Definition DEFAULT_VERSION : string := "3.0".

(** ** The document and the monad of its methods *)

(** What the XML parser hands over: the root element and [root.nsmap]. *)
Record markup := Markup {
  m_root : element;
  m_nsmap : list (option string * string)
}.

(** The wrapper instance ([root], [nsmap] of the root, [namespace]) together
    with the FRBR URI objects alive in the program, indexed by address. *)
Record state := State {
  root : element;
  nsmap : list (option string * string);
  namespace : string;
  objects : list FrbrUri.t
}.

Definition set_root (r : element) (s : state) : state :=
  State r (nsmap s) (namespace s) (objects s).

Definition set_objects (o : list FrbrUri.t) (s : state) : state :=
  State (root s) (nsmap s) (namespace s) o.

(** self.source *)
Definition source : list string :=
  ["cobalt"; "cobalt"; "https://github.com/laws-africa/cobalt"].

Definition M (A : Type) : Type := state -> result A * state.

Definition ret {A} (a : A) : M A := fun s => (Ok a, s).

Definition bind {A B} (m : M A) (k : A -> M B) : M B :=
  fun s =>
    match m s with
    | (Ok a, s') => k a s'
    | (Raise e, s') => (Raise e, s')
    end.

Definition raise {A} (e : exn) : M A := fun s => (Raise e, s).

Definition lift {A} (r : result A) : M A := fun s => (r, s).

(** [try: m  except AttributeError: h] *)
Definition except_AttributeError {A} (m : M A) (h : M A) : M A :=
  fun s =>
    match m s with
    | (Raise e, s') => if is_AttributeError e then h s' else (Raise e, s')
    | (Ok a, s') => (Ok a, s')
    end.

Declare Scope py_scope.
Delimit Scope py_scope with py.
Notation "x <- m ;; k" := (bind m (fun x => k))
  (at level 61, m at next level, right associativity) : py_scope.
Notation "m ;; k" := (bind m (fun _ => k))
  (at level 61, right associativity) : py_scope.
Local Open Scope py_scope.

(** [for x in l: body x] *)
Fixpoint for_each {A} (l : list A) (body : A -> M unit) : M unit :=
  match l with
  | [] => ret tt
  | x :: r => body x ;; for_each r body
  end.

(** *** The element API on attached elements *)

Definition node_at (p : path) : M element :=
  fun s =>
    match subtree (root s) p with
    | Some e => (Ok e, s)
    | None => (Raise StaleReference, s)
    end.

Definition modify_at (p : path) (f : element -> element) : M unit :=
  e <- node_at p ;;
  fun s => (Ok tt, set_root (update p f (root s)) s).

(** [getattr(e, n)] on an objectify element *)
Definition getattr (p : path) (n : string) : M path :=
  e <- node_at p ;;
  match child_index e n with
  | Some i => ret (p ++ [i])
  | None => raise AttributeError
  end.

(** [e.get(k)] and [e.get(k, default)] *)
Definition attr_get (p : path) (k : string) : M (option string) :=
  e <- node_at p ;; ret (get e k).

Definition attr_get_default (p : path) (k d : string) : M string :=
  e <- node_at p ;;
  ret (match get e k with Some v => v | None => d end).

(** [e.set(k, v)] *)
Definition attr_set (p : path) (k v : string) : M unit :=
  modify_at p (set_attr k v).

(** [after.addnext(node)]: [node] becomes the next sibling of [after].  The
    root has no siblings. *)
Definition addnext (after : path) (node : element) : M unit :=
  _ <- node_at after ;;
  match unsnoc after with
  | Some (parent, i) =>
      modify_at parent (fun e => set_children (insert_at (S i) node (children e)) e)
  | None => raise TypeError
  end.

(** [parent.insert(0, node)] *)
Definition insert_first (parent : path) (node : element) : M unit :=
  modify_at parent (fun e => set_children (node :: children e) e).

(** [parent.remove(child)] *)
Definition remove (parent child : path) : M unit :=
  _ <- node_at child ;;
  match unsnoc child with
  | Some (q, i) =>
      if list_eq_dec Nat.eq_dec q parent
      then modify_at parent (fun e => set_children (remove_at i (children e)) e)
      else raise (ValueError "Element is not a child of this node.")
  | None => raise (ValueError "Element is not a child of this node.")
  end.

(** *** FRBR URI objects *)

(** A new object: its address is the next free slot. *)
Definition alloc (u : FrbrUri.t) : M nat :=
  fun s => (Ok (List.length (objects s)), set_objects (objects s ++ [u]) s).

Definition load (a : nat) : M FrbrUri.t :=
  fun s =>
    match nth_error (objects s) a with
    | Some u => (Ok u, s)
    | None => (Raise StaleReference, s)
    end.

(** An attribute assignment on the object at address [a]. *)
Definition obj_modify (a : nat) (f : FrbrUri.t -> FrbrUri.t) : M unit :=
  _ <- load a ;;
  fun s => (Ok tt, set_objects (list_update a f (objects s)) s).

(** A Python value that is the wrapper itself or an attached element. *)
Inductive pyref :=
| Self
| Node (p : path).

(** ** class AkomaNtosoDocument *)

Module AkomaNtosoDocument.

(** [parse(xml)]: the root of the parsed tree, checked. *)
Definition parse (xml : markup) : result element :=
  let root := m_root xml in
  match nth_error (split_once "}" (tag root)) 1 with   (* root.tag.split('}', 1)[1] *)
  | None => Raise IndexError
  | Some name =>
      if negb (String.eqb name "akomaNtoso")
      then Raise (ValueError ("XML root element must be akomaNtoso, but got " +++ name +++ " instead"))
      else Ok root
  end.

Definition akn_namespaces : list string :=
  map snd (sorted_reverse AKN_NAMESPACES).

(** [get_namespace()], on the values of [self.root.nsmap]. *)
Definition get_namespace (nsmap : list (option string * string)) : result string :=
  let namespaces := map snd nsmap in
  match find (fun ns => existsb (String.eqb ns) namespaces) akn_namespaces with
  | Some ns => Ok ns
  | None =>
      Raise (ValueError
        ("Expected to find one of the following Akoma Ntoso XML namespaces: "
         +++ join ", " akn_namespaces
         +++ ". Only these namespaces were found: "
         +++ join ", " namespaces))
  end.

(** [make_element(elem)]: a new element in the document's namespace, not
    attached to anything. *)
Definition make_element (elem : string) : M element :=
  fun s => (Ok (Element (Some (namespace s)) elem [] []), s).

Section Methods.
(** [getattr(self, p)]: the attributes of the wrapper itself, which the
    subclass extends with properties. *)
Variable self_getattr : string -> M pyref.

Definition py_getattr (node : pyref) (p : string) : M pyref :=
  match node with
  | Self => self_getattr p
  | Node e => q <- getattr e p ;; ret (Node q)
  end.

(** The loop of [get_element]. *)
Fixpoint get_element_loop (node : pyref) (parts : list string) : M (option pyref) :=
  match parts with
  | [] => ret (Some node)
  | p :: rest =>
      r <- except_AttributeError
             (n <- py_getattr node p ;; ret (Some n))
             (ret None) ;;
      match r with
      | Some n => get_element_loop n rest
      | None => ret None
      end
  end.

(** [get_element(name, root=None)] *)
Definition get_element (name : string) (root : option path) : M (option pyref) :=
  let parts := split "." name in
  let node := match root with Some r => Node r | None => Self end in
  get_element_loop node parts.

(** [ensure_element(name, after, at=None)].  The element created is
    returned as the path of the next sibling of [after], where [addnext]
    has just put it. *)
Definition ensure_element (name : string) (after : path) (at_ : option path) : M pyref :=
  node <- get_element name at_ ;;
  match node with
  | Some n => ret n
  | None =>
      node <- make_element (last (split "." name) "") ;;
      addnext after node ;;
      ret (Node (next_sibling after))
  end.
End Methods.

(** The wrapper of the base class holds its root element. *)
Definition self_getattr (n : string) : M pyref :=
  if String.eqb n "root" then ret (Node []) else raise AttributeError.

(** [__init__(xml)]: the fields of the new instance. *)
Definition init (xml : markup) : result state :=
  match parse xml with
  | Raise e => Raise e
  | Ok r =>
      match get_namespace (m_nsmap xml) with
      | Raise e => Raise e
      | Ok ns => Ok (State r (m_nsmap xml) ns [])
      end
  end.

End AkomaNtosoDocument.

(** A method called on a [pyref] that must be an element: the wrapper has no
    such method. *)
Definition as_element (r : pyref) : M path :=
  match r with
  | Node p => ret p
  | Self => raise AttributeError
  end.

(** [start.n1.n2...]: a chain of attribute accesses. *)
Fixpoint chain (start : M path) (names : list string) : M path :=
  match names with
  | [] => start
  | n :: r => chain (p <- start ;; getattr p n) r
  end.

(** [components[k] = v] on an OrderedDict: a new key goes last, an existing
    key keeps its place. *)
Fixpoint od_set {V} (k : option string) (v : V) (d : list (option string * V)) :=
  match d with
  | [] => [(k, v)]
  | (k', v') :: r =>
      if opt_string_eqb k' k then (k, v) :: r else (k', v') :: od_set k v r
  end.

(** [e.find('.//{ns}meta/{ns}identification')]: among the proper descendants
    of [e] named meta, in document order, the first identification child. *)
Fixpoint find_identification (ns : string) (e : element) : option path :=
  (fix scan (i : nat) (cs : list element) : option path :=
     match cs with
     | [] => None
     | c :: r =>
         match (if tag_is (Some ns) "meta" c
                then find_index (tag_is (Some ns) "identification") (children c)
                else None) with
         | Some j => Some [i; j]
         | None =>
             match find_identification ns c with
             | Some q => Some (i :: q)
             | None => scan (S i) r
             end
         end
     end) 0 (children e).

(** The steps [a:<outer>/a:<inner>/a:*/a:meta] below [e], as relative paths in
    document order. *)
Definition has_ns (ns : string) (e : element) : bool :=
  opt_string_eqb (el_ns e) (Some ns).

Definition select {A} (f : element -> bool) (e : element) (k : nat -> element -> list A) : list A :=
  flat_map (fun ic => if f (snd ic) then k (fst ic) (snd ic) else [])
           (combine (seq 0 (List.length (children e))) (children e)).

Definition component_metas (ns : string) (main : element) : list path :=
  select (fun c => tag_is (Some ns) "attachments" c || tag_is (Some ns) "components" c) main
    (fun i c1 =>
       let inner := if tag_is (Some ns) "attachments" c1 then "attachment" else "component" in
       select (tag_is (Some ns) inner) c1
         (fun j c2 =>
            select (has_ns ns) c2
              (fun k c3 =>
                 select (tag_is (Some ns) "meta") c3
                   (fun l _ => [[i; j; k; l]])))).

(** ** class StructuredDocument *)

Module StructuredDocument.
Section Class.
Context {env : Collaborators}.
Variable cls : doc_class.

(** [empty_document(version)]: the tree that the returned markup denotes.
    The element maker declares the namespace of [version] as the default
    namespace of every element, so that the serialised skeleton, read back
    by the parser, has all its elements in that namespace. *)
Definition empty_document (version : string) : result markup :=
  let today := datestring (DDate today) in
  let frbr_uri :=
    FrbrUri.Make "za" None (document_type cls) None today "1" (Some "main") "eng" None
                 (if String.eqb version "2.0" then "" else "akn") None in
  match assoc_get version AKN_NAMESPACES with   (* AKN_NAMESPACES[version] *)
  | None => Raise KeyError
  | Some akn =>
      let E := Element (Some akn) in
      let content := E (main_content_tag cls) [] [] in           (* empty_document_content *)
      let attrs := [("name", lower (document_type cls))] in      (* empty_document_attrs *)
      let doc :=
        E "akomaNtoso" []
          [E (document_type cls) attrs
             [E "meta" []
                [E "identification" [("source", "#cobalt")]
                   [E "FRBRWork" []
                      [E "FRBRthis" [("value", work_uri frbr_uri true)] [];
                       E "FRBRuri" [("value", work_uri frbr_uri false)] [];
                       E "FRBRalias" [("value", "Untitled"); ("name", "title")] [];
                       E "FRBRdate" [("date", today); ("name", "Generation")] [];
                       E "FRBRauthor" [("href", "")] [];
                       E "FRBRcountry" [("value", place frbr_uri)] [];
                       E "FRBRnumber" [("value", FrbrUri.number frbr_uri)] []];
                    E "FRBRExpression" []
                      [E "FRBRthis" [("value", expression_uri frbr_uri true)] [];
                       E "FRBRuri" [("value", expression_uri frbr_uri false)] [];
                       E "FRBRdate" [("date", today); ("name", "Generation")] [];
                       E "FRBRauthor" [("href", "")] [];
                       E "FRBRlanguage" [("language", FrbrUri.language frbr_uri)] []];
                    E "FRBRManifestation" []
                      [E "FRBRthis" [("value", manifestation_uri frbr_uri true)] [];
                       E "FRBRuri" [("value", manifestation_uri frbr_uri false)] [];
                       E "FRBRdate" [("date", today); ("name", "Generation")] [];
                       E "FRBRauthor" [("href", "")] []]];
                 E "references" [("source", "#cobalt")]
                   [E "TLCOrganization"
                      [("eId", "cobalt");
                       ("href", "https://github.com/laws-africa/cobalt");
                       ("showAs", "cobalt")] []]];
              content]] in
      Ok (Markup doc [(None, akn)])
  end.

(** [parse(xml)] of the subclass. *)
Definition parse (xml : markup) : result element :=
  match AkomaNtosoDocument.parse xml with
  | Raise e => Raise e
  | Ok root =>
      if Nat.ltb (List.length (children root)) 1    (* root.countchildren() < 1 *)
      then Raise (ValueError "XML root element must have at least one child")
      else
        match nth_error (children root) 0 with       (* root.getchildren()[0] *)
        | None => Raise IndexError
        | Some first =>
            match nth_error (split_once "}" (tag first)) 1 with
            | None => Raise IndexError
            | Some name =>
                if negb (String.eqb name (document_type cls))
                then Raise (ValueError ("Expected " +++ document_type cls
                              +++ " as first child of root element, but got "
                              +++ name +++ " instead"))
                else Ok root
            end
        end
  end.

(** The properties [main], [main_content] and [meta]. *)
Definition main : M path := getattr [] (document_type cls).

Definition main_content : M path := m <- main ;; getattr m (main_content_tag cls).

Definition meta : M path := m <- main ;; getattr m "meta".

(** [getattr(self, n)] for the element-valued attributes of the wrapper:
    the three properties, the root, and the two aliases bound by
    [__init__] (the elements they were bound to never move: nothing inserts
    or removes a child of the root or of the main element).  The other
    attributes of the wrapper are not elements and no path of the code
    starts with them. *)
Definition self_getattr (n : string) : M pyref :=
  if String.eqb n "main" then p <- main ;; ret (Node p)
  else if String.eqb n "main_content" then p <- main_content ;; ret (Node p)
  else if String.eqb n "meta" then p <- meta ;; ret (Node p)
  else if String.eqb n "root" then ret (Node [])
  else if String.eqb n (document_type cls) then p <- main ;; ret (Node p)
  else if String.eqb n (main_content_tag cls) then p <- main_content ;; ret (Node p)
  else raise AttributeError.

Definition get_element := AkomaNtosoDocument.get_element self_getattr.
Definition ensure_element := AkomaNtosoDocument.ensure_element self_getattr.
Definition make_element := AkomaNtosoDocument.make_element.

(** [__init__(xml=None)] *)
Definition init (xml : option markup) : result state :=
  match (match xml with
         | Some x => Ok x
         | None => empty_document DEFAULT_VERSION
         end) with
  | Raise e => Raise e
  | Ok x =>
      match parse x with
      | Raise e => Raise e
      | Ok r =>
          match AkomaNtosoDocument.get_namespace (m_nsmap x) with
          | Raise e => Raise e
          | Ok ns =>
              let s := State r (m_nsmap x) ns [] in
              (* setattr(self, self.document_type, self.main);
                 setattr(self, self.main_content_tag, self.main_content) *)
              match (_ <- main ;; _ <- main_content ;; ret tt) s with
              | (Ok _, s') => Ok s'
              | (Raise e, _) => Raise e
              end
          end
      end
  end.

(** *** title *)

(** The loop of the [title] getter over the children of FRBRWork. *)
Fixpoint title_loop (ns : string) (cs : list element) (title : option string) : option string :=
  match cs with
  | [] => title
  | alias :: r =>
      if tag_is (Some ns) "FRBRalias" alias      (* iterchildren('{ns}FRBRalias') *)
      then if match get alias "name" with Some n => String.eqb n "title" | None => false end
           then get alias "value"
           else title_loop ns r (get alias "value")
      else title_loop ns r title
  end.

Definition title : M (option string) :=
  w <- chain meta ["identification"; "FRBRWork"] ;;
  e <- node_at w ;;
  fun s => (Ok (title_loop (namespace s) (children e) None), s).

(** [e.xpath('a:FRBRalias[@name="title"]', namespaces={'a': ns})] *)
Definition is_title_alias (ns : string) (c : element) : bool :=
  tag_is (Some ns) "FRBRalias" c &&
  match get c "name" with Some n => String.eqb n "title" | None => false end.

Definition xpath_title_aliases (w : path) : M (list path) :=
  e <- node_at w ;;
  fun s => (Ok (map (fun i => w ++ [i]) (find_indices (is_title_alias (namespace s)) 0 (children e))), s).

Definition set_title (value : string) : M unit :=
  w <- chain meta ["identification"; "FRBRWork"] ;;
  aliases <- xpath_title_aliases w ;;
  match aliases with
  | [] =>
      after <- chain meta ["identification"; "FRBRWork"; "FRBRuri"] ;;
      alias <- ensure_element "meta.identification.FRBRWork.FRBRalias" after None ;;
      alias <- as_element alias ;;
      attr_set alias "name" "title" ;;
      attr_set alias "value" value          (* aliases = [alias]; aliases[0].set(...) *)
  | alias :: _ => attr_set alias "value" value
  end.

(** *** dates *)

Definition date_of (block : string) : M date :=
  d <- chain meta ["identification"; block; "FRBRdate"] ;;
  v <- attr_get d "date" ;;
  lift (parse_date v).

Definition work_date : M date := date_of "FRBRWork".
Definition expression_date : M date := date_of "FRBRExpression".
Definition manifestation_date : M date := date_of "FRBRManifestation".

Definition set_work_date (value : datearg) : M unit :=
  d <- chain meta ["identification"; "FRBRWork"; "FRBRdate"] ;;
  attr_set d "date" (datestring value).

Definition set_manifestation_date (value : datearg) : M unit :=
  d <- chain meta ["identification"; "FRBRManifestation"; "FRBRdate"] ;;
  attr_set d "date" (datestring value).

(** *** language and frbr_uri *)

Definition language : M string :=
  l <- chain meta ["identification"; "FRBRExpression"; "FRBRlanguage"] ;;
  attr_get_default l "language" "eng".

(** The [frbr_uri] getter: a new FRBR URI object, or None. *)
Definition frbr_uri : M (option nat) :=
  p <- chain meta ["identification"; "FRBRManifestation"; "FRBRuri"] ;;
  uri <- attr_get p "value" ;;
  if truthy_opt uri
  then u <- lift (FrbrUri_parse uri) ;; a <- alloc u ;; ret (Some a)
  else ret None.

(** [components()].  The FRBR URI objects parsed here are dropped at once
    and are not entered in the object store. *)
Definition components : M (list (option string * path)) :=
  t <- chain meta ["identification"; "FRBRWork"; "FRBRthis"] ;;
  v <- attr_get t "value" ;;
  frbr_uri <- lift (FrbrUri_parse v) ;;
  m <- main ;;
  let components := od_set (FrbrUri.work_component frbr_uri) m [] in
  e <- node_at m ;;
  ns <- (fun s => (Ok (namespace s), s)) ;;
  (fix loop (metas : list path) (components : list (option string * path)) :=
     match metas with
     | [] => ret components
     | rel :: rest =>
         let meta := m ++ rel in
         t <- chain (ret meta) ["identification"; "FRBRWork"; "FRBRthis"] ;;
         v <- attr_get t "value" ;;
         frbr_uri <- lift (FrbrUri_parse v) ;;
         let name := FrbrUri.work_component frbr_uri in
         loop rest (od_set name (removelast meta) components)    (* meta.getparent() *)
     end) (component_metas ns e) components.

(** [element.find('.//{ns}meta/{ns}identification')]: an element or None. *)
Definition find_ident (element : path) : M (option path) :=
  e <- node_at element ;;
  fun s => (Ok (option_map (app element) (find_identification (namespace s) e)), s).

(** [ident.n1.n2...]; None has no attributes. *)
Definition ident_chain (ident : option path) (names : list string) : M path :=
  match ident with
  | Some i => chain (ret i) names
  | None => raise AttributeError
  end.

(** The body of the loop of the [frbr_uri] setter, for the URI object at
    address [a].  The reference [ident] is held while children of its
    FRBRWork child are inserted or removed, which happens strictly below
    [ident]; every other element is looked up again by name from [ident]. *)
Definition sync_component (a : nat) (component : option string) (element : path) : M unit :=
  obj_modify a (FrbrUri.set_work_component component) ;;
  ident <- find_ident element ;;

  p <- ident_chain ident ["FRBRWork"; "FRBRuri"] ;;
  u <- load a ;; attr_set p "value" (uri u) ;;
  p <- ident_chain ident ["FRBRWork"; "FRBRthis"] ;;
  u <- load a ;; attr_set p "value" (work_uri u true) ;;
  p <- ident_chain ident ["FRBRWork"; "FRBRcountry"] ;;
  u <- load a ;; attr_set p "value" (place u) ;;
  w <- ident_chain ident ["FRBRWork"] ;;
  c <- ident_chain ident ["FRBRWork"; "FRBRcountry"] ;;
  n <- ensure_element "FRBRnumber" c (Some w) ;;
  n <- as_element n ;;
  u <- load a ;; attr_set n "value" (FrbrUri.number u) ;;

  u <- load a ;;
  (if truthy_opt (FrbrUri.subtype u)
   then
     w <- ident_chain ident ["FRBRWork"] ;;
     c <- ident_chain ident ["FRBRWork"; "FRBRcountry"] ;;
     n <- ensure_element "FRBRsubtype" c (Some w) ;;
     n <- as_element n ;;
     u <- load a ;;
     attr_set n "value" (match FrbrUri.subtype u with Some v => v | None => "" end)
   else
     except_AttributeError
       (w <- ident_chain ident ["FRBRWork"] ;;
        t <- ident_chain ident ["FRBRWork"; "FRBRsubtype"] ;;
        remove w t)
       (ret tt)) ;;

  p <- ident_chain ident ["FRBRExpression"; "FRBRuri"] ;;
  u <- load a ;; attr_set p "value" (expression_uri u false) ;;
  p <- ident_chain ident ["FRBRExpression"; "FRBRthis"] ;;
  u <- load a ;; attr_set p "value" (expression_uri u true) ;;

  p <- ident_chain ident ["FRBRManifestation"; "FRBRuri"] ;;
  u <- load a ;; attr_set p "value" (expression_uri u false) ;;
  p <- ident_chain ident ["FRBRManifestation"; "FRBRthis"] ;;
  u <- load a ;; attr_set p "value" (expression_uri u true).

(** The value assigned to [frbr_uri]: a FRBR URI object, or anything else
    (a string or None), which is parsed into a new object. *)
Inductive uriarg :=
| AsObject (a : nat)
| AsText (s : option string).

(** The [frbr_uri] setter.  The elements of [components()] are held while
    the loop inserts and removes children of FRBRWork blocks: the index path
    of a later component still denotes the same element, since sub-documents
    do not lie inside the FRBRWork block of another one (the statements
    about the loop say so with [separated]). *)
Definition set_frbr_uri (arg : uriarg) : M unit :=
  a <- match arg with
       | AsObject a => ret a
       | AsText s => u <- lift (FrbrUri_parse s) ;; alloc u
       end ;;
  l <- chain meta ["identification"; "FRBRExpression"; "FRBRlanguage"] ;;
  lang <- attr_get_default l "language" "eng" ;;
  obj_modify a (FrbrUri.set_language lang) ;;
  d <- expression_date ;;
  obj_modify a (FrbrUri.set_expression_date (Some ("@" +++ datestring (DDate d)))) ;;
  u <- load a ;;
  match FrbrUri.work_component u with
  | None => obj_modify a (FrbrUri.set_work_component (Some "main"))
  | Some _ => ret tt
  end ;;
  comps <- components ;;
  for_each comps (fun ce => sync_component a (fst ce) (snd ce)).

(** [self.frbr_uri = self.frbr_uri] *)
Definition resync : M unit :=
  r <- frbr_uri ;;
  set_frbr_uri (match r with Some a => AsObject a | None => AsText None end).

Definition set_expression_date (value : datearg) : M unit :=
  d <- chain meta ["identification"; "FRBRExpression"; "FRBRdate"] ;;
  attr_set d "date" (datestring value) ;;
  resync.

Definition set_language (value : string) : M unit :=
  l <- chain meta ["identification"; "FRBRExpression"; "FRBRlanguage"] ;;
  attr_set l "language" value ;;
  resync.

(** [expression_frbr_uri()]; [FrbrUri.empty()] is a collaborator's value and
    is represented by [None]. *)
Definition expression_frbr_uri : M (option nat) :=
  p <- chain meta ["identification"; "FRBRExpression"; "FRBRuri"] ;;
  uri <- attr_get p "value" ;;
  if truthy_opt uri
  then u <- lift (FrbrUri_parse uri) ;; a <- alloc u ;; ret (Some a)
  else ret None.

(** *** lifecycle and references *)

(** [references.find('./{ns}<elem>[@eId="<id>"]')] *)
Definition find_reference (references : path) (elem id : string) : M (option path) :=
  e <- node_at references ;;
  fun s =>
    (Ok (option_map (fun i => references ++ [i])
           (find_index (fun c => tag_is (Some (namespace s)) elem c &&
                                 match get c "eId" with
                                 | Some v => String.eqb v id
                                 | None => false
                                 end)
                       (children e))), s).

(** [_ensure_reference], given the method it calls back.  The new reference
    element receives its attributes before it is attached. *)
Definition _ensure_reference_with (_ensure_lifecycle : M path)
           (elem name id href : string) : M path :=
  after <- _ensure_lifecycle ;;
  references <- ensure_element "meta.references" after None ;;
  references <- as_element references ;;
  ref <- find_reference references elem id ;;
  match ref with
  | Some r => ret r
  | None =>
      ref <- make_element elem ;;
      let ref := set_attr "showAs" name (set_attr "href" href (set_attr "eId" id ref)) in
      insert_first references ref ;;
      ret (references ++ [0])
  end.

(** [_ensure_lifecycle] and [_ensure_reference] call each other; [depth]
    is the number of stack frames left before Python gives up with a
    RecursionError.  The reference [node] is held across the call of
    [_ensure_reference], which inserts after [node] or below a later
    sibling only. *)
Fixpoint _ensure_lifecycle (depth : nat) : M path :=
  match depth with
  | 0 => raise RecursionError
  | S depth' =>
      after <- except_AttributeError
                 (chain meta ["publication"])
                 (chain meta ["identification"]) ;;
      node <- ensure_element "meta.lifecycle" after None ;;
      node <- as_element node ;;
      src <- attr_get node "source" ;;
      (if negb (truthy_opt src)
       then
         attr_set node "source" ("#" +++ nth 1 source "") ;;
         _ <- _ensure_reference_with (_ensure_lifecycle depth')
                "TLCOrganization" (nth 0 source "") (nth 1 source "") (nth 2 source "") ;;
         ret tt
       else ret tt) ;;
      ret node
  end.

Definition _ensure_reference (depth : nat) (elem name id href : string) : M path :=
  match depth with
  | 0 => raise RecursionError
  | S depth' => _ensure_reference_with (_ensure_lifecycle depth') elem name id href
  end.
End Class.
End StructuredDocument.

(** Python's default recursion limit. *)
Definition recursion_limit : nat := 1000.

(** ** An instance of the collaborators

    A small FRBR URI implementation after the URI scheme of cobalt/uri.py
    (["/akn/za/act/2020-01-01/1/eng@2020-01-01/!main"]) and a parser of
    ["YYYY-MM-DD"] dates.  It is used to run the model on concrete documents. *)

Module Sample.

Definition parse_date (v : option string) : result date :=
  match v with
  | None => Raise ParseError
  | Some s =>
      match split "-" s with
      | [y; m; d] =>
          match number_of 0 y, number_of 0 m, number_of 0 d with
          | Some y', Some m', Some d' =>
              if (String.length y =? 4)%nat && (String.length m =? 2)%nat
                 && (String.length d =? 2)%nat
              then Ok (Date y' m' d') else Raise ParseError
          | _, _, _ => Raise ParseError
          end
      | _ => Raise ParseError
      end
  end.

Definition place (u : FrbrUri.t) : string :=
  match FrbrUri.locality u with
  | Some l => FrbrUri.country u +++ "-" +++ l
  | None => FrbrUri.country u
  end.

Definition component_suffix (u : FrbrUri.t) (work_component : bool) : string :=
  match work_component, FrbrUri.work_component u with
  | true, Some c => "/!" +++ c
  | _, _ => ""
  end.

Definition work_base (u : FrbrUri.t) : string :=
  (if truthy (FrbrUri.prefix u) then "/" +++ FrbrUri.prefix u else "")
  +++ "/" +++ place u +++ "/" +++ FrbrUri.doctype u
  +++ (match FrbrUri.subtype u with Some t => "/" +++ t | None => "" end)
  +++ "/" +++ FrbrUri.date u +++ "/" +++ FrbrUri.number u.

Definition work_uri (u : FrbrUri.t) (work_component : bool) : string :=
  work_base u +++ component_suffix u work_component.

Definition expression_uri (u : FrbrUri.t) (work_component : bool) : string :=
  work_base u +++ "/" +++ FrbrUri.language u
  +++ (match FrbrUri.expression_date u with Some d => d | None => "" end)
  +++ component_suffix u work_component.

Definition manifestation_uri (u : FrbrUri.t) (work_component : bool) : string :=
  expression_uri u work_component.

(** The trailing segments of a URI: a language segment, a ["!component"]
    segment, or both. *)
Fixpoint parse_tail (segs : list string) (u : FrbrUri.t) : FrbrUri.t :=
  match segs with
  | [] => u
  | seg :: r =>
      match seg with
      | String "!"%char c => parse_tail r (FrbrUri.set_work_component (Some c) u)
      | _ =>
          let lang := substring 0 3 seg in
          let rest := substring 3 (String.length seg - 3) seg in
          parse_tail r (FrbrUri.set_expression_date
                          (if truthy rest then Some rest else None)
                          (FrbrUri.set_language lang u))
      end
  end.

Definition parse (v : option string) : result FrbrUri.t :=
  match v with
  | None => Raise TypeError
  | Some s =>
      match split "/" s with
      | "" :: "akn" :: c :: t :: d :: n :: tail =>
          Ok (parse_tail tail (FrbrUri.Make c None t None d n None "eng" None "akn" None))
      | "" :: c :: t :: d :: n :: tail =>
          Ok (parse_tail tail (FrbrUri.Make c None t None d n None "eng" None "" None))
      | _ => Raise (ValueError "Invalid FRBR URI")
      end
  end.

#[export] Instance env : Collaborators := {
  FrbrUri_parse := parse;
  uri := fun u => work_uri u false;
  work_uri := work_uri;
  expression_uri := expression_uri;
  manifestation_uri := manifestation_uri;
  place := place;
  parse_date := parse_date;
  today := Date 2024 2 29
}.

End Sample.

(** * The vocabulary of the statements *)

Unset Implicit Arguments.

(** ** Namespaces, lookups by name and stored values *)

Definition NS2 : string := "http://www.akomantoso.org/2.0".

Definition NS3 : string := "http://docs.oasis-open.org/legaldocml/ns/akn/3.0".

(** The message of the error of [get_namespace]. *)
Definition no_namespace_message (found : list string) : string :=
  "Expected to find one of the following Akoma Ntoso XML namespaces: "
  +++ join ", " [NS3; NS2]
  +++ ". Only these namespaces were found: "
  +++ join ", " found.

(** Following names from an element: each name is a lookup of a direct
    child by name; the result is the path reached, or [None] as soon as a
    child is missing. *)
Fixpoint follow (t : element) (p : path) (names : list string) : option path :=
  match names with
  | [] => Some p
  | n :: r =>
      match subtree t p with
      | Some e =>
          match child_index e n with
          | Some i => follow t (p ++ [i]) r
          | None => None
          end
      | None => None
      end
  end.

(** The outcome of a lookup by names. *)
Definition lookup (o : option path) : M path :=
  match o with
  | Some q => ret q
  | None => raise AttributeError
  end.

(** A namespace URI without a closing brace, as every URI is. *)
Fixpoint no_brace (h : string) : bool :=
  match h with
  | EmptyString => true
  | String a r => negb (Ascii.eqb a "}") && no_brace r
  end.

(** A well-formed document without namespaces:
    [<akomaNtoso><collection/></akomaNtoso>]. *)
Definition unqualified_collection : markup :=
  Markup (Element None "akomaNtoso" [] [Element None "collection" [] []]) [].

(** The ten characters of a date in the form YYYY-MM-DD, digit by digit. *)
Definition iso_date_text (y m d : nat) : string :=
  string_of_list_ascii
    [digit (y / 1000); digit (y / 100); digit (y / 10); digit y; "-"%char;
     digit (m / 10); digit m; "-"%char; digit (d / 10); digit d].

(** The names leading from the wrapper to the FRBRdate element of a block. *)
Definition date_path (cls : doc_class) (block : string) : list string :=
  [document_type cls; "meta"; "identification"; block; "FRBRdate"].

(** The document after the date attribute at [p] has been stored. *)
Definition date_stored (p : path) (value : datearg) (s : state) : state :=
  set_root (update p (set_attr "date" (datestring value)) (root s)) s.

Definition work_path (cls : doc_class) : list string :=
  [document_type cls; "meta"; "identification"; "FRBRWork"].

(** The alias element that the setter creates. *)
Definition new_title_alias (ns v : string) : element :=
  Element (Some ns) "FRBRalias" [("name", "title"); ("value", v)] [].

(** ** A sample document *)

Module Example.
Import Sample.

Definition E (n : string) := Element (Some NS3) n.

(** An identification block for the URI [base], component [comp] and
    language segment [lang]; [extra] are further children of FRBRWork, put
    after FRBRcountry. *)
Definition identification (base comp lang : string) (aliases extra : list element) : element :=
  E "identification" [("source", "#cobalt")]
    [E "FRBRWork" []
       ([E "FRBRthis" [("value", base +++ "/!" +++ comp)] [];
         E "FRBRuri" [("value", base)] []]
        ++ aliases ++
        [E "FRBRdate" [("date", "2020-01-01"); ("name", "Generation")] [];
         E "FRBRauthor" [("href", "")] [];
         E "FRBRcountry" [("value", "za")] []] ++ extra);
     E "FRBRExpression" []
       [E "FRBRthis" [("value", base +++ "/" +++ lang +++ "/!" +++ comp)] [];
        E "FRBRuri" [("value", base +++ "/" +++ lang)] [];
        E "FRBRdate" [("date", "2020-03-05"); ("name", "Generation")] [];
        E "FRBRauthor" [("href", "")] [];
        E "FRBRlanguage" [("language", "eng")] []];
     E "FRBRManifestation" []
       [E "FRBRthis" [("value", base +++ "/" +++ lang +++ "/!" +++ comp)] [];
        E "FRBRuri" [("value", base +++ "/" +++ lang)] [];
        E "FRBRdate" [("date", "2020-03-05"); ("name", "Generation")] [];
        E "FRBRauthor" [("href", "")] []]].

Definition base : string := "/akn/za/collection/2020-01-01/1".

(** A collection with one attachment; the work of the attachment has a
    subtype and no number. *)
Definition document (aliases : list element) : element :=
  E "akomaNtoso" []
    [E "collection" [("name", "collection")]
       [E "meta" []
          [identification base "main" "eng@2020-03-05" aliases
             [E "FRBRnumber" [("value", "1")] []]];
        E "collectionBody" [] [];
        E "attachments" []
          [E "attachment" []
             [E "doc" [("name", "schedule")]
                [E "meta" []
                   [identification base "schedule" "eng@2020-03-05" []
                      [E "FRBRsubtype" [("value", "by-law")] []]];
                 E "mainBody" [] []]]]]].

Definition titled : element :=
  document [E "FRBRalias" [("value", "Untitled"); ("name", "title")] []].

(** The same document whose only alias is a short form of the title. *)
Definition aliased : element :=
  document [E "FRBRalias" [("value", "Cols"); ("name", "short")] []].

(** A document that already has a lifecycle block with a source, and no
    references block. *)
Definition marked : element :=
  E "akomaNtoso" []
    [E "collection" [("name", "collection")]
       [E "meta" []
          [identification base "main" "eng@2020-03-05" [] [];
           E "lifecycle" [("source", "#cobalt")]
             [E "eventRef" [("date", "2020-03-05"); ("source", "#cobalt")] []]];
        E "collectionBody" [] []]].

(** A FRBR URI object of the caller. *)
Definition caller_uri : FrbrUri.t :=
  FrbrUri.Make "za" None "act" None "2021-06-07" "12" None "eng" None "akn" None.

Definition state_of (r : element) : state :=
  State r [(None, NS3)] NS3 [caller_uri].

End Example.

(** ** Titles *)

(** C6 as stated: whenever the Work block has no alias named "title", the
    setter leaves the document with a new alias element right after the
    FRBRuri child of the Work block, and nothing else changed. *)
Definition creates_title_alias (cls : doc_class) (s : state) (v : string) : Prop :=
  exists w W iu s',
    follow (root s) [] (work_path cls) = Some w
    /\ subtree (root s) w = Some W
    /\ child_index W "FRBRuri" = Some iu
    /\ StructuredDocument.set_title cls v s = (Ok tt, s')
    /\ root s' = update w (fun e => set_children
                                     (insert_at (S iu) (new_title_alias (namespace s) v)
                                                (children e)) e)
                        (root s).

(** ** Changes of one element *)

(** [f] changes neither the namespace nor the name of an element. *)
Definition keeps_tag (f : element -> element) : Prop :=
  forall e, el_ns (f e) = el_ns e /\ el_name (f e) = el_name e.

(** The document in which the element at [m] is replaced by [M']. *)
Definition with_element (s : state) (m : path) (M' : element) : state :=
  set_root (update m (fun _ => M') (root s)) s.

Definition same_tag (a b : element) : Prop :=
  el_ns a = el_ns b /\ el_name a = el_name b.

(** ** Lifecycle and references *)

(** The meta block of the document is the element [M], at [m]. *)
Definition meta_at (cls : doc_class) (s : state) (m : path) (M : element) : Prop :=
  follow (root s) [] [document_type cls; "meta"] = Some m /\ subtree (root s) m = Some M.

(** The child after which a new lifecycle block goes. *)
Definition after_index (M : element) : option nat :=
  match child_index M "publication" with
  | Some i => Some i
  | None => child_index M "identification"
  end.

(** The lookup of that child in [_ensure_lifecycle]. *)
Definition find_after (cls : doc_class) : M path :=
  except_AttributeError (chain (StructuredDocument.meta cls) ["publication"])
                        (chain (StructuredDocument.meta cls) ["identification"]).

(** The matching of [references.find('./{ns}<elem>[@eId="<id>"]')]. *)
Definition is_reference (ns elem id : string) (c : element) : bool :=
  tag_is (Some ns) elem c &&
  match get c "eId" with
  | Some v => String.eqb v id
  | None => false
  end.

Definition new_reference (ns elem name id href : string) : element :=
  set_attr "showAs" name (set_attr "href" href (set_attr "eId" id (Element (Some ns) elem [] []))).

(** A references block made to hold the reference [id]. *)
Definition add_reference (ns elem name id href : string) (R : element) : element :=
  match find_index (is_reference ns elem id) (children R) with
  | Some _ => R
  | None => set_children (new_reference ns elem name id href :: children R) R
  end.

(** A meta block made to hold the reference [id]; a new references block
    goes right after the child [i]. *)
Definition with_reference (ns elem name id href : string) (i : nat) (M : element) : element :=
  match child_index M "references" with
  | Some ir => update [ir] (add_reference ns elem name id href) M
  | None =>
      set_children
        (insert_at (S i) (add_reference ns elem name id href (Element (Some ns) "references" [] []))
                   (children M)) M
  end.

(** The child [i] is the lifecycle block that a lookup finds, and it has a
    source. *)
Definition sourced (M : element) (i : nat) : Prop :=
  child_index M "lifecycle" = Some i /\
  exists L, nth_error (children M) i = Some L /\ truthy_opt (get L "source") = true.

(** What [_ensure_lifecycle] does once it holds the lifecycle block. *)
Definition lifecycle_rest (cls : doc_class) (depth : nat) (node : path) : M path :=
  (src <- attr_get node "source" ;;
   (if negb (truthy_opt src)
    then
      attr_set node "source" ("#" +++ nth 1 source "") ;;
      _ <- StructuredDocument._ensure_reference_with cls
             (StructuredDocument._ensure_lifecycle cls depth)
             "TLCOrganization" (nth 0 source "") (nth 1 source "") (nth 2 source "") ;;
      ret tt
    else ret tt) ;;
   ret node)%py.

Definition set_source : element -> element := set_attr "source" "#cobalt".

Definition cobalt_reference (ns : string) (i : nat) (M : element) : element :=
  with_reference ns "TLCOrganization" "cobalt" "cobalt"
                 "https://github.com/laws-africa/cobalt" i M.

Definition new_lifecycle (ns : string) : element := Element (Some ns) "lifecycle" [] [].

(** The meta block with a new lifecycle block after the child [ia]. *)
Definition lifecycle_inserted (ns : string) (ia : nat) (M : element) : element :=
  set_children (insert_at (S ia) (new_lifecycle ns) (children M)) M.

(** The three ways in which a call of [_ensure_lifecycle] returns. *)
Definition lifecycle_found (s : state) (m : path) (M : element) (node : path) (s1 : state) : Prop :=
  exists i, sourced M i /\ node = m ++ [i] /\ s1 = s.

Definition lifecycle_marked (s : state) (m : path) (M : element) (node : path) (s1 : state) : Prop :=
  exists i L,
    child_index M "lifecycle" = Some i /\ nth_error (children M) i = Some L
    /\ truthy_opt (get L "source") = false /\ node = m ++ [i]
    /\ s1 = with_element s m (cobalt_reference (namespace s) i (update [i] set_source M)).

Definition lifecycle_created (s : state) (m : path) (M : element) (ia : nat)
           (node : path) (s1 : state) : Prop :=
  child_index M "lifecycle" = None /\ el_ns M = Some (namespace s)
  /\ node = m ++ [S ia]
  /\ s1 = with_element s m
           (cobalt_reference (namespace s) (S ia)
              (update [S ia] set_source (lifecycle_inserted (namespace s) ia M))).

Definition count_children (p : element -> bool) (e : element) : nat :=
  List.length (filter p (children e)).

(** The references block that a lookup finds in a meta block. *)
Definition references_of (M : element) : option element :=
  match child_index M "references" with
  | Some ir => nth_error (children M) ir
  | None => None
  end.

Definition is_cobalt_reference (ns : string) : element -> bool :=
  is_reference ns "TLCOrganization" "cobalt".

(** The number of organisation references for the tool in a meta block. *)
Definition cobalt_references (ns : string) (M : element) : nat :=
  match references_of M with
  | Some R => count_children (is_cobalt_reference ns) R
  | None => 0
  end.

Definition shift (k j : nat) : nat := if Nat.ltb j k then j else S j.

(** C7 as stated: after two calls in a row the meta block has exactly one
    lifecycle block and exactly one organisation reference for its source. *)
Definition one_lifecycle_one_reference (cls : doc_class) (s : state) : Prop :=
  forall d node s2,
    (StructuredDocument._ensure_lifecycle cls d ;;
     StructuredDocument._ensure_lifecycle cls d)%py s = (Ok node, s2) ->
    exists m M2,
      meta_at cls s2 m M2
      /\ count_children (tag_is (Some (namespace s2)) "lifecycle") M2 = 1
      /\ cobalt_references (namespace s2) M2 = 1.

(** ** The synchronisation of one identification block, seen from the block *)

(** Set the "value" attribute of the child named [n]. *)
Definition set_child_value (n v : string) (B : element) : element :=
  match child_index B n with
  | Some j => update [j] (set_attr "value" v) B
  | None => B
  end.

(** Get-or-create the child named [n] after the FRBRcountry child, and set
    its "value". *)
Definition ensure_child_value (ns n v : string) (W : element) : element :=
  match child_index W n with
  | Some j => update [j] (set_attr "value" v) W
  | None =>
      match child_index W "FRBRcountry" with
      | Some jc =>
          update [S jc] (set_attr "value" v)
                 (set_children (insert_at (S jc) (Element (Some ns) n [] []) (children W)) W)
      | None => W
      end
  end.

(** Remove the first child named [n], if any. *)
Definition drop_child (n : string) (W : element) : element :=
  match child_index W n with
  | Some j => set_children (remove_at j (children W)) W
  | None => W
  end.

Section SyncBlock.
Context {env : Collaborators}.

Definition sync_work (ns : string) (u : FrbrUri.t) (W : element) : element :=
  let W := set_child_value "FRBRuri" (uri u) W in
  let W := set_child_value "FRBRthis" (work_uri u true) W in
  let W := set_child_value "FRBRcountry" (place u) W in
  let W := ensure_child_value ns "FRBRnumber" (FrbrUri.number u) W in
  if truthy_opt (FrbrUri.subtype u)
  then ensure_child_value ns "FRBRsubtype"
                          (match FrbrUri.subtype u with Some v => v | None => "" end) W
  else drop_child "FRBRsubtype" W.

Definition sync_expression (u : FrbrUri.t) (X : element) : element :=
  set_child_value "FRBRthis" (expression_uri u true)
                  (set_child_value "FRBRuri" (expression_uri u false) X).

(** Apply [f] to the child named [blk]. *)
Definition in_child (blk : string) (f : element -> element) (I : element) : element :=
  match child_index I blk with
  | Some i => update [i] f I
  | None => I
  end.

Definition sync_ident (ns : string) (u : FrbrUri.t) (I : element) : element :=
  in_child "FRBRManifestation" (sync_expression u)
    (in_child "FRBRExpression" (sync_expression u)
       (in_child "FRBRWork" (sync_work ns u) I)).
End SyncBlock.

(** The "value" attribute of the child named [n]. *)
Definition child_value (B : element) (n : string) : option string :=
  match child_index B n with
  | Some j =>
      match nth_error (children B) j with
      | Some c => get c "value"
      | None => None
      end
  | None => None
  end.

(** The "value" attribute of the child [n] of the child [blk]. *)
Definition block_value (I : element) (blk n : string) : option string :=
  match child_index I blk with
  | Some i =>
      match nth_error (children I) i with
      | Some B => child_value B n
      | None => None
      end
  | None => None
  end.

Definition has_child (B : element) (n : string) : bool :=
  match child_index B n with Some _ => true | None => false end.

(** The child [blk] exists and has the children [names]. *)
Definition has_block (I : element) (blk : string) (names : list string) : bool :=
  match child_index I blk with
  | Some i =>
      match nth_error (children I) i with
      | Some B => forallb (has_child B) names
      | None => false
      end
  | None => false
  end.

(** An identification block that the setter of [frbr_uri] can rewrite: the
    three FRBR blocks with the elements the setter reads without a test. *)
Definition wf_ident (I : element) : bool :=
  has_block I "FRBRWork" ["FRBRuri"; "FRBRthis"; "FRBRcountry"]
  && has_block I "FRBRExpression" ["FRBRuri"; "FRBRthis"]
  && has_block I "FRBRManifestation" ["FRBRuri"; "FRBRthis"].

(** The child named [blk], as an element. *)
Definition block_of (I : element) (blk : string) : option element :=
  match child_index I blk with
  | Some i => nth_error (children I) i
  | None => None
  end.

(** ** Components and their separation *)

(** Two paths part at some index: neither element is inside the other. *)
Fixpoint divergeb (p q : path) : bool :=
  match p, q with
  | i :: p', j :: q' => if Nat.eqb i j then divergeb p' q' else true
  | _, _ => false
  end.

(** The outcome does not depend on the FRBR URI objects, and no state
    changes. *)
Definition reads_tree {A} (m : M A) : Prop :=
  forall s o, m (set_objects o s) = (fst (m s), set_objects o s).

(** The identification block that the search below the component [c] finds. *)
Definition ident_path (ns : string) (t : element) (c : path) : option path :=
  match subtree t c with
  | Some Ec => option_map (app c) (find_identification ns Ec)
  | None => None
  end.

(** The component [c] carries a well-formed identification block. *)
Definition component_ok (ns : string) (t : element) (c : path) : bool :=
  match ident_path ns t c with
  | Some b =>
      match subtree t b with
      | Some ident => wf_ident ident
      | None => false
      end
  | None => false
  end.

(** The identification block of a component is apart from the components
    that come after it. *)
Fixpoint separated (ns : string) (t : element) (cs : list path) : bool :=
  match cs with
  | [] => true
  | c :: r =>
      match ident_path ns t c with
      | Some b => forallb (divergeb b) r
      | None => false
      end && separated ns t r
  end.

(** The work component that the loop leaves in the object. *)
Definition after_components {V} (comps : list (option string * V)) (u : FrbrUri.t) : FrbrUri.t :=
  fold_left (fun u ce => FrbrUri.set_work_component (fst ce) u) comps u.

(** [m] is a proper ancestor of [q]. *)
Fixpoint strict_prefixb (m q : path) : bool :=
  match m, q with
  | [], _ :: _ => true
  | i :: m', j :: q' => Nat.eqb i j && strict_prefixb m' q'
  | _, [] => false
  end.

(** The object as the setter leaves it before the loop: the language and
    the expression date of the document, and the default work component. *)
Definition prepared (lang : string) (d : date) (u : FrbrUri.t) : FrbrUri.t :=
  let u := FrbrUri.set_expression_date (Some ("@" +++ datestring (DDate d)))
                                       (FrbrUri.set_language lang u) in
  match FrbrUri.work_component u with
  | None => FrbrUri.set_work_component (Some "main") u
  | Some _ => u
  end.

(** The value assigned to [frbr_uri] is, or is parsed into, the object [u0]. *)
Definition denotes {env : Collaborators} (s : state) (arg : StructuredDocument.uriarg)
           (u0 : FrbrUri.t) : Prop :=
  match arg with
  | StructuredDocument.AsObject a => nth_error (objects s) a = Some u0
  | StructuredDocument.AsText t => FrbrUri_parse t = Ok u0
  end.

(** The object that the loop of the setter renders for the component [name]. *)
Definition component_uri (lang : string) (d : date) (name : option string) (u0 : FrbrUri.t)
  : FrbrUri.t :=
  FrbrUri.set_work_component name
    (FrbrUri.set_expression_date (Some ("@" +++ datestring (DDate d)))
                                 (FrbrUri.set_language lang u0)).

Definition language_path (cls : doc_class) : list string :=
  [document_type cls; "meta"; "identification"; "FRBRExpression"; "FRBRlanguage"].

(** The document with the language [L] stored in the element [p]. *)
Definition language_stored (p : path) (L : string) (s : state) : state :=
  set_root (update p (set_attr "language" L) (root s)) s.

(** What the getter of [frbr_uri] makes of the string [v]. *)
Definition read_uri {env : Collaborators} (v : string) : M (option nat) :=
  if truthy v
  then u <- lift (FrbrUri_parse (Some v)) ;; a <- alloc u ;; ret (Some a)
  else ret None.

(** * Proofs *)

(** ** Strings *)

Lemma prefix_refl (x : string) : String.prefix x x = true.
Proof.
  induction x as [|a x IH]; simpl; [reflexivity|].
  destruct (ascii_dec a a); [assumption | congruence].
Qed.

Lemma prefix_append (x a b : string) :
  String.prefix x a = true -> String.prefix x (a +++ b) = true.
Proof.
  revert a; induction x as [|c x IH]; intros a H.
  - destruct (a +++ b); reflexivity.
  - destruct a as [|d a]; [discriminate|]. simpl in *.
    destruct (ascii_dec c d); [auto | discriminate].
Qed.

Lemma contains_refl (x : string) : contains x x = true.
Proof.
  assert (H : String.prefix x x = true) by apply prefix_refl.
  destruct x; unfold contains; fold contains; rewrite H; reflexivity.
Qed.

Lemma contains_append_l (x a b : string) :
  contains x a = true -> contains x (a +++ b) = true.
Proof.
  induction a as [|d a IH]; intros H.
  - destruct x; [destruct b; reflexivity | discriminate].
  - unfold contains in H; fold contains in H.
    change (String d a +++ b) with (String d (a +++ b)).
    unfold contains; fold contains.
    apply orb_true_iff in H. apply orb_true_iff. destruct H as [H|H].
    + left. change (String d (a +++ b)) with (String d a +++ b).
      apply prefix_append. exact H.
    + right. auto.
Qed.

Lemma contains_append_r (x a b : string) :
  contains x b = true -> contains x (a +++ b) = true.
Proof.
  intros H. induction a as [|d a IH]; [assumption|].
  change (String d a +++ b) with (String d (a +++ b)).
  unfold contains; fold contains. rewrite IH. apply orb_true_r.
Qed.

Lemma contains_join (sep x : string) (l : list string) :
  In x l -> contains x (join sep l) = true.
Proof.
  unfold join. induction l as [|y l IH]; intros H; [destruct H|].
  simpl. destruct l as [|z l].
  - destruct H as [->|[]]. apply contains_refl.
  - destruct H as [->|H].
    + apply contains_append_l, contains_refl.
    + apply contains_append_r, contains_append_r. auto.
Qed.

Lemma existsb_eqb_In (x : string) (l : list string) :
  existsb (String.eqb x) l = true <-> In x l.
Proof.
  rewrite existsb_exists. split.
  - intros [y [Hy E]]. apply String.eqb_eq in E. subst. assumption.
  - intros H. exists x. split; [assumption | apply String.eqb_refl].
Qed.

(** ** Namespace resolution *)

Lemma akn_namespaces_eq : AkomaNtosoDocument.akn_namespaces = [NS3; NS2].
Proof. reflexivity. Qed.

(** C4. [get_namespace] returns the known namespace URI with the numerically
    highest version label among the namespace URIs declared in the root's
    namespace map (the 3.0 one when both are declared); when none of the known
    URIs is declared it raises a ValueError whose message contains every known
    namespace URI and every namespace URI that was found. *)
Theorem get_namespace_highest_known (nsmap : list (option string * string)) :
  let found := map snd nsmap in
  match AkomaNtosoDocument.get_namespace nsmap with
  | Ok u =>
      (exists v, In (v, u) AKN_NAMESPACES /\ In u found /\
         forall v' u', In (v', u') AKN_NAMESPACES -> In u' found ->
                       version_tenths v' <= version_tenths v)
      /\ (In NS3 found -> u = NS3)
  | Raise e =>
      (forall v u, In (v, u) AKN_NAMESPACES -> ~ In u found)
      /\ e = ValueError (no_namespace_message found)
      /\ (forall v u, In (v, u) AKN_NAMESPACES ->
            contains u (no_namespace_message found) = true)
      /\ (forall u, In u found -> contains u (no_namespace_message found) = true)
  end.
Proof.
  intros found. unfold AkomaNtosoDocument.get_namespace.
  rewrite akn_namespaces_eq. fold found. cbn [find].
  destruct (existsb (String.eqb NS3) found) eqn:E3; cbv beta iota.
  - apply existsb_eqb_In in E3. split; [|intros _; reflexivity].
    exists "3.0". split; [right; left; reflexivity|]. split; [assumption|].
    intros v' u' [H|[H|[]]] _; inversion H; subst; vm_compute; lia.
  - assert (N3 : ~ In NS3 found).
    { intros H. apply existsb_eqb_In in H. congruence. }
    destruct (existsb (String.eqb NS2) found) eqn:E2; cbv beta iota.
    + apply existsb_eqb_In in E2. split; [|intros H; contradiction].
      exists "2.0". split; [left; reflexivity|]. split; [assumption|].
      intros v' u' [H|[H|[]]] Hin; inversion H; subst.
      * vm_compute; lia.
      * contradiction.
    + assert (N2 : ~ In NS2 found).
      { intros H. apply existsb_eqb_In in H. congruence. }
      split; [|split; [|split]].
      * intros v u [H|[H|[]]]; inversion H; subst; assumption.
      * reflexivity.
      * intros v u H. unfold no_namespace_message.
        apply contains_append_r, contains_append_l, contains_join.
        destruct H as [H|[H|[]]]; inversion H; subst; simpl; auto.
      * intros u H. unfold no_namespace_message.
        do 3 apply contains_append_r. apply contains_join. assumption.
Qed.

(** ** Lists and trees *)

Lemma find_index_Some {A} (f : A -> bool) (l : list A) (i : nat) :
  find_index f l = Some i ->
  exists x, nth_error l i = Some x /\ f x = true /\
            forall j y, j < i -> nth_error l j = Some y -> f y = false.
Proof.
  revert i; induction l as [|a l IH]; intros i H; simpl in H; [discriminate|].
  destruct (f a) eqn:Fa.
  - inversion H; subst. exists a. split; [reflexivity|]. split; [assumption|].
    intros j y Hj; lia.
  - destruct (find_index f l) as [k|] eqn:E; [|discriminate].
    inversion H; subst. destruct (IH k eq_refl) as [x [Hx [Fx Hlt]]].
    exists x. split; [assumption|]. split; [assumption|].
    intros [|j] y Hj Hy; simpl in Hy.
    + inversion Hy; subst; assumption.
    + apply (Hlt j); [lia | assumption].
Qed.

Lemma find_index_None {A} (f : A -> bool) (l : list A) :
  find_index f l = None -> forall x, In x l -> f x = false.
Proof.
  induction l as [|a l IH]; intros H x Hx; [destruct Hx|].
  simpl in H. destruct (f a) eqn:Fa; [discriminate|].
  destruct (find_index f l) eqn:E; [discriminate|].
  destruct Hx as [->|Hx]; auto.
Qed.

Lemma subtree_app (t : element) (p q : path) :
  subtree t (p ++ q) =
  match subtree t p with
  | Some e => subtree e q
  | None => None
  end.
Proof.
  revert t; induction p as [|i p IH]; intros t; simpl; [reflexivity|].
  destruct (nth_error (children t) i); [apply IH | reflexivity].
Qed.

Lemma subtree_snoc (t e : element) (p : path) (i : nat) :
  subtree t p = Some e -> subtree t (p ++ [i]) = nth_error (children e) i.
Proof.
  intros H. rewrite subtree_app, H. simpl.
  destruct (nth_error (children e) i); reflexivity.
Qed.

Lemma child_index_subtree (t e : element) (p : path) (n : string) (i : nat) :
  subtree t p = Some e -> child_index e n = Some i ->
  exists c, subtree t (p ++ [i]) = Some c /\ tag_is (el_ns e) n c = true.
Proof.
  intros Hp Hi. apply find_index_Some in Hi. destruct Hi as [c [Hc [Ht _]]].
  exists c. split; [|assumption]. rewrite (subtree_snoc _ _ _ i Hp). assumption.
Qed.

Lemma follow_valid (t : element) (names : list string) (p q : path) :
  follow t p names = Some q -> (exists e, subtree t p = Some e) ->
  exists e, subtree t q = Some e.
Proof.
  revert p; induction names as [|n r IH]; intros p H V; simpl in H.
  - inversion H; subst; assumption.
  - destruct (subtree t p) as [e|] eqn:E; [|discriminate].
    destruct (child_index e n) as [i|] eqn:C; [|discriminate].
    apply (IH _ H). destruct (child_index_subtree _ _ _ _ _ E C) as [c [Hc _]]. eauto.
Qed.

Lemma follow_app (t : element) (a b : list string) (p : path) :
  follow t p (a ++ b) =
  match follow t p a with
  | Some q => follow t q b
  | None => None
  end.
Proof.
  revert p; induction a as [|n a IH]; intros p; simpl; [reflexivity|].
  destruct (subtree t p) as [e|]; [|reflexivity].
  destruct (child_index e n); [apply IH | reflexivity].
Qed.

(** ** Running computations *)

Lemma bind_Ok {A B} (m : M A) (k : A -> M B) (s s' : state) (a : A) :
  m s = (Ok a, s') -> bind m k s = k a s'.
Proof. intros H. unfold bind. rewrite H. reflexivity. Qed.

Lemma bind_Raise {A B} (m : M A) (k : A -> M B) (s s' : state) (e : exn) :
  m s = (Raise e, s') -> bind m k s = (Raise e, s').
Proof. intros H. unfold bind. rewrite H. reflexivity. Qed.

Lemma node_at_Some (s : state) (p : path) (e : element) :
  subtree (root s) p = Some e -> node_at p s = (Ok e, s).
Proof. intros H. unfold node_at. rewrite H. reflexivity. Qed.

Lemma getattr_run (s : state) (p : path) (n : string) (e : element) :
  subtree (root s) p = Some e ->
  getattr p n s = match child_index e n with
                  | Some i => (Ok (p ++ [i]), s)
                  | None => (Raise AttributeError, s)
                  end.
Proof.
  intros H. unfold getattr. rewrite (bind_Ok _ _ _ _ _ (node_at_Some _ _ _ H)).
  destruct (child_index e n); reflexivity.
Qed.

Lemma getattr_follow (s : state) (p : path) (n : string) :
  (exists e, subtree (root s) p = Some e) ->
  getattr p n s = lookup (follow (root s) p [n]) s.
Proof.
  intros [e H]. rewrite (getattr_run _ _ _ _ H).
  simpl. rewrite H. destruct (child_index e n); reflexivity.
Qed.

Lemma chain_follow (names : list string) (start : M path) (s : state) (pre : list string) (p : path) :
  (exists e, subtree (root s) p = Some e) ->
  start s = lookup (follow (root s) p pre) s ->
  chain start names s = lookup (follow (root s) p (pre ++ names)) s.
Proof.
  revert start pre; induction names as [|n r IH]; intros start pre V H; simpl.
  - rewrite app_nil_r. assumption.
  - replace (pre ++ n :: r) with ((pre ++ [n]) ++ r)
      by (rewrite <- app_assoc; reflexivity).
    apply IH; [assumption|].
    rewrite follow_app. unfold bind. rewrite H.
    destruct (follow (root s) p pre) as [q|] eqn:F; simpl; [|reflexivity].
    destruct (follow_valid _ _ _ _ F V) as [e E].
    rewrite (getattr_follow _ _ n (ex_intro _ e E)). reflexivity.
Qed.

Lemma chain_ret_follow (names : list string) (s : state) (p : path) :
  (exists e, subtree (root s) p = Some e) ->
  chain (ret p) names s = lookup (follow (root s) p names) s.
Proof.
  intros V. apply (chain_follow names (ret p) s [] p V). reflexivity.
Qed.

(** ** Dotted-path lookup *)

Lemma get_element_loop_Node (self_getattr : string -> M pyref)
      (parts : list string) (start : path) (s : state) :
  (exists e, subtree (root s) start = Some e) ->
  AkomaNtosoDocument.get_element_loop self_getattr (Node start) parts s
  = (Ok (option_map Node (follow (root s) start parts)), s).
Proof.
  revert start.
  induction parts as [|n r IH]; intros start V; simpl; [reflexivity|].
  destruct V as [e E].
  unfold bind, except_AttributeError. rewrite (getattr_run _ _ _ _ E), E.
  destruct (child_index e n) as [i|] eqn:C; simpl; [|reflexivity].
  apply IH. destruct (child_index_subtree _ _ _ _ _ E C) as [c [Hc _]]. eauto.
Qed.


(** ** Parsing and validation *)

Lemma split_once_brace (h n : string) :
  no_brace h = true -> split_once "}" (h +++ "}" +++ n) = [h; n].
Proof.
  induction h as [|a h IH]; intros H; simpl in *; [reflexivity|].
  apply andb_true_iff in H. destruct H as [Ha Hh].
  destruct (Ascii.eqb a "}"); [discriminate|]. rewrite (IH Hh). reflexivity.
Qed.

Lemma local_name_qualified (e : element) (h : string) :
  el_ns e = Some h -> no_brace h = true ->
  nth_error (split_once "}" (tag e)) 1 = Some (el_name e).
Proof.
  intros Hn Hb. unfold tag. rewrite Hn.
  change ("{" +++ h +++ "}" +++ el_name e) with (("{" +++ h) +++ "}" +++ el_name e).
  rewrite split_once_brace; [reflexivity|]. simpl. assumption.
Qed.

Lemma local_name_unqualified (e : element) :
  el_ns e = None -> no_brace (el_name e) = true ->
  nth_error (split_once "}" (tag e)) 1 = None.
Proof.
  intros Hn. unfold tag. rewrite Hn. generalize (el_name e) as n.
  assert (G : forall n, no_brace n = true -> exists x, split_once "}" n = [x]).
  { induction n as [|a n IH]; simpl; intros H; [eauto|].
    apply andb_true_iff in H. destruct H as [Ha Hb].
    destruct (Ascii.eqb a "}"); [discriminate|].
    destruct (IH Hb) as [x ->]. eauto. }
  intros n H. destruct (G n H) as [x ->]. reflexivity.
Qed.

(** What [parse] of the subclass decides on a tree whose root and first
    child carry namespace-qualified tags. *)
Lemma parse_qualified (cls : doc_class) (x : markup) (h : string) :
  el_ns (m_root x) = Some h -> no_brace h = true ->
  (forall first rest, children (m_root x) = first :: rest ->
                      exists h', el_ns first = Some h' /\ no_brace h' = true) ->
  StructuredDocument.parse cls x =
  if negb (String.eqb (el_name (m_root x)) "akomaNtoso")
  then Raise (ValueError ("XML root element must be akomaNtoso, but got "
                          +++ el_name (m_root x) +++ " instead"))
  else match children (m_root x) with
       | [] => Raise (ValueError "XML root element must have at least one child")
       | first :: _ =>
           if negb (String.eqb (el_name first) (document_type cls))
           then Raise (ValueError ("Expected " +++ document_type cls
                                   +++ " as first child of root element, but got "
                                   +++ el_name first +++ " instead"))
           else Ok (m_root x)
       end.
Proof.
  intros Hn Hb Hc. unfold StructuredDocument.parse, AkomaNtosoDocument.parse.
  rewrite (local_name_qualified _ _ Hn Hb).
  destruct (negb (String.eqb (el_name (m_root x)) "akomaNtoso")); [reflexivity|].
  destruct (children (m_root x)) as [|first rest] eqn:C; [reflexivity|].
  destruct (Hc first rest eq_refl) as [h' [Hn' Hb']].
  change (Nat.ltb (List.length (first :: rest)) 1) with false.
  change (nth_error (first :: rest) 0) with (Some first). cbv iota.
  rewrite (local_name_qualified _ _ Hn' Hb'). reflexivity.
Qed.

(** C5, at a failing input.  The root of [unqualified_collection] is named
    akomaNtoso, it has a child, and its first child is named after the
    document type, so none of the three conditions of the claim holds; yet
    [parse] does not return the root: [root.tag.split('}', 1)[1]] raises an
    IndexError, which is not a ValueError. *)
Theorem parse_unqualified_root_raises_IndexError :
  el_name (m_root unqualified_collection) = "akomaNtoso"
  /\ (exists first rest, children (m_root unqualified_collection) = first :: rest
                         /\ el_name first = document_type Collection)
  /\ StructuredDocument.parse Collection unqualified_collection = Raise IndexError.
Proof.
  split; [reflexivity|]. split; [|reflexivity].
  eexists; eexists; split; reflexivity.
Qed.

(** ** The properties of the wrapper *)

Arguments datestring : simpl never.
Arguments lower : simpl never.

Lemma root_valid (s : state) : exists e, subtree (root s) [] = Some e.
Proof. exists (root s). reflexivity. Qed.

Lemma main_run (cls : doc_class) (s : state) :
  StructuredDocument.main cls s = lookup (follow (root s) [] [document_type cls]) s.
Proof. apply getattr_follow, root_valid. Qed.

Lemma meta_run (cls : doc_class) (s : state) :
  StructuredDocument.meta cls s = lookup (follow (root s) [] [document_type cls; "meta"]) s.
Proof.
  unfold StructuredDocument.meta.
  apply (chain_follow ["meta"] (StructuredDocument.main cls) s [document_type cls] [] (root_valid s)).
  apply main_run.
Qed.

Lemma main_content_run (cls : doc_class) (s : state) :
  StructuredDocument.main_content cls s
  = lookup (follow (root s) [] [document_type cls; main_content_tag cls]) s.
Proof.
  unfold StructuredDocument.main_content.
  apply (chain_follow [main_content_tag cls] (StructuredDocument.main cls) s
                      [document_type cls] [] (root_valid s)).
  apply main_run.
Qed.

Lemma chain_meta_run (cls : doc_class) (names : list string) (s : state) :
  chain (StructuredDocument.meta cls) names s
  = lookup (follow (root s) [] (document_type cls :: "meta" :: names)) s.
Proof.
  apply (chain_follow names (StructuredDocument.meta cls) s
                      [document_type cls; "meta"] [] (root_valid s)).
  apply meta_run.
Qed.

(** ** The empty document *)

Lemma tag_is_same (h : option string) (n : string) (a : list (string * string)) (c : list element) :
  tag_is h n (Element h n a c) = true.
Proof.
  unfold tag_is. simpl. rewrite String.eqb_refl.
  destruct h as [x|]; simpl; [rewrite String.eqb_refl|]; reflexivity.
Qed.

(** The skeleton of any document type whose content tag is not "meta" is
    accepted by the constructor, is titled "Untitled" and has an empty main
    content element. *)
Lemma tag_is_other (h h' : option string) (n n' : string)
      (a : list (string * string)) (c : list element) :
  String.eqb n' n = false -> tag_is h n (Element h' n' a c) = false.
Proof. intros H. unfold tag_is. simpl. rewrite H. apply andb_false_r. Qed.

(** Evaluation of lookups by name on a tree that is given explicitly. *)
Ltac run_lookups :=
  repeat first
    [ rewrite main_run | rewrite main_content_run | rewrite meta_run
    | rewrite chain_meta_run
    | rewrite tag_is_same
    | rewrite tag_is_other by (first [assumption | reflexivity])
    | progress cbn [follow subtree nth_error children child_index find_index
                    el_ns el_name app option_map lookup ret root namespace
                    document_type main_content_tag]
    | progress cbv beta iota ].

Lemma empty_document_accepted {env : Collaborators} (cls : doc_class) (v akn : string) :
  main_content_tag cls <> "meta" ->
  In (v, akn) AKN_NAMESPACES ->
  exists x s content e,
    StructuredDocument.empty_document cls v = Ok x
    /\ StructuredDocument.parse cls x = Ok (m_root x)
    /\ AkomaNtosoDocument.get_namespace (m_nsmap x) = Ok akn
    /\ StructuredDocument.init cls (Some x) = Ok s
    /\ root s = m_root x /\ namespace s = akn
    /\ StructuredDocument.title cls s = (Ok (Some "Untitled"), s)
    /\ StructuredDocument.main_content cls s = (Ok content, s)
    /\ subtree (root s) content = Some e
    /\ children e = [].
Proof.
  intros Hm Hv. destruct cls as [st mt dt]. simpl in Hm.
  assert (Emt : String.eqb "meta" mt = false).
  { apply String.eqb_neq. congruence. }
  assert (P : forall x : markup,
             StructuredDocument.empty_document (DocClass st mt dt) v = Ok x ->
             StructuredDocument.parse (DocClass st mt dt) x = Ok (m_root x)).
  { intros x Hx. destruct Hv as [Hv|[Hv|[]]]; inversion Hv; subst v akn;
      inversion Hx; subst x; clear Hx;
      (erewrite parse_qualified;
       [ cbn [m_root el_name children document_type]; rewrite !String.eqb_refl; reflexivity
       | reflexivity | reflexivity
       | intros first rest H; inversion H; subst; eexists; split; reflexivity ]). }
  destruct Hv as [Hv|[Hv|[]]]; inversion Hv; subst v akn.
  - eexists. eexists. exists [0; 1]. eexists.
    split; [reflexivity|].
    split; [apply P; reflexivity|].
    split; [reflexivity|].
    split.
    { unfold StructuredDocument.init. rewrite (P _ eq_refl).
      cbn [m_nsmap m_root]. 
      change (AkomaNtosoDocument.get_namespace [(None, "http://www.akomantoso.org/2.0")])
        with (@Ok string "http://www.akomantoso.org/2.0").
      cbv beta iota. unfold bind. run_lookups. reflexivity. }
    split; [reflexivity|]. split; [reflexivity|].
    split.
    { unfold StructuredDocument.title, bind. run_lookups. reflexivity. }
    split. { run_lookups. reflexivity. }
    split; reflexivity.
  - eexists. eexists. exists [0; 1]. eexists.
    split; [reflexivity|].
    split; [apply P; reflexivity|].
    split; [reflexivity|].
    split.
    { unfold StructuredDocument.init. rewrite (P _ eq_refl).
      cbn [m_nsmap m_root]. 
      change (AkomaNtosoDocument.get_namespace
                [(None, "http://docs.oasis-open.org/legaldocml/ns/akn/3.0")])
        with (@Ok string "http://docs.oasis-open.org/legaldocml/ns/akn/3.0").
      cbv beta iota. unfold bind. run_lookups. reflexivity. }
    split; [reflexivity|]. split; [reflexivity|].
    split.
    { unfold StructuredDocument.title, bind. run_lookups. reflexivity. }
    split. { run_lookups. reflexivity. }
    split; reflexivity.
Qed.

(** C3. For each supported format version, the skeleton built by
    [empty_document] is accepted by the constructor of the document type (it
    passes the checks of the root name, of the number of children, of the name
    of the first child, and the namespace resolution); the title of the
    resulting document is "Untitled" and its main content element has no
    children. *)
Theorem empty_document_bootstraps {env : Collaborators} (v : string) :
  In v ["2.0"; "3.0"] ->
  exists x s content e,
    StructuredDocument.empty_document Collection v = Ok x
    /\ StructuredDocument.parse Collection x = Ok (m_root x)
    /\ AkomaNtosoDocument.get_namespace (m_nsmap x) = Ok (namespace s)
    /\ assoc_get v AKN_NAMESPACES = Some (namespace s)
    /\ StructuredDocument.init Collection (Some x) = Ok s
    /\ StructuredDocument.title Collection s = (Ok (Some "Untitled"), s)
    /\ StructuredDocument.main_content Collection s = (Ok content, s)
    /\ subtree (root s) content = Some e
    /\ children e = [].
Proof.
  intros Hv.
  assert (H : exists akn, In (v, akn) AKN_NAMESPACES /\ assoc_get v AKN_NAMESPACES = Some akn).
  { destruct Hv as [<-|[<-|[]]]; eexists; (split; [|reflexivity]); simpl; auto. }
  destruct H as [akn [Hin Ha]].
  assert (Hm : main_content_tag Collection <> "meta") by discriminate.
  destruct (empty_document_accepted Collection v akn Hm Hin)
    as [x [s [content [e [H1 [H2 [H3 [H4 [H5 [H6 [H7 [H8 [H9 H10]]]]]]]]]]]]].
  exists x, s, content, e. subst akn. repeat split; assumption.
Qed.

(** ** Updates *)

Lemma nth_error_list_update {A} (f : A -> A) (l : list A) (i j : nat) :
  nth_error (list_update i f l) j =
  if Nat.eqb i j then option_map f (nth_error l j) else nth_error l j.
Proof.
  revert i j; induction l as [|x l IH]; intros i j.
  - destruct i, j; simpl; try reflexivity. destruct (Nat.eqb i j); reflexivity.
  - destruct i, j; simpl; try reflexivity. apply IH.
Qed.

Lemma children_set_children (cs : list element) (e : element) :
  children (set_children cs e) = cs.
Proof. reflexivity. Qed.

Lemma subtree_update_same (p : path) (f : element -> element) (t e : element) :
  subtree t p = Some e -> subtree (update p f t) p = Some (f e).
Proof.
  revert t; induction p as [|i p IH]; intros t H; simpl in *.
  - inversion H; reflexivity.
  - rewrite nth_error_list_update, Nat.eqb_refl.
    destruct (nth_error (children t) i) as [c|]; [|discriminate].
    simpl. apply IH. assumption.
Qed.

Lemma assoc_get_set (k v : string) (l : list (string * string)) :
  assoc_get k (assoc_set k v l) = Some v.
Proof.
  induction l as [|[k' v'] l IH]; simpl.
  - rewrite String.eqb_refl. reflexivity.
  - destruct (String.eqb k' k) eqn:E; simpl.
    + rewrite String.eqb_refl. reflexivity.
    + rewrite E. assumption.
Qed.

Lemma assoc_get_set_other (k k' v : string) (l : list (string * string)) :
  String.eqb k k' = false ->
  assoc_get k' (assoc_set k v l) = assoc_get k' l.
Proof.
  intros N. induction l as [|[k0 v0] l IH]; simpl.
  - rewrite N. reflexivity.
  - destruct (String.eqb k0 k) eqn:E; simpl.
    + apply String.eqb_eq in E. subst k0. rewrite N. reflexivity.
    + destruct (String.eqb k0 k'); [reflexivity | assumption].
Qed.

Lemma get_set_attr (k v : string) (e : element) : get (set_attr k v e) k = Some v.
Proof. destruct e. apply assoc_get_set. Qed.

Lemma get_set_attr_other (k k' v : string) (e : element) :
  String.eqb k k' = false -> get (set_attr k v e) k' = get e k'.
Proof. destruct e. apply assoc_get_set_other. Qed.

Lemma modify_at_run (s : state) (p : path) (f : element -> element) (e : element) :
  subtree (root s) p = Some e ->
  modify_at p f s = (Ok tt, set_root (update p f (root s)) s).
Proof.
  intros H. unfold modify_at. rewrite (bind_Ok _ _ _ _ _ (node_at_Some _ _ _ H)).
  reflexivity.
Qed.

Lemma attr_set_run (s : state) (p : path) (k v : string) (e : element) :
  subtree (root s) p = Some e ->
  attr_set p k v s = (Ok tt, set_root (update p (set_attr k v) (root s)) s).
Proof. apply modify_at_run. Qed.

Lemma attr_get_run (s : state) (p : path) (k : string) (e : element) :
  subtree (root s) p = Some e -> attr_get p k s = (Ok (get e k), s).
Proof.
  intros H. unfold attr_get. rewrite (bind_Ok _ _ _ _ _ (node_at_Some _ _ _ H)).
  reflexivity.
Qed.

(** ** Dates *)

Set Warnings "-abstract-large-number".

Lemma digits_rev_small (f n : nat) : n < 10 -> digits_rev (S f) n = [digit n].
Proof.
  intros H. cbn [digits_rev]. destruct (Nat.ltb_spec n 10); [reflexivity | lia].
Qed.

Lemma digits_rev_big (f n : nat) :
  10 <= n -> digits_rev (S f) n = digit n :: digits_rev f (n / 10).
Proof.
  intros H. cbn [digits_rev]. destruct (Nat.ltb_spec n 10); [lia | reflexivity].
Qed.

Lemma digit_0 : digit 0 = "0"%char.
Proof. reflexivity. Qed.

Lemma digits_rev_last (f n : nat) : n < 100 -> digits_rev (S f) (n / 10) = [digit (n / 10)].
Proof.
  intros H. apply digits_rev_small. apply Nat.Div0.div_lt_upper_bound. exact H.
Qed.

Lemma zero_pad_4 (y : nat) :
  y <= 9999 ->
  zero_pad 4 y = string_of_list_ascii [digit (y / 1000); digit (y / 100); digit (y / 10); digit y].
Proof.
  intros H0.
  assert (H : y < 10 * 1000) by exact (proj2 (Nat.lt_succ_r y 9999) H0).
  clear H0. unfold zero_pad, decimal.
  destruct (lt_dec y 10) as [A|A].
  - rewrite (digits_rev_small _ _ A).
    rewrite (Nat.div_small y 1000), (Nat.div_small y 100), (Nat.div_small y 10) by lia.
    reflexivity.
  - destruct y as [|y1]; [lia|]. rewrite digits_rev_big by lia.
    destruct (lt_dec (S y1) 100) as [B|B].
    + rewrite (digits_rev_last _ _ B).
      rewrite (Nat.div_small (S y1) 1000), (Nat.div_small (S y1) 100) by lia.
      reflexivity.
    + destruct y1 as [|y2]; [lia|].
      assert (E1 : 10 <= S (S y2) / 10) by (apply Nat.div_le_lower_bound; lia).
      rewrite (digits_rev_big _ _ E1). rewrite (Nat.Div0.div_div _ 10 10).
      change (10 * 10) with 100.
      destruct (lt_dec (S (S y2)) 1000) as [C|C].
      * assert (Q : S (S y2) / 100 < 10) by (apply Nat.Div0.div_lt_upper_bound; exact C).
        rewrite (digits_rev_small _ _ Q).
        rewrite (Nat.div_small (S (S y2)) 1000) by exact C. reflexivity.
      * destruct y2 as [|y3]; [lia|].
        assert (E2 : 10 <= S (S (S y3)) / 100) by (apply Nat.div_le_lower_bound; lia).
        rewrite (digits_rev_big _ _ E2). rewrite (Nat.Div0.div_div _ 100 10).
        change (100 * 10) with 1000.
        destruct y3 as [|y4]; [lia|].
        assert (Q : S (S (S (S y4))) / 1000 < 10)
          by (apply Nat.Div0.div_lt_upper_bound; exact H).
        rewrite (digits_rev_small _ _ Q). reflexivity.
Qed.

Lemma zero_pad_2 (m : nat) :
  m <= 99 -> zero_pad 2 m = string_of_list_ascii [digit (m / 10); digit m].
Proof.
  intros H. unfold zero_pad, decimal.
  destruct (lt_dec m 10) as [A|A].
  - rewrite (digits_rev_small _ _ A), (Nat.div_small m 10) by lia. reflexivity.
  - destruct m as [|m1]; [lia|]. rewrite digits_rev_big by lia.
    rewrite digits_rev_last by lia. reflexivity.
Qed.

Lemma datestring_date (y m d : nat) :
  y <= 9999 -> m <= 99 -> d <= 99 ->
  datestring (DDate (Date y m d)) = iso_date_text y m d.
Proof.
  intros Hy Hm Hd. unfold datestring. cbn [year month day].
  rewrite (zero_pad_4 y Hy), (zero_pad_2 m Hm), (zero_pad_2 d Hd). reflexivity.
Qed.

(** C10. The three date setters store, in the "date" attribute of the
    FRBRdate element of their block, the result of [datestring]: the empty
    string for None, a string as it is, and a date as zero-padded YYYY-MM-DD.
    The setter of the expression date goes on with the resynchronisation of
    the URIs from the document in which the date is stored. *)
Theorem date_setters_store_datestring {env : Collaborators} (cls : doc_class)
        (s : state) (value : datearg) :
  (datestring DNone = ""
   /\ (forall x, datestring (DStr x) = x)
   /\ (forall y m d, y <= 9999 -> m <= 99 -> d <= 99 ->
                     datestring (DDate (Date y m d)) = iso_date_text y m d))
  /\ (forall p, follow (root s) [] (date_path cls "FRBRWork") = Some p ->
        StructuredDocument.set_work_date cls value s = (Ok tt, date_stored p value s)
        /\ attr_get p "date" (date_stored p value s)
           = (Ok (Some (datestring value)), date_stored p value s))
  /\ (forall p, follow (root s) [] (date_path cls "FRBRManifestation") = Some p ->
        StructuredDocument.set_manifestation_date cls value s = (Ok tt, date_stored p value s)
        /\ attr_get p "date" (date_stored p value s)
           = (Ok (Some (datestring value)), date_stored p value s))
  /\ (forall p, follow (root s) [] (date_path cls "FRBRExpression") = Some p ->
        StructuredDocument.set_expression_date cls value s
        = StructuredDocument.resync cls (date_stored p value s)
        /\ attr_get p "date" (date_stored p value s)
           = (Ok (Some (datestring value)), date_stored p value s)).
Proof.
  assert (Stored : forall p e, subtree (root s) p = Some e ->
            attr_get p "date" (date_stored p value s)
            = (Ok (Some (datestring value)), date_stored p value s)).
  { intros p e E. erewrite attr_get_run.
    - rewrite get_set_attr. reflexivity.
    - unfold date_stored. cbn [root set_root]. apply subtree_update_same. exact E. }
  split; [split; [reflexivity | split; [reflexivity | apply datestring_date]]|].
  split; [|split]; intros p F;
    destruct (follow_valid _ _ _ _ F (root_valid s)) as [e E];
    (split; [|apply (Stored p e E)]).
  - unfold StructuredDocument.set_work_date, bind. rewrite chain_meta_run.
    unfold date_path in F. rewrite F. cbn [lookup ret].
    apply (attr_set_run _ _ _ _ _ E).
  - unfold StructuredDocument.set_manifestation_date, bind. rewrite chain_meta_run.
    unfold date_path in F. rewrite F. cbn [lookup ret].
    apply (attr_set_run _ _ _ _ _ E).
  - unfold StructuredDocument.set_expression_date, bind. rewrite chain_meta_run.
    unfold date_path in F. rewrite F. cbn [lookup ret].
    rewrite (attr_set_run _ _ _ _ _ E). reflexivity.
Qed.

(** ** More on updates *)

Lemma list_update_ext {A} (f g : A -> A) (l : list A) (i : nat) :
  (forall x, nth_error l i = Some x -> f x = g x) ->
  list_update i f l = list_update i g l.
Proof.
  revert i; induction l as [|a l IH]; intros i H; [destruct i; reflexivity|].
  destruct i; simpl.
  - rewrite (H a eq_refl). reflexivity.
  - rewrite (IH i); [reflexivity|]. intros x Hx. apply H. exact Hx.
Qed.

Lemma list_update_update {A} (f g : A -> A) (l : list A) (i : nat) :
  list_update i g (list_update i f l) = list_update i (fun x => g (f x)) l.
Proof.
  revert i; induction l as [|a l IH]; intros i; [destruct i; reflexivity|].
  destruct i; simpl; [reflexivity|]. rewrite IH. reflexivity.
Qed.

Lemma update_app (p q : path) (f : element -> element) (t : element) :
  update (p ++ q) f t = update p (update q f) t.
Proof.
  revert t; induction p as [|i p IH]; intros t; simpl; [reflexivity|].
  f_equal. apply list_update_ext. intros x _. apply IH.
Qed.

Lemma update_update (p : path) (f g : element -> element) (t : element) :
  update p g (update p f t) = update p (fun e => g (f e)) t.
Proof.
  revert t; induction p as [|i p IH]; intros t; simpl; [reflexivity|].
  destruct t as [h n a c]. unfold set_children. cbn [el_ns el_name attrib children].
  rewrite list_update_update. f_equal. apply list_update_ext. intros x _. apply IH.
Qed.

Lemma update_ext_at (p : path) (f g : element -> element) (t e : element) :
  subtree t p = Some e -> f e = g e -> update p f t = update p g t.
Proof.
  revert t; induction p as [|i p IH]; intros t H E; simpl in *.
  - inversion H; subst. exact E.
  - f_equal. apply list_update_ext. intros x Hx. rewrite Hx in H.
    apply (IH x H E).
Qed.

(** An update leaves alone what lies on another branch. *)
Lemma subtree_update_diverge (c p q : path) (i j : nat) (f : element -> element) (t : element) :
  i <> j ->
  subtree (update (c ++ i :: p) f t) (c ++ j :: q) = subtree t (c ++ j :: q).
Proof.
  intros N. revert t; induction c as [|k c IH]; intros t; simpl.
  - rewrite nth_error_list_update.
    destruct (Nat.eqb_spec i j); [contradiction | reflexivity].
  - rewrite nth_error_list_update, Nat.eqb_refl.
    destruct (nth_error (children t) k) as [x|]; simpl; [apply IH | reflexivity].
Qed.

Lemma nth_error_insert_at {A} (l : list A) (i : nat) (x : A) :
  i <= List.length l -> nth_error (insert_at i x l) i = Some x.
Proof.
  intros H. unfold insert_at. rewrite nth_error_app2; rewrite firstn_length_le by exact H.
  - rewrite Nat.sub_diag. reflexivity.
  - apply Nat.le_refl.
Qed.

Lemma list_update_insert_at {A} (f : A -> A) (l : list A) (i : nat) (x : A) :
  i <= List.length l ->
  list_update i f (insert_at i x l) = insert_at i (f x) l.
Proof.
  revert i; induction l as [|a l IH]; intros i H.
  - destruct i; [reflexivity | simpl in H; lia].
  - destruct i; [reflexivity|]. unfold insert_at in *. simpl.
    f_equal. apply IH. simpl in H. lia.
Qed.

Lemma find_index_bound {A} (f : A -> bool) (l : list A) (i : nat) :
  find_index f l = Some i -> i < List.length l.
Proof.
  intros H. destruct (find_index_Some _ _ _ H) as [x [Hx _]].
  apply nth_error_Some. congruence.
Qed.

Lemma find_indices_head {A} (f : A -> bool) (l : list A) (i : nat) :
  match find_indices f i l with
  | [] => find_index f l = None
  | k :: _ => exists j, k = i + j /\ find_index f l = Some j
  end.
Proof.
  revert i; induction l as [|a l IH]; intros i; simpl; [reflexivity|].
  destruct (f a) eqn:Fa.
  - exists 0. split; [lia | reflexivity].
  - specialize (IH (S i)). destruct (find_indices f (S i) l) as [|k r].
    + rewrite IH. reflexivity.
    + destruct IH as [j [-> Hj]]. exists (S j). split; [lia|]. rewrite Hj. reflexivity.
Qed.

(** ** Lookups from the wrapper *)

(** A dotted path that starts at the wrapper with the segment "meta". *)
Lemma get_element_meta (cls : doc_class) (rest : list string) (s : state) :
  AkomaNtosoDocument.get_element_loop (StructuredDocument.self_getattr cls) Self
                                      ("meta" :: rest) s
  = (Ok (option_map Node (follow (root s) [] (document_type cls :: "meta" :: rest))), s).
Proof.
  cbn [AkomaNtosoDocument.get_element_loop AkomaNtosoDocument.py_getattr].
  unfold StructuredDocument.self_getattr.
  change (String.eqb "meta" "main") with false.
  change (String.eqb "meta" "main_content") with false.
  change (String.eqb "meta" "meta") with true. cbv iota.
  unfold bind at 1, except_AttributeError, bind at 1, bind at 1.
  rewrite meta_run.
  change (document_type cls :: "meta" :: rest) with ([document_type cls; "meta"] ++ rest).
  rewrite follow_app.
  destruct (follow (root s) [] [document_type cls; "meta"]) as [m|] eqn:F;
    cbn [lookup ret raise is_AttributeError]; [|reflexivity].
  apply get_element_loop_Node. apply (follow_valid _ _ _ _ F (root_valid s)).
Qed.

(** ** The title setter *)

Lemma follow_snoc (t : element) (names : list string) (n : string) (p w : path) (W : element) :
  follow t p names = Some w -> subtree t w = Some W ->
  follow t p (names ++ [n]) = option_map (fun i => w ++ [i]) (child_index W n).
Proof.
  intros F E. rewrite follow_app, F. simpl. rewrite E.
  destruct (child_index W n); reflexivity.
Qed.

Lemma xpath_title_aliases_run (s : state) (w : path) (W : element) :
  subtree (root s) w = Some W ->
  StructuredDocument.xpath_title_aliases w s
  = (Ok (map (fun i => w ++ [i])
             (find_indices (StructuredDocument.is_title_alias (namespace s)) 0 (children W))), s).
Proof.
  intros E. unfold StructuredDocument.xpath_title_aliases.
  rewrite (bind_Ok _ _ _ _ _ (node_at_Some _ _ _ E)). reflexivity.
Qed.

Lemma split_alias_path :
  split "." "meta.identification.FRBRWork.FRBRalias"
  = ["meta"; "identification"; "FRBRWork"; "FRBRalias"].
Proof. reflexivity. Qed.

Lemma unsnoc_snoc (p : path) (i : nat) : unsnoc (p ++ [i]) = Some (p, i).
Proof. unfold unsnoc. rewrite rev_app_distr. simpl. rewrite rev_involutive. reflexivity. Qed.

Lemma next_sibling_snoc (p : path) (i : nat) : next_sibling (p ++ [i]) = p ++ [S i].
Proof. unfold next_sibling. rewrite unsnoc_snoc. reflexivity. Qed.

(** [after.addnext(node)] for a child [i] of the element at [w]. *)
Lemma addnext_run (s : state) (w : path) (W c node : element) (i : nat) :
  subtree (root s) w = Some W -> nth_error (children W) i = Some c ->
  addnext (w ++ [i]) node s
  = (Ok tt, set_root (update w (fun e => set_children (insert_at (S i) node (children e)) e)
                             (root s)) s).
Proof.
  intros E C. unfold addnext.
  assert (Ec : subtree (root s) (w ++ [i]) = Some c).
  { rewrite (subtree_snoc _ _ _ i E). exact C. }
  rewrite (bind_Ok _ _ _ _ _ (node_at_Some _ _ _ Ec)). rewrite unsnoc_snoc.
  apply (modify_at_run _ _ _ _ E).
Qed.

(** C6, as the code has it.  When the Work block has an FRBRalias child
    named "title" (in the namespace of the document), the setter overwrites the
    "value" attribute of the first one and touches nothing else.  Otherwise it
    takes the first FRBRalias child of the Work block, whatever its name, and
    sets its "name" to "title" and its "value"; only when the Work block has
    no FRBRalias child at all does it create one, placed right after the
    FRBRuri child, with name "title" and the given value. *)
Theorem set_title_effect (cls : doc_class) (s : state) (v : string) (w : path) (W : element) :
  follow (root s) [] (work_path cls) = Some w ->
  subtree (root s) w = Some W ->
  let titled := find_index (StructuredDocument.is_title_alias (namespace s)) (children W) in
  (forall k, titled = Some k ->
     StructuredDocument.set_title cls v s
     = (Ok tt, set_root (update (w ++ [k]) (set_attr "value" v) (root s)) s)
     /\ forall j, j <> k ->
          subtree (update (w ++ [k]) (set_attr "value" v) (root s)) (w ++ [j])
          = subtree (root s) (w ++ [j]))
  /\ (titled = None ->
      forall iu, child_index W "FRBRuri" = Some iu ->
        (forall k, child_index W "FRBRalias" = Some k ->
           StructuredDocument.set_title cls v s
           = (Ok tt, set_root (update (w ++ [k])
                                 (fun e => set_attr "value" v (set_attr "name" "title" e))
                                 (root s)) s))
        /\ (child_index W "FRBRalias" = None ->
            StructuredDocument.set_title cls v s
            = (Ok tt, set_root (update w
                                  (fun e => set_children
                                              (insert_at (S iu) (new_title_alias (namespace s) v)
                                                         (children e)) e)
                                  (root s)) s))).
Proof.
  intros F E titled.
  assert (Start : forall k : list path -> M unit,
            StructuredDocument.set_title cls v s
            = match map (fun i => w ++ [i])
                        (find_indices (StructuredDocument.is_title_alias (namespace s)) 0
                                      (children W)) with
              | [] =>
                  (after <- chain (StructuredDocument.meta cls)
                                  ["identification"; "FRBRWork"; "FRBRuri"] ;;
                   alias <- StructuredDocument.ensure_element cls
                              "meta.identification.FRBRWork.FRBRalias" after None ;;
                   alias <- as_element alias ;;
                   attr_set alias "name" "title" ;;
                   attr_set alias "value" v) s
              | alias :: _ => attr_set alias "value" v s
              end).
  { intros _. unfold StructuredDocument.set_title. unfold bind at 1.
    rewrite chain_meta_run. unfold work_path in F. rewrite F. cbn [lookup ret].
    unfold bind at 1. rewrite (xpath_title_aliases_run _ _ _ E).
    destruct (map _ _); reflexivity. }
  specialize (Start (fun _ => ret tt)).
  pose proof (find_indices_head (StructuredDocument.is_title_alias (namespace s))
                                (children W) 0) as Hd.
  split.
  - intros k Hk. split.
    + rewrite Start. fold titled in Hd.
      destruct (find_indices _ 0 (children W)) as [|k0 r].
      * congruence.
      * destruct Hd as [j [-> Hj]]. simpl in *. assert (j = k) by congruence. subst j.
        destruct (find_index_Some _ _ _ Hk) as [x [Hx _]].
        apply (attr_set_run _ _ _ _ x). rewrite (subtree_snoc _ _ _ k E). exact Hx.
    + intros j N.
      apply (subtree_update_diverge w [] [] k j). congruence.
  - intros Hn iu Hu. fold titled in Hd.
    destruct (find_indices _ 0 (children W)) as [|k0 r];
      [|destruct Hd as [j [_ Hj]]; congruence].
    cbn [map] in Start.
    assert (Fu : follow (root s) []
                   (document_type cls :: "meta" :: ["identification"; "FRBRWork"; "FRBRuri"])
                 = Some (w ++ [iu])).
    { change (document_type cls :: "meta" :: ["identification"; "FRBRWork"; "FRBRuri"])
        with (work_path cls ++ ["FRBRuri"]).
      rewrite (follow_snoc _ _ "FRBRuri" _ _ _ F E), Hu. reflexivity. }
    assert (Fa : follow (root s) []
                   (document_type cls :: "meta" :: ["identification"; "FRBRWork"; "FRBRalias"])
                 = option_map (fun i => w ++ [i]) (child_index W "FRBRalias")).
    { change (document_type cls :: "meta" :: ["identification"; "FRBRWork"; "FRBRalias"])
        with (work_path cls ++ ["FRBRalias"]).
      apply (follow_snoc _ _ "FRBRalias" _ _ _ F E). }
    assert (Step : StructuredDocument.set_title cls v s
                   = (alias <- match child_index W "FRBRalias" with
                               | Some k => ret (Node (w ++ [k]))
                               | None =>
                                   addnext (w ++ [iu]) (Element (Some (namespace s)) "FRBRalias" [] []) ;;
                                   ret (Node (w ++ [S iu]))
                               end ;;
                      alias <- as_element alias ;;
                      attr_set alias "name" "title" ;;
                      attr_set alias "value" v) s).
    { rewrite Start. unfold bind at 1. rewrite chain_meta_run, Fu. cbn [lookup ret].
      unfold StructuredDocument.ensure_element, AkomaNtosoDocument.ensure_element,
        AkomaNtosoDocument.get_element.
      rewrite split_alias_path.
      unfold bind at 1. unfold bind at 1. rewrite get_element_meta, Fa.
      destruct (child_index W "FRBRalias") as [k|]; cbn [option_map]; [reflexivity|].
      rewrite next_sibling_snoc. reflexivity. }
    destruct (find_index_Some _ _ _ Hu) as [cu [Hcu _]].
    split.
    + intros k Hk. rewrite Step, Hk.
      destruct (find_index_Some _ _ _ Hk) as [x [Hx _]].
      assert (Ex : subtree (root s) (w ++ [k]) = Some x).
      { rewrite (subtree_snoc _ _ _ k E). exact Hx. }
      cbn [bind ret as_element]. unfold bind.
      cbn [ret as_element]. rewrite (attr_set_run _ _ _ _ _ Ex).
      erewrite attr_set_run.
      * unfold set_root. cbn [root nsmap namespace objects].
        rewrite update_update. reflexivity.
      * cbn [root set_root]. apply subtree_update_same. exact Ex.
    + intros Hk. rewrite Step, Hk.
      unfold bind. rewrite (addnext_run _ _ _ _ _ _ E Hcu).
      cbn [ret as_element].
      set (ins := fun e => set_children
                   (insert_at (S iu) (Element (Some (namespace s)) "FRBRalias" [] [])
                              (children e)) e).
      assert (Bound : S iu <= List.length (children W)).
      { apply find_index_bound in Hu. lia. }
      assert (E1 : subtree (update w ins (root s)) (w ++ [S iu])
                   = Some (Element (Some (namespace s)) "FRBRalias" [] [])).
      { rewrite (subtree_snoc _ (ins W) _ (S iu)).
        - unfold ins. cbn [children set_children]. destruct W as [h n a c].
          cbn [children]. apply nth_error_insert_at. exact Bound.
        - apply subtree_update_same. exact E. }
      erewrite attr_set_run; [|cbn [root set_root]; exact E1].
      erewrite attr_set_run;
        [|cbn [root set_root]; apply subtree_update_same; exact E1].
      unfold set_root. cbn [root nsmap namespace objects].
      rewrite update_update, update_app, update_update.
      f_equal. f_equal. apply (update_ext_at _ _ _ _ _ E).
      unfold ins. destruct W as [h n a c]. cbn [update children set_children el_ns el_name attrib].
      unfold set_children. cbn [el_ns el_name attrib children].
      rewrite (list_update_insert_at _ _ _ _ Bound). reflexivity.
Qed.

(** ** Example documents *)

(** C6, counterexample: the Work block of [Example.aliased] has one alias,
    named "short", and none named "title"; the setter creates nothing and
    turns that alias into the title. *)
Lemma set_title_takes_over_other_alias :
  (forall W, subtree Example.aliased [0; 0; 0; 0] = Some W ->
             find_index (StructuredDocument.is_title_alias NS3) (children W) = None)
  /\ ~ creates_title_alias Collection (Example.state_of Example.aliased) "New".
Proof.
  split.
  - intros W H. vm_compute in H. inversion H; subst. reflexivity.
  - intros [w [W [iu [s' [F [E [U [R T]]]]]]]].
    vm_compute in F. inversion F; subst w. clear F.
    vm_compute in E. inversion E; subst W. clear E.
    vm_compute in U. inversion U; subst iu. clear U.
    vm_compute in R. inversion R; subst s'. clear R.
    vm_compute in T. discriminate T.
Qed.

Lemma set_title_effect_witness :
  StructuredDocument.set_title Collection "New" (Example.state_of Example.titled)
  = (Ok tt, set_root (update [0; 0; 0; 0; 2] (set_attr "value" "New") Example.titled)
                     (Example.state_of Example.titled)).
Proof.
  destruct (set_title_effect Collection (Example.state_of Example.titled) "New"
                             [0; 0; 0; 0] _ eq_refl eq_refl) as [H _].
  exact (proj1 (H 2 eq_refl)).
Defined.


Lemma empty_document_bootstraps_witness :
  exists x s content e,
    StructuredDocument.empty_document (env := Sample.env) Collection "3.0" = Ok x
    /\ StructuredDocument.parse Collection x = Ok (m_root x)
    /\ AkomaNtosoDocument.get_namespace (m_nsmap x) = Ok (namespace s)
    /\ assoc_get "3.0" AKN_NAMESPACES = Some (namespace s)
    /\ StructuredDocument.init (env := Sample.env) Collection (Some x) = Ok s
    /\ StructuredDocument.title Collection s = (Ok (Some "Untitled"), s)
    /\ StructuredDocument.main_content Collection s = (Ok content, s)
    /\ subtree (root s) content = Some e
    /\ children e = [].
Proof.
  apply (empty_document_bootstraps (env := Sample.env) "3.0").
  right. left. reflexivity.
Defined.

Lemma date_setters_store_datestring_witness :
  datestring (DDate (Date 2024 2 9)) = "2024-02-09"
  /\ StructuredDocument.set_work_date Collection (DDate (Date 2024 2 9))
       (Example.state_of Example.titled)
     = (Ok tt, date_stored [0; 0; 0; 0; 3] (DDate (Date 2024 2 9))
                           (Example.state_of Example.titled)).
Proof.
  destruct (date_setters_store_datestring (env := Sample.env) Collection
              (Example.state_of Example.titled) (DDate (Date 2024 2 9)))
    as [[_ [_ D]] [Wk _]].
  split.
  - rewrite (D 2024 2 9); [reflexivity | | |]; apply Nat.leb_le; reflexivity.
  - exact (proj1 (Wk [0; 0; 0; 0; 3] eq_refl)).
Defined.

(** ** Updates that keep tags *)

Lemma keeps_tag_set_attr (k v : string) : keeps_tag (set_attr k v).
Proof. intros e. split; reflexivity. Qed.

Lemma keeps_tag_set_children (g : element -> list element) :
  keeps_tag (fun e => set_children (g e) e).
Proof. intros e. split; reflexivity. Qed.

Lemma keeps_tag_compose (f g : element -> element) :
  keeps_tag f -> keeps_tag g -> keeps_tag (fun e => g (f e)).
Proof.
  intros Hf Hg e. destruct (Hf e) as [A B], (Hg (f e)) as [C D].
  split; congruence.
Qed.

Lemma keeps_tag_update (p : path) (f : element -> element) :
  keeps_tag f -> keeps_tag (update p f).
Proof.
  intros H. destruct p as [|i p]; [exact H|]. intros e. split; reflexivity.
Qed.

Lemma tag_is_keeps (f : element -> element) (h : option string) (n : string) (e : element) :
  keeps_tag f -> tag_is h n (f e) = tag_is h n e.
Proof.
  intros H. destruct (H e) as [A B]. unfold tag_is. rewrite A, B. reflexivity.
Qed.

Lemma find_index_list_update {A} (p : A -> bool) (f : A -> A) (l : list A) (i : nat) :
  (forall x, p (f x) = p x) -> find_index p (list_update i f l) = find_index p l.
Proof.
  intros H. revert i; induction l as [|a l IH]; intros i; [destruct i; reflexivity|].
  destruct i; simpl.
  - rewrite H. reflexivity.
  - rewrite IH. reflexivity.
Qed.

Lemma child_index_update_child (e : element) (i : nat) (f : element -> element) (n : string) :
  keeps_tag f -> child_index (update [i] f e) n = child_index e n.
Proof.
  intros H. unfold child_index. destruct e as [h m a c].
  cbn [update set_children children el_ns el_name attrib].
  apply find_index_list_update. intros x. apply tag_is_keeps. exact H.
Qed.

Lemma child_index_update_below (e : element) (i : nat) (q : path)
      (f : element -> element) (n : string) :
  keeps_tag f -> child_index (update (i :: q) f e) n = child_index e n.
Proof.
  intros H. apply (child_index_update_child e i (update q f) n).
  apply keeps_tag_update. exact H.
Qed.

Lemma subtree_update_prefix (p q : path) (f : element -> element) (t : element) :
  subtree (update (p ++ q) f t) p = option_map (update q f) (subtree t p).
Proof.
  rewrite update_app.
  destruct (subtree t p) as [e|] eqn:E.
  - apply subtree_update_same. exact E.
  - revert t E; induction p as [|i p IH]; intros t E; simpl in *; [discriminate|].
    rewrite nth_error_list_update, Nat.eqb_refl.
    destruct (nth_error (children t) i) as [c|]; simpl; [apply IH; exact E | reflexivity].
Qed.

Lemma follow_extends (t : element) (names : list string) (p q : path) :
  follow t p names = Some q -> exists x, q = p ++ x.
Proof.
  revert p; induction names as [|n r IH]; intros p H; simpl in H.
  - inversion H. exists []. rewrite app_nil_r. reflexivity.
  - destruct (subtree t p) as [e|]; [|discriminate].
    destruct (child_index e n) as [i|]; [|discriminate].
    destruct (IH _ H) as [x ->]. exists (i :: x). rewrite <- app_assoc. reflexivity.
Qed.

(** A tag-keeping update at the element that a lookup reaches does not
    disturb the lookup. *)
Lemma follow_update_target (t : element) (names : list string) (p q : path)
      (f : element -> element) :
  keeps_tag f -> follow t p names = Some q -> follow (update q f t) p names = Some q.
Proof.
  intros K. revert p; induction names as [|n r IH]; intros p H; simpl in *; [exact H|].
  destruct (subtree t p) as [e|] eqn:E; [|discriminate].
  destruct (child_index e n) as [i|] eqn:C; [|discriminate].
  destruct (follow_extends _ _ _ _ H) as [x Hx].
  assert (S1 : subtree (update q f t) p = Some (update (i :: x) f e)).
  { rewrite Hx, <- app_assoc, subtree_update_prefix, E. reflexivity. }
  rewrite S1, (child_index_update_below e i x f n K), C.
  apply IH. exact H.
Qed.

(** ** The meta block as the unit of change *)

Lemma list_update_id {A} (f : A -> A) (l : list A) (i : nat) :
  (forall x, nth_error l i = Some x -> f x = x) -> list_update i f l = l.
Proof.
  revert i; induction l as [|a l IH]; intros i H; [destruct i; reflexivity|].
  destruct i; simpl.
  - rewrite (H a eq_refl). reflexivity.
  - rewrite IH; [reflexivity|]. intros x Hx. apply H. exact Hx.
Qed.

Lemma update_same_value (p : path) (t e : element) :
  subtree t p = Some e -> update p (fun _ => e) t = t.
Proof.
  revert t; induction p as [|i p IH]; intros t H; simpl in *.
  - congruence.
  - destruct t as [h n a c]. unfold set_children. cbn [el_ns el_name attrib children] in *.
    f_equal. apply list_update_id. intros x Hx. rewrite Hx in H. apply IH. exact H.
Qed.

Lemma with_element_twice (s : state) (m : path) (A B : element) :
  with_element (with_element s m A) m B = with_element s m B.
Proof.
  unfold with_element, set_root. cbn [root nsmap namespace objects].
  rewrite update_update. reflexivity.
Qed.

Lemma with_element_same (s : state) (m : path) (M : element) :
  subtree (root s) m = Some M -> with_element s m M = s.
Proof.
  intros H. unfold with_element. rewrite (update_same_value _ _ _ H).
  destruct s; reflexivity.
Qed.

Lemma subtree_with_element (s : state) (m : path) (M M' : element) :
  subtree (root s) m = Some M -> subtree (root (with_element s m M')) m = Some M'.
Proof.
  intros H. unfold with_element. cbn [root set_root].
  apply (subtree_update_same m (fun _ => M') _ _ H).
Qed.

Lemma modify_with_element (s : state) (m : path) (M : element) (f : element -> element) :
  subtree (root s) m = Some M ->
  set_root (update m f (root s)) s = with_element s m (f M).
Proof.
  intros H. unfold with_element. f_equal. apply (update_ext_at _ _ _ _ _ H). reflexivity.
Qed.

Lemma same_tag_refl (a : element) : same_tag a a.
Proof. split; reflexivity. Qed.

Lemma same_tag_trans (a b c : element) : same_tag a b -> same_tag b c -> same_tag a c.
Proof. intros [A B] [C D]. split; congruence. Qed.

Lemma same_tag_keeps (f : element -> element) (e : element) : keeps_tag f -> same_tag (f e) e.
Proof. intros K. exact (K e). Qed.

Lemma follow_with_element (s : state) (names : list string) (p m : path) (M M' : element) :
  follow (root s) p names = Some m -> subtree (root s) m = Some M -> same_tag M' M ->
  follow (root (with_element s m M')) p names = Some m.
Proof.
  intros F E [A B]. unfold with_element. cbn [root set_root].
  set (g := fun e : element => Element (el_ns e) (el_name e) (attrib M') (children M')).
  assert (G : update m (fun _ => M') (root s) = update m g (root s)).
  { apply (update_ext_at _ _ _ _ _ E). unfold g. rewrite <- A, <- B.
    destruct M'; reflexivity. }
  rewrite G. apply follow_update_target; [|exact F].
  intros e. split; reflexivity.
Qed.

(** Running the element API on children of the element at [m]. *)
Section Local.
Variables (s : state) (m : path) (M : element).
Hypothesis Em : subtree (root s) m = Some M.

Lemma local_child (i : nat) : subtree (root s) (m ++ [i]) = nth_error (children M) i.
Proof. apply subtree_snoc. exact Em. Qed.

Lemma local_getattr (n : string) :
  getattr m n s = match child_index M n with
                  | Some i => (Ok (m ++ [i]), s)
                  | None => (Raise AttributeError, s)
                  end.
Proof. apply getattr_run. exact Em. Qed.

Lemma local_attr_get (i : nat) (c : element) (k : string) :
  nth_error (children M) i = Some c ->
  attr_get (m ++ [i]) k s = (Ok (get c k), s).
Proof. intros H. apply attr_get_run. rewrite local_child. exact H. Qed.

Lemma local_modify (i : nat) (c : element) (f : element -> element) :
  nth_error (children M) i = Some c ->
  modify_at (m ++ [i]) f s = (Ok tt, with_element s m (update [i] f M)).
Proof.
  intros H. erewrite modify_at_run by (rewrite local_child; exact H).
  rewrite update_app. rewrite (modify_with_element _ _ _ _ Em). reflexivity.
Qed.

Lemma local_attr_set (i : nat) (c : element) (k v : string) :
  nth_error (children M) i = Some c ->
  attr_set (m ++ [i]) k v s = (Ok tt, with_element s m (update [i] (set_attr k v) M)).
Proof. apply local_modify. Qed.

Lemma local_insert_first (i : nat) (c x : element) :
  nth_error (children M) i = Some c ->
  insert_first (m ++ [i]) x s
  = (Ok tt, with_element s m (update [i] (fun e => set_children (x :: children e) e) M)).
Proof. apply local_modify. Qed.

Lemma local_addnext (i : nat) (c x : element) :
  nth_error (children M) i = Some c ->
  addnext (m ++ [i]) x s
  = (Ok tt, with_element s m (set_children (insert_at (S i) x (children M)) M)).
Proof.
  intros H. rewrite (addnext_run _ _ _ _ _ _ Em H).
  rewrite (modify_with_element _ _ _ _ Em). reflexivity.
Qed.
End Local.

(** ** Lifecycle and references *)

Lemma find_index_not_None {A} (p : A -> bool) (l : list A) :
  find_index p l <> None <-> exists x, In x l /\ p x = true.
Proof.
  split.
  - intros H. destruct (find_index p l) as [i|] eqn:E; [|congruence].
    destruct (find_index_Some _ _ _ E) as [x [Hx [Px _]]].
    exists x. split; [eapply nth_error_In; exact Hx | exact Px].
  - intros [x [Hx Px]] N. rewrite (find_index_None _ _ N x Hx) in Px. discriminate.
Qed.

Lemma In_insert_at {A} (l : list A) (k : nat) (x y : A) :
  In y (insert_at k x l) <-> y = x \/ In y l.
Proof.
  unfold insert_at. rewrite in_app_iff. simpl.
  assert (H : In y l <-> In y (firstn k l) \/ In y (skipn k l)).
  { rewrite <- in_app_iff, firstn_skipn. reflexivity. }
  rewrite H. intuition congruence.
Qed.

Lemma find_index_insert_other {A} (p : A -> bool) (l : list A) (k : nat) (x : A) :
  p x = false -> (find_index p (insert_at k x l) <> None <-> find_index p l <> None).
Proof.
  intros Px. rewrite !find_index_not_None. split; intros [y [Hy Py]]; exists y.
  - apply In_insert_at in Hy. destruct Hy as [->|Hy]; [congruence | auto].
  - split; [apply In_insert_at; auto | exact Py].
Qed.

Lemma nth_error_insert_before {A} (l : list A) (k i : nat) (x : A) :
  i < k -> k <= List.length l -> nth_error (insert_at k x l) i = nth_error l i.
Proof.
  intros Hi Hk. unfold insert_at. rewrite nth_error_app1.
  - rewrite nth_error_firstn. destruct (Nat.ltb_spec i k); [reflexivity | lia].
  - rewrite firstn_length_le; assumption.
Qed.

Lemma find_index_insert_after {A} (p : A -> bool) (l : list A) (k i : nat) (x : A) :
  find_index p l = Some i -> i < k ->
  find_index p (insert_at k x l) = Some i.
Proof.
  revert k i; induction l as [|a l IH]; intros k i H Hk; [discriminate|].
  destruct k; [lia|]. unfold insert_at in *. simpl in *.
  destruct (p a); [exact H|].
  destruct (find_index p l) as [j|] eqn:E; [|discriminate].
  inversion H; subst i. rewrite (IH k j eq_refl); [reflexivity | lia].
Qed.

Lemma find_index_insert_new {A} (p : A -> bool) (l : list A) (k : nat) (x : A) :
  find_index p l = None -> p x = true -> k <= List.length l ->
  find_index p (insert_at k x l) = Some k.
Proof.
  revert k; induction l as [|a l IH]; intros k H Px Hk.
  - destruct k; [|simpl in Hk; lia]. unfold insert_at. simpl. rewrite Px. reflexivity.
  - simpl in H. destruct (p a) eqn:Pa; [discriminate|].
    destruct (find_index p l) eqn:E; [discriminate|].
    destruct k; unfold insert_at in *; simpl.
    + rewrite Px. reflexivity.
    + rewrite Pa. rewrite IH; [reflexivity | reflexivity | exact Px | simpl in Hk; lia].
Qed.

Section Lifecycle.
Variable cls : doc_class.

Lemma meta_at_with_element (s : state) (m : path) (M M' : element) :
  meta_at cls s m M -> same_tag M' M -> meta_at cls (with_element s m M') m M'.
Proof.
  intros [F E] T. split.
  - apply (follow_with_element _ _ _ _ _ _ F E T).
  - apply (subtree_with_element _ _ _ _ E).
Qed.

Lemma meta_child_run (s : state) (m : path) (M : element) (n : string) :
  meta_at cls s m M ->
  chain (StructuredDocument.meta cls) [n] s
  = match child_index M n with
    | Some i => (Ok (m ++ [i]), s)
    | None => (Raise AttributeError, s)
    end.
Proof.
  intros [F E]. rewrite chain_meta_run.
  change [document_type cls; "meta"; n] with ([document_type cls; "meta"] ++ [n]).
  rewrite (follow_snoc _ _ n _ _ _ F E). destruct (child_index M n); reflexivity.
Qed.

Lemma meta_child_missing (s : state) (n : string) :
  follow (root s) [] [document_type cls; "meta"] = None ->
  chain (StructuredDocument.meta cls) [n] s = (Raise AttributeError, s).
Proof.
  intros F. rewrite chain_meta_run.
  change [document_type cls; "meta"; n] with ([document_type cls; "meta"] ++ [n]).
  rewrite follow_app, F. reflexivity.
Qed.

Lemma find_after_run (s : state) (m : path) (M : element) :
  meta_at cls s m M ->
  find_after cls s = match after_index M with
                 | Some i => (Ok (m ++ [i]), s)
                 | None => (Raise AttributeError, s)
                 end.
Proof.
  intros H. unfold find_after, except_AttributeError, after_index.
  rewrite (meta_child_run _ _ _ "publication" H).
  destruct (child_index M "publication"); [reflexivity|].
  cbn [is_AttributeError]. apply (meta_child_run _ _ _ "identification" H).
Qed.

Lemma find_after_missing (s : state) :
  follow (root s) [] [document_type cls; "meta"] = None ->
  find_after cls s = (Raise AttributeError, s).
Proof.
  intros F. unfold find_after, except_AttributeError.
  rewrite (meta_child_missing _ "publication" F). cbn [is_AttributeError].
  apply (meta_child_missing _ "identification" F).
Qed.

Lemma ensure_meta_child_run (s : state) (m : path) (M c : element)
      (name X : string) (ia : nat) :
  split "." name = ["meta"; X] ->
  meta_at cls s m M -> nth_error (children M) ia = Some c ->
  StructuredDocument.ensure_element cls name (m ++ [ia]) None s
  = match child_index M X with
    | Some i => (Ok (Node (m ++ [i])), s)
    | None =>
        (Ok (Node (m ++ [S ia])),
         with_element s m (set_children
                             (insert_at (S ia) (Element (Some (namespace s)) X [] [])
                                        (children M)) M))
    end.
Proof.
  intros Hs [F E] Hc.
  unfold StructuredDocument.ensure_element, AkomaNtosoDocument.ensure_element,
    AkomaNtosoDocument.get_element.
  rewrite Hs. unfold bind at 1. rewrite get_element_meta.
  change [document_type cls; "meta"; X] with ([document_type cls; "meta"] ++ [X]).
  rewrite (follow_snoc _ _ X _ _ _ F E).
  destruct (child_index M X) as [i|]; cbn [option_map]; [reflexivity|].
  unfold bind, AkomaNtosoDocument.make_element. cbn [last].
  rewrite (local_addnext _ _ _ E _ _ _ Hc). rewrite next_sibling_snoc. reflexivity.
Qed.

Lemma find_reference_run (s : state) (r : path) (R : element) (elem id : string) :
  subtree (root s) r = Some R ->
  StructuredDocument.find_reference r elem id s
  = (Ok (option_map (fun i => r ++ [i])
                    (find_index (is_reference (namespace s) elem id) (children R))), s).
Proof.
  intros E. unfold StructuredDocument.find_reference.
  rewrite (bind_Ok _ _ _ _ _ (node_at_Some _ _ _ E)). reflexivity.
Qed.

Lemma split_meta_references : split "." "meta.references" = ["meta"; "references"].
Proof. reflexivity. Qed.

Lemma split_meta_lifecycle : split "." "meta.lifecycle" = ["meta"; "lifecycle"].
Proof. reflexivity. Qed.

Lemma namespace_with_element (s : state) (m : path) (M' : element) :
  namespace (with_element s m M') = namespace s.
Proof. reflexivity. Qed.

Lemma keeps_tag_add_reference (ns elem name id href : string) :
  keeps_tag (add_reference ns elem name id href).
Proof.
  intros R. unfold add_reference.
  destruct (find_index _ (children R)); split; reflexivity.
Qed.

(** [_ensure_reference] when the lifecycle block is in place. *)
Lemma ensure_reference_run (rec : M path) (s : state) (m : path) (M L : element) (i : nat)
      (elem name id href : string) :
  meta_at cls s m M -> nth_error (children M) i = Some L ->
  rec s = (Ok (m ++ [i]), s) ->
  exists r,
    StructuredDocument._ensure_reference_with cls rec elem name id href s
    = (Ok r, with_element s m (with_reference (namespace s) elem name id href i M)).
Proof.
  intros HM HL Hrec. pose proof HM as [F E].
  unfold StructuredDocument._ensure_reference_with.
  unfold bind at 1. rewrite Hrec. unfold bind at 1.
  rewrite (ensure_meta_child_run _ _ _ _ _ _ _ split_meta_references HM HL).
  unfold with_reference.
  destruct (child_index M "references") as [ir|] eqn:Cr.
  - destruct (find_index_Some _ _ _ Cr) as [R [HR _]].
    cbn [as_element]. unfold bind at 1. cbn [ret]. unfold bind at 1.
    erewrite find_reference_run by (rewrite (local_child _ _ _ E); exact HR).
    destruct (find_index (is_reference (namespace s) elem id) (children R)) as [j|] eqn:Fj;
      cbn [option_map].
    + exists ((m ++ [ir]) ++ [j]). cbn [ret].
      assert (U : update [ir] (add_reference (namespace s) elem name id href) M = M).
      { cbn [update]. rewrite list_update_id; [destruct M; reflexivity|].
        intros x Hx. assert (x = R) by congruence. subst x.
        unfold add_reference. rewrite Fj. reflexivity. }
      rewrite U, (with_element_same _ _ _ E). reflexivity.
    + exists ((m ++ [ir]) ++ [0]).
      unfold StructuredDocument.make_element, AkomaNtosoDocument.make_element.
      unfold bind at 1. unfold bind at 1.
      rewrite (local_insert_first _ _ _ E _ _ _ HR). unfold ret. f_equal. f_equal.
      cbn [update]. f_equal. apply list_update_ext. intros x Hx.
      assert (x = R) by congruence. subst x.
      unfold add_reference. rewrite Fj. reflexivity.
  - cbn [as_element]. unfold bind at 1. cbn [ret]. unfold bind at 1.
    set (M1 := set_children
                 (insert_at (S i) (Element (Some (namespace s)) "references" [] [])
                            (children M)) M).
    assert (Bound : S i <= List.length (children M)).
    { apply Nat.le_succ_l. apply nth_error_Some. congruence. }
    assert (H1 : nth_error (children M1) (S i)
                 = Some (Element (Some (namespace s)) "references" [] [])).
    { unfold M1. cbn [children set_children]. destruct M as [h n a c].
      apply nth_error_insert_at. exact Bound. }
    assert (E1 : subtree (root (with_element s m M1)) m = Some M1)
      by apply (subtree_with_element _ _ _ _ E).
    erewrite find_reference_run by (rewrite (local_child _ _ _ E1); exact H1).
    cbn [children find_index option_map].
    exists ((m ++ [S i]) ++ [0]).
    unfold StructuredDocument.make_element, AkomaNtosoDocument.make_element.
    unfold bind at 1. unfold bind at 1.
    rewrite (local_insert_first _ _ _ E1 _ _ _ H1). rewrite with_element_twice.
    unfold ret. f_equal. f_equal.
    unfold M1, add_reference. cbn [children find_index].
    destruct M as [h n a c]. cbn [update set_children children el_ns el_name attrib].
    unfold set_children. cbn [el_ns el_name attrib children].
    rewrite (list_update_insert_at _ _ _ _ Bound). reflexivity.
Qed.

Lemma with_reference_same_tag (ns elem name id href : string) (i : nat) (M : element) :
  same_tag (with_reference ns elem name id href i M) M.
Proof.
  unfold with_reference. destruct (child_index M "references"); split; reflexivity.
Qed.

Lemma get_add_reference (ns elem name id href k : string) (R : element) :
  get (add_reference ns elem name id href R) k = get R k.
Proof.
  unfold add_reference. destruct (find_index _ (children R)); [reflexivity|].
  destruct R; reflexivity.
Qed.

Lemma with_reference_sourced (ns elem name id href : string) (i : nat) (M : element) :
  sourced M i -> sourced (with_reference ns elem name id href i M) i.
Proof.
  intros [C [L [HL T]]]. unfold with_reference.
  destruct (child_index M "references") as [ir|] eqn:Cr.
  - split.
    + rewrite child_index_update_child; [exact C | apply keeps_tag_add_reference].
    + destruct M as [h n a c]. cbn [update set_children children] in *.
      rewrite nth_error_list_update, HL.
      destruct (Nat.eqb ir i); cbn [option_map]; eexists; (split; [reflexivity|]);
        [rewrite get_add_reference|]; exact T.
  - assert (Bound : S i <= List.length (children M)).
    { apply Nat.le_succ_l. apply nth_error_Some. congruence. }
    destruct M as [h n a c]. unfold sourced, child_index in *.
    cbn [set_children children el_ns] in *. split.
    + apply find_index_insert_after; [exact C | lia].
    + exists L. split; [|exact T].
      rewrite nth_error_insert_before; [exact HL | lia | exact Bound].
Qed.

Lemma after_index_not_None (M : element) :
  after_index M <> None <->
  (child_index M "publication" <> None \/ child_index M "identification" <> None).
Proof.
  unfold after_index. destruct (child_index M "publication"); split; intros H.
  - left. discriminate.
  - discriminate.
  - right. exact H.
  - destruct H as [H|H]; [congruence | exact H].
Qed.

(** Putting in a child that is named neither publication nor identification
    keeps the place of a new lifecycle block defined. *)
Lemma after_index_insert (M x : element) (k : nat) :
  String.eqb (el_name x) "publication" = false ->
  String.eqb (el_name x) "identification" = false ->
  after_index M <> None ->
  after_index (set_children (insert_at k x (children M)) M) <> None.
Proof.
  intros Np Ni. rewrite !after_index_not_None. unfold child_index.
  destruct M as [h n a c]. cbn [set_children children el_ns].
  rewrite !find_index_insert_other; [tauto | |];
    unfold tag_is; [rewrite Ni | rewrite Np]; apply andb_false_r.
Qed.

Lemma after_index_update_child (M : element) (i : nat) (f : element -> element) :
  keeps_tag f -> after_index (update [i] f M) = after_index M.
Proof.
  intros K. unfold after_index. rewrite !child_index_update_child by exact K. reflexivity.
Qed.

Lemma with_reference_after (ns elem name id href : string) (i : nat) (M : element) :
  after_index M <> None -> after_index (with_reference ns elem name id href i M) <> None.
Proof.
  intros H. unfold with_reference. destruct (child_index M "references").
  - rewrite after_index_update_child; [exact H | apply keeps_tag_add_reference].
  - apply after_index_insert; [| | exact H];
      destruct (keeps_tag_add_reference ns elem name id href
                  (Element (Some ns) "references" [] [])) as [_ ->]; reflexivity.
Qed.

Lemma ensure_lifecycle_unfold (depth : nat) :
  StructuredDocument._ensure_lifecycle cls (S depth)
  = (after <- find_after cls ;;
     node <- StructuredDocument.ensure_element cls "meta.lifecycle" after None ;;
     node <- as_element node ;;
     lifecycle_rest cls depth node)%py.
Proof. reflexivity. Qed.

Lemma lifecycle_rest_sourced (d : nat) (s : state) (m : path) (M L : element) (i : nat) :
  meta_at cls s m M -> nth_error (children M) i = Some L ->
  truthy_opt (get L "source") = true ->
  lifecycle_rest cls d (m ++ [i]) s = (Ok (m ++ [i]), s).
Proof.
  intros [F E] HL T. unfold lifecycle_rest. unfold bind at 1.
  rewrite (local_attr_get _ _ _ E _ _ _ HL). rewrite T. reflexivity.
Qed.

(** A second call finds the block and its source, and does nothing. *)
Lemma lifecycle_noop (d : nat) (s : state) (m : path) (M : element) (i : nat) :
  meta_at cls s m M -> after_index M <> None -> sourced M i ->
  StructuredDocument._ensure_lifecycle cls (S d) s = (Ok (m ++ [i]), s).
Proof.
  intros HM HA [C [L [HL T]]]. rewrite ensure_lifecycle_unfold.
  unfold bind at 1. rewrite (find_after_run _ _ _ HM).
  destruct (after_index M) as [ia|] eqn:A; [|congruence].
  assert (exists c, nth_error (children M) ia = Some c) as [c Hc].
  { unfold after_index in A.
    destruct (child_index M "publication") as [p|] eqn:P.
    - inversion A; subst. destruct (find_index_Some _ _ _ P) as [x [Hx _]]. eauto.
    - destruct (find_index_Some _ _ _ A) as [x [Hx _]]. eauto. }
  unfold bind at 1.
  rewrite (ensure_meta_child_run _ _ _ _ _ _ _ split_meta_lifecycle HM Hc), C.
  unfold bind at 1. cbn [as_element ret].
  apply (lifecycle_rest_sourced d _ _ _ _ _ HM HL T).
Qed.

Lemma sourced_set_source (M L : element) (i : nat) :
  child_index M "lifecycle" = Some i -> nth_error (children M) i = Some L ->
  sourced (update [i] set_source M) i.
Proof.
  intros C HL. split.
  - rewrite child_index_update_child; [exact C | apply keeps_tag_set_attr].
  - exists (set_source L). split.
    + destruct M as [h n a c]. cbn [update set_children children] in *.
      rewrite nth_error_list_update, Nat.eqb_refl, HL. reflexivity.
    + unfold set_source. rewrite get_set_attr. reflexivity.
Qed.

Lemma lifecycle_rest_unsourced (d : nat) (s : state) (m : path) (M L : element) (i : nat) :
  meta_at cls s m M -> after_index M <> None ->
  child_index M "lifecycle" = Some i -> nth_error (children M) i = Some L ->
  truthy_opt (get L "source") = false ->
  lifecycle_rest cls d (m ++ [i]) s
  = match d with
    | 0 => (Raise RecursionError, with_element s m (update [i] set_source M))
    | S _ => (Ok (m ++ [i]),
              with_element s m (cobalt_reference (namespace s) i (update [i] set_source M)))
    end.
Proof.
  intros HM HA C HL T. pose proof HM as [F E]. unfold lifecycle_rest. unfold bind at 1.
  rewrite (local_attr_get _ _ _ E _ _ _ HL). rewrite T. cbn [negb].
  unfold bind at 1. unfold bind at 1.
  change ("#" +++ nth 1 source "") with "#cobalt".
  rewrite (local_attr_set _ _ _ E _ _ _ _ HL). fold set_source.
  set (M1 := update [i] set_source M).
  assert (HM1 : meta_at cls (with_element s m M1) m M1).
  { apply (meta_at_with_element _ _ _ _ HM). apply same_tag_keeps.
    apply (keeps_tag_update [i]), keeps_tag_set_attr. }
  assert (S1 : sourced M1 i) by apply (sourced_set_source _ _ _ C HL).
  assert (A1 : after_index M1 <> None).
  { unfold M1. rewrite after_index_update_child; [exact HA | apply keeps_tag_set_attr]. }
  destruct d as [|d].
  - unfold bind at 1. unfold StructuredDocument._ensure_reference_with. unfold bind at 1.
    reflexivity.
  - destruct S1 as [C1 [L1 [HL1 T1]]].
    destruct (ensure_reference_run (StructuredDocument._ensure_lifecycle cls (S d))
                (with_element s m M1) m M1 L1 i
                "TLCOrganization" (nth 0 source "") (nth 1 source "") (nth 2 source "")
                HM1 HL1) as [r Hr].
    { apply (lifecycle_noop d _ _ _ _ HM1 A1). split; [exact C1 | eauto]. }
    unfold bind at 1. rewrite Hr. rewrite with_element_twice. reflexivity.
Qed.

Lemma after_index_child (M : element) (ia : nat) :
  after_index M = Some ia -> exists c, nth_error (children M) ia = Some c.
Proof.
  unfold after_index. intros A.
  destruct (child_index M "publication") as [p|] eqn:P.
  - inversion A; subst. destruct (find_index_Some _ _ _ P) as [x [Hx _]]. eauto.
  - destruct (find_index_Some _ _ _ A) as [x [Hx _]]. eauto.
Qed.

Lemma lifecycle_inserted_child (ns : string) (ia : nat) (M : element) :
  after_index M = Some ia ->
  nth_error (children (lifecycle_inserted ns ia M)) (S ia) = Some (new_lifecycle ns).
Proof.
  intros A. destruct (after_index_child _ _ A) as [c Hc].
  unfold lifecycle_inserted. destruct M as [h n a cs]. cbn [set_children children] in *.
  apply nth_error_insert_at. apply Nat.le_succ_l. apply nth_error_Some. congruence.
Qed.

Lemma lifecycle_inserted_after (ns : string) (ia : nat) (M : element) :
  after_index M <> None -> after_index (lifecycle_inserted ns ia M) <> None.
Proof. apply after_index_insert; reflexivity. Qed.

(** The start of [_ensure_lifecycle] when the meta block has no lifecycle
    child that a lookup finds. *)
Lemma lifecycle_create_run (d : nat) (s : state) (m : path) (M : element) (ia : nat) :
  meta_at cls s m M -> after_index M = Some ia -> child_index M "lifecycle" = None ->
  StructuredDocument._ensure_lifecycle cls (S d) s
  = lifecycle_rest cls d (m ++ [S ia])
                   (with_element s m (lifecycle_inserted (namespace s) ia M)).
Proof.
  intros HM A C. destruct (after_index_child _ _ A) as [c Hc].
  rewrite ensure_lifecycle_unfold. unfold bind at 1.
  rewrite (find_after_run _ _ _ HM), A. unfold bind at 1.
  rewrite (ensure_meta_child_run _ _ _ _ _ _ _ split_meta_lifecycle HM Hc), C.
  reflexivity.
Qed.

Lemma bind_not_Ok {A B} (c : M A) (k : A -> M B) (s : state) :
  (forall a s', c s <> (Ok a, s')) -> forall b s', bind c k s <> (Ok b, s').
Proof.
  intros H b s'. unfold bind. destruct (c s) as [[a|e] s0] eqn:E.
  - exfalso. apply (H a s0). reflexivity.
  - discriminate.
Qed.

(** When the meta block is not in the namespace of the document, the block
    that is created is never found again, and the calls nest until Python gives
    up. *)
Lemma lifecycle_mismatch (d : nat) :
  forall (s : state) (m : path) (M : element),
    meta_at cls s m M -> child_index M "lifecycle" = None ->
    opt_string_eqb (Some (namespace s)) (el_ns M) = false ->
    forall node s1, StructuredDocument._ensure_lifecycle cls d s <> (Ok node, s1).
Proof.
  induction d as [|d IH]; intros s m M HM C N node s1; [discriminate|].
  pose proof HM as [F E].
  destruct (after_index M) as [ia|] eqn:A.
  - rewrite (lifecycle_create_run d _ _ _ _ HM A C).
    set (M0 := lifecycle_inserted (namespace s) ia M).
    assert (HM0 : meta_at cls (with_element s m M0) m M0).
    { apply (meta_at_with_element _ _ _ _ HM). split; reflexivity. }
    pose proof HM0 as [F0 E0].
    pose proof (lifecycle_inserted_child (namespace s) ia M A) as H0. fold M0 in H0.
    unfold lifecycle_rest. unfold bind at 1.
    rewrite (local_attr_get _ _ _ E0 _ _ _ H0). cbn [get attrib new_lifecycle assoc_get truthy_opt negb].
    apply bind_not_Ok. intros a s'. unfold bind at 1.
    rewrite (local_attr_set _ _ _ E0 _ _ _ _ H0). rewrite with_element_twice.
    apply bind_not_Ok. intros a0 s3.
    unfold StructuredDocument._ensure_reference_with. apply bind_not_Ok.
    set (M1 := update [S ia] (set_attr "source" ("#" +++ nth 1 source "")) M0).
    apply (IH _ m M1).
    + apply (meta_at_with_element _ _ _ _ HM). split; reflexivity.
    + unfold M1. rewrite child_index_update_child by apply keeps_tag_set_attr.
      unfold M0, lifecycle_inserted, child_index. destruct M as [h n a1 cs].
      cbn [set_children children el_ns] in *.
      destruct (find_index (tag_is h "lifecycle")
                           (insert_at (S ia) (new_lifecycle (namespace s)) cs)) eqn:Z;
        [|reflexivity].
      exfalso. assert (Z' : find_index (tag_is h "lifecycle")
                              (insert_at (S ia) (new_lifecycle (namespace s)) cs) <> None)
        by congruence.
      apply find_index_insert_other in Z'; [apply Z'; exact C|].
      unfold tag_is. cbn [new_lifecycle el_ns el_name]. rewrite N. reflexivity.
    + exact N.
  - rewrite ensure_lifecycle_unfold. apply bind_not_Ok. intros a s'.
    rewrite (find_after_run _ _ _ HM), A. discriminate.
Qed.

Lemma opt_string_eqb_eq (a b : option string) : opt_string_eqb a b = true <-> a = b.
Proof.
  destruct a as [x|], b as [y|]; simpl; split; intros H;
    try discriminate; try reflexivity.
  - apply String.eqb_eq in H. congruence.
  - inversion H. apply String.eqb_refl.
Qed.

Lemma lifecycle_inserted_index (ns : string) (ia : nat) (M : element) :
  after_index M = Some ia -> child_index M "lifecycle" = None -> el_ns M = Some ns ->
  child_index (lifecycle_inserted ns ia M) "lifecycle" = Some (S ia).
Proof.
  intros A C N. destruct (after_index_child _ _ A) as [c Hc].
  unfold lifecycle_inserted, child_index in *. destruct M as [h n a cs].
  cbn [set_children children el_ns] in *. subst h.
  apply find_index_insert_new; [exact C | apply tag_is_same|].
  apply Nat.le_succ_l. apply nth_error_Some. congruence.
Qed.

Lemma lifecycle_outcome (d : nat) (s : state) (node : path) (s1 : state) :
  StructuredDocument._ensure_lifecycle cls d s = (Ok node, s1) ->
  exists m M ia,
    meta_at cls s m M /\ after_index M = Some ia /\
    (lifecycle_found s m M node s1 \/ lifecycle_marked s m M node s1
     \/ lifecycle_created s m M ia node s1).
Proof.
  intros H. destruct d as [|d]; [discriminate|].
  destruct (follow (root s) [] [document_type cls; "meta"]) as [m|] eqn:F.
  2:{ rewrite ensure_lifecycle_unfold in H. unfold bind at 1 in H.
      rewrite (find_after_missing _ F) in H. discriminate. }
  destruct (follow_valid _ _ _ _ F (root_valid s)) as [M E].
  assert (HM : meta_at cls s m M) by (split; assumption).
  destruct (after_index M) as [ia|] eqn:A.
  2:{ rewrite ensure_lifecycle_unfold in H. unfold bind at 1 in H.
      rewrite (find_after_run _ _ _ HM), A in H. discriminate. }
  assert (HA : after_index M <> None) by congruence.
  exists m, M, ia. split; [exact HM|]. split; [exact A|].
  destruct (after_index_child _ _ A) as [c Hc].
  destruct (child_index M "lifecycle") as [i|] eqn:C.
  - destruct (find_index_Some _ _ _ C) as [L [HL _]].
    rewrite ensure_lifecycle_unfold in H. unfold bind at 1 in H.
    rewrite (find_after_run _ _ _ HM), A in H. unfold bind at 1 in H.
    rewrite (ensure_meta_child_run _ _ _ _ _ _ _ split_meta_lifecycle HM Hc), C in H.
    unfold bind at 1 in H. cbn [as_element ret] in H.
    destruct (truthy_opt (get L "source")) eqn:T.
    + rewrite (lifecycle_rest_sourced d _ _ _ _ _ HM HL T) in H. inversion H; subst.
      left. exists i. split; [|split; reflexivity]. split; [exact C | eauto].
    + rewrite (lifecycle_rest_unsourced d _ _ _ _ _ HM HA C HL T) in H.
      destruct d; [discriminate|]. inversion H; subst.
      right. left. exists i, L. repeat split; assumption.
  - rewrite (lifecycle_create_run d _ _ _ _ HM A C) in H.
    destruct (opt_string_eqb (Some (namespace s)) (el_ns M)) eqn:N.
    + apply opt_string_eqb_eq in N. symmetry in N.
      set (M0 := lifecycle_inserted (namespace s) ia M) in *.
      assert (HM0 : meta_at cls (with_element s m M0) m M0).
      { apply (meta_at_with_element _ _ _ _ HM). split; reflexivity. }
      pose proof (lifecycle_inserted_child (namespace s) ia M A) as H0. fold M0 in H0.
      rewrite (lifecycle_rest_unsourced d _ _ _ _ _ HM0
                 (lifecycle_inserted_after _ _ _ HA)
                 (lifecycle_inserted_index _ _ _ A C N) H0 eq_refl) in H.
      destruct d; [discriminate|]. rewrite with_element_twice in H.
      inversion H; subst. right. right. repeat split; assumption.
    + exfalso.
      apply (lifecycle_mismatch (S d) s m M HM C N node s1).
      rewrite (lifecycle_create_run d _ _ _ _ HM A C). exact H.
Qed.

(** However it returned, the call leaves a lifecycle block that has a source
    and that a lookup finds. *)
Lemma lifecycle_settled (d : nat) (s : state) (node : path) (s1 : state) :
  StructuredDocument._ensure_lifecycle cls d s = (Ok node, s1) ->
  exists m M1 i,
    meta_at cls s1 m M1 /\ node = m ++ [i] /\ sourced M1 i /\ after_index M1 <> None.
Proof.
  intros H. destruct (lifecycle_outcome _ _ _ _ H) as [m [M [ia [HM [A Cases]]]]].
  assert (HA : after_index M <> None) by congruence.
  destruct Cases as [[i [S0 [-> ->]]] | [[i [L [C [HL [T [-> ->]]]]]] | [C [N [-> ->]]]]].
  - exists m, M, i. split; [exact HM|]. split; [reflexivity|]. split; assumption.
  - exists m, (cobalt_reference (namespace s) i (update [i] set_source M)), i.
    split; [|split; [reflexivity|split]].
    + apply (meta_at_with_element _ _ _ _ HM).
      apply (same_tag_trans _ (update [i] set_source M)).
      * apply with_reference_same_tag.
      * split; reflexivity.
    + apply with_reference_sourced. apply (sourced_set_source _ _ _ C HL).
    + apply with_reference_after. rewrite after_index_update_child; [exact HA|].
      apply keeps_tag_set_attr.
  - set (M0 := lifecycle_inserted (namespace s) ia M).
    exists m, (cobalt_reference (namespace s) (S ia) (update [S ia] set_source M0)), (S ia).
    split; [|split; [reflexivity|split]].
    + apply (meta_at_with_element _ _ _ _ HM).
      apply (same_tag_trans _ (update [S ia] set_source M0)).
      * apply with_reference_same_tag.
      * split; reflexivity.
    + apply with_reference_sourced.
      apply (sourced_set_source _ _ _ (lifecycle_inserted_index _ _ _ A C N)
                                (lifecycle_inserted_child _ _ _ A)).
    + apply with_reference_after. rewrite after_index_update_child.
      * apply lifecycle_inserted_after. exact HA.
      * apply keeps_tag_set_attr.
Qed.
End Lifecycle.

(** ** Counting blocks *)

Lemma filter_insert_at {A} (p : A -> bool) (l : list A) (k : nat) (x : A) :
  List.length (filter p (insert_at k x l))
  = (if p x then 1 else 0) + List.length (filter p l).
Proof.
  unfold insert_at. rewrite <- (firstn_skipn k l) at 3.
  rewrite !filter_app, !length_app. simpl. destruct (p x); simpl; lia.
Qed.

Lemma filter_list_update {A} (p : A -> bool) (f : A -> A) (l : list A) (i : nat) :
  (forall x, p (f x) = p x) ->
  List.length (filter p (list_update i f l)) = List.length (filter p l).
Proof.
  intros H. revert i; induction l as [|a l IH]; intros i; [destruct i; reflexivity|].
  destruct i; simpl.
  - rewrite H. destruct (p a); reflexivity.
  - destruct (p a); simpl; rewrite IH; reflexivity.
Qed.

Lemma find_index_None_filter {A} (p : A -> bool) (l : list A) :
  find_index p l = None -> filter p l = [].
Proof.
  induction l as [|a l IH]; intros H; [reflexivity|]. simpl in *.
  destruct (p a); [discriminate|]. apply IH.
  destruct (find_index p l); [discriminate | reflexivity].
Qed.

Lemma find_index_Some_filter {A} (p : A -> bool) (l : list A) (i : nat) :
  find_index p l = Some i -> 1 <= List.length (filter p l).
Proof.
  revert i; induction l as [|a l IH]; intros i H; [discriminate|]. simpl in *.
  destruct (p a); simpl; [lia|].
  destruct (find_index p l) as [j|]; [|discriminate]. apply (IH j eq_refl).
Qed.

Lemma find_index_insert_shift {A} (p : A -> bool) (l : list A) (k : nat) (x : A) :
  p x = false ->
  find_index p (insert_at k x l) = option_map (shift k) (find_index p l).
Proof.
  intros Px. revert k; induction l as [|a l IH]; intros k.
  - unfold insert_at. destruct k; simpl; rewrite Px; reflexivity.
  - destruct k; unfold insert_at in *; simpl.
    + rewrite Px. destruct (p a); [reflexivity|].
      destruct (find_index p l); reflexivity.
    + destruct (p a); [reflexivity|]. rewrite IH.
      destruct (find_index p l) as [j|]; [|reflexivity]. simpl. unfold shift.
      change (Nat.ltb (S j) (S k)) with (Nat.ltb j k).
      destruct (Nat.ltb j k); reflexivity.
Qed.

Lemma nth_error_insert_shift {A} (l : list A) (k j : nat) (x : A) :
  k <= List.length l -> nth_error (insert_at k x l) (shift k j) = nth_error l j.
Proof.
  intros Hk. unfold shift. destruct (Nat.ltb_spec j k).
  - apply nth_error_insert_before; assumption.
  - unfold insert_at. rewrite nth_error_app2; rewrite firstn_length_le by exact Hk; [|lia].
    replace (S j - k) with (S (j - k)) by lia. simpl.
    rewrite nth_error_skipn. f_equal. lia.
Qed.

Lemma shift_neq (k j : nat) : shift k j <> k.
Proof. unfold shift. destruct (Nat.ltb_spec j k); lia. Qed.

Lemma length_insert_at {A} (l : list A) (k : nat) (x : A) :
  List.length (insert_at k x l) = S (List.length l).
Proof.
  unfold insert_at. rewrite length_app. simpl.
  rewrite <- (firstn_skipn k l) at 3. rewrite length_app. lia.
Qed.

Lemma length_list_update {A} (f : A -> A) (l : list A) (i : nat) :
  List.length (list_update i f l) = List.length l.
Proof.
  revert i; induction l as [|a l IH]; intros i; [destruct i; reflexivity|].
  destruct i; simpl; [reflexivity|]. rewrite IH. reflexivity.
Qed.

Lemma is_cobalt_reference_new (ns : string) :
  is_cobalt_reference ns
    (new_reference ns "TLCOrganization" "cobalt" "cobalt" "https://github.com/laws-africa/cobalt")
  = true.
Proof.
  unfold is_cobalt_reference, is_reference, new_reference.
  rewrite !tag_is_keeps by apply keeps_tag_set_attr. rewrite tag_is_same. reflexivity.
Qed.

Lemma count_add_reference (ns : string) (R : element) :
  count_children (is_cobalt_reference ns)
    (add_reference ns "TLCOrganization" "cobalt" "cobalt"
                   "https://github.com/laws-africa/cobalt" R)
  = Nat.max 1 (count_children (is_cobalt_reference ns) R).
Proof.
  unfold add_reference, count_children. fold (is_cobalt_reference ns).
  destruct (find_index (is_cobalt_reference ns) (children R)) as [j|] eqn:F.
  - pose proof (find_index_Some_filter _ _ _ F). lia.
  - destruct R as [h n a c]. cbn [set_children children filter] in *.
    rewrite is_cobalt_reference_new, (find_index_None_filter _ _ F). reflexivity.
Qed.

(** ** The meta block after a lifecycle block has been created *)

Section Created.
Variables (ns : string) (ia : nat) (n : string) (a : list (string * string)) (cs : list element).
Let M : element := Element (Some ns) n a cs.
Hypothesis A : after_index M = Some ia.
Hypothesis C : child_index M "lifecycle" = None.

Let base : element := update [S ia] set_source (lifecycle_inserted ns ia M).
Let M1 : element := cobalt_reference ns (S ia) base.

Lemma created_bound : S ia <= List.length cs.
Proof.
  destruct (after_index_child _ _ A) as [c Hc]. cbn [M children] in Hc.
  apply Nat.le_succ_l. apply nth_error_Some. congruence.
Qed.

Lemma created_base_children :
  children base = list_update (S ia) set_source (insert_at (S ia) (new_lifecycle ns) cs).
Proof. reflexivity. Qed.

Lemma created_base_find (p : element -> bool) :
  (forall x, p (set_source x) = p x) -> p (new_lifecycle ns) = false ->
  find_index p (children base) = option_map (shift (S ia)) (find_index p cs).
Proof.
  intros K N. rewrite created_base_children, find_index_list_update by exact K.
  apply find_index_insert_shift. exact N.
Qed.

Lemma created_base_nth (j : nat) :
  nth_error (children base) (shift (S ia) j) = nth_error cs j.
Proof.
  rewrite created_base_children, nth_error_list_update.
  destruct (Nat.eqb_spec (S ia) (shift (S ia) j)) as [e|_].
  - exfalso. apply (shift_neq (S ia) j). congruence.
  - apply nth_error_insert_shift. exact created_bound.
Qed.

Lemma created_base_lifecycle :
  nth_error (children base) (S ia) = Some (set_source (new_lifecycle ns)).
Proof.
  rewrite created_base_children, nth_error_list_update, Nat.eqb_refl.
  rewrite nth_error_insert_at by exact created_bound. reflexivity.
Qed.

Lemma created_references :
  exists R1, references_of M1 = Some R1
             /\ count_children (is_cobalt_reference ns) R1
                = Nat.max 1 (cobalt_references ns M).
Proof.
  unfold references_of, cobalt_references, references_of, M1, cobalt_reference, with_reference.
  assert (F : child_index base "references"
              = option_map (shift (S ia)) (child_index M "references")).
  { apply created_base_find; [intros x; apply tag_is_keeps, keeps_tag_set_attr|].
    unfold new_lifecycle. apply tag_is_other. reflexivity. }
  rewrite F. destruct (child_index M "references") as [j|] eqn:Cr; cbn [option_map].
  - destruct (find_index_Some _ _ _ Cr) as [R0 [HR0 _]]. cbn [M children] in HR0.
    rewrite child_index_update_child by apply keeps_tag_add_reference.
    rewrite F. cbn [option_map].
    exists (add_reference ns "TLCOrganization" "cobalt" "cobalt"
                          "https://github.com/laws-africa/cobalt" R0).
    split.
    + change (children (update [shift (S ia) j] ?f base))
        with (list_update (shift (S ia) j) f (children base)).
      rewrite nth_error_list_update, Nat.eqb_refl, created_base_nth, HR0. reflexivity.
    + cbn [M children]. rewrite HR0. apply count_add_reference.
  - set (X := add_reference ns "TLCOrganization" "cobalt" "cobalt"
                            "https://github.com/laws-africa/cobalt"
                            (Element (Some ns) "references" [] [])).
    assert (Len : S (S ia) <= List.length (children base)).
    { rewrite created_base_children, length_list_update, length_insert_at.
      pose proof created_bound. lia. }
    assert (G : child_index (set_children (insert_at (S (S ia)) X (children base)) base)
                            "references" = Some (S (S ia))).
    { unfold child_index. cbn [set_children children el_ns base update lifecycle_inserted M].
      apply find_index_insert_new.
      - fold base. apply F.
      - unfold X. rewrite tag_is_keeps by apply keeps_tag_add_reference. apply tag_is_same.
      - exact Len. }
    rewrite G. exists X. split.
    + cbn [set_children children]. destruct base as [h m b c] eqn:B.
      cbn [children] in *. apply nth_error_insert_at. exact Len.
    + unfold X. rewrite count_add_reference. reflexivity.
Qed.

(** The children of the final meta block come from those of the block with
    the lifecycle inserted by an update of one child that keeps tags, or by
    the insertion of a references block after the lifecycle block. *)
Lemma created_children :
  (exists ir, ir <> S ia /\
      children M1 = list_update ir (add_reference ns "TLCOrganization" "cobalt" "cobalt"
                                      "https://github.com/laws-africa/cobalt")
                                (children base))
  \/ (exists X, el_name X = "references" /\
         children M1 = insert_at (S (S ia)) X (children base)).
Proof.
  unfold M1, cobalt_reference, with_reference.
  assert (F : child_index base "references"
              = option_map (shift (S ia)) (child_index M "references")).
  { apply created_base_find; [intros x; apply tag_is_keeps, keeps_tag_set_attr|].
    unfold new_lifecycle. apply tag_is_other. reflexivity. }
  rewrite F. destruct (child_index M "references") as [j|]; cbn [option_map].
  - left. exists (shift (S ia) j). split; [apply shift_neq | reflexivity].
  - right. eexists. split; [|reflexivity].
    destruct (keeps_tag_add_reference ns "TLCOrganization" "cobalt" "cobalt"
                "https://github.com/laws-africa/cobalt"
                (Element (Some ns) "references" [] [])) as [_ ->]. reflexivity.
Qed.

Lemma created_lifecycle_child :
  nth_error (children M1) (S ia)
  = Some (Element (Some ns) "lifecycle" [("source", "#cobalt")] []).
Proof.
  destruct created_children as [[ir [N ->]] | [X [_ ->]]].
  - rewrite nth_error_list_update.
    destruct (Nat.eqb_spec ir (S ia)); [contradiction|]. apply created_base_lifecycle.
  - rewrite nth_error_insert_before; [apply created_base_lifecycle | lia|].
    rewrite created_base_children, length_list_update, length_insert_at.
    pose proof created_bound. lia.
Qed.

Lemma created_find (p : element -> bool) (j : nat) :
  (forall f x, keeps_tag f -> p (f x) = p x) ->
  (forall x, el_name x = "lifecycle" \/ el_name x = "references" -> p x = false) ->
  find_index p cs = Some j -> j <= ia -> find_index p (children M1) = Some j.
Proof.
  intros K N F Hj.
  assert (B : find_index p (children base) = Some j).
  { rewrite created_base_find.
    - rewrite F. cbn [option_map]. unfold shift.
      destruct (Nat.ltb_spec j (S ia)); [reflexivity | lia].
    - intros x. apply K, keeps_tag_set_attr.
    - apply N. left. reflexivity. }
  destruct created_children as [[ir [_ ->]] | [X [HX ->]]].
  - rewrite find_index_list_update; [exact B|].
    intros x. apply K, keeps_tag_add_reference.
  - apply find_index_insert_after; [exact B | lia].
Qed.

Lemma created_find_None (p : element -> bool) :
  (forall f x, keeps_tag f -> p (f x) = p x) ->
  (forall x, el_name x = "lifecycle" \/ el_name x = "references" -> p x = false) ->
  find_index p cs = None -> find_index p (children M1) = None.
Proof.
  intros K N F.
  assert (B : find_index p (children base) = None).
  { rewrite created_base_find.
    - rewrite F. reflexivity.
    - intros x. apply K, keeps_tag_set_attr.
    - apply N. left. reflexivity. }
  destruct created_children as [[ir [_ ->]] | [X [HX ->]]].
  - rewrite find_index_list_update; [exact B|].
    intros x. apply K, keeps_tag_add_reference.
  - rewrite find_index_insert_shift, B; [reflexivity|]. apply N. right. exact HX.
Qed.

Lemma tag_is_name_false (h : option string) (x y : string) (e : element) :
  el_name e = x -> String.eqb x y = false -> tag_is h y e = false.
Proof. intros E N. unfold tag_is. rewrite E, N. apply andb_false_r. Qed.

Lemma created_after : after_index M1 = Some ia.
Proof.
  assert (P : forall y, String.eqb "lifecycle" y = false -> String.eqb "references" y = false ->
              forall x, el_name x = "lifecycle" \/ el_name x = "references" ->
                        tag_is (Some ns) y x = false).
  { intros y N1 N2 x [E|E]; [apply (tag_is_name_false _ _ _ _ E N1)
                            | apply (tag_is_name_false _ _ _ _ E N2)]. }
  assert (K : forall y f x, keeps_tag f -> tag_is (Some ns) y (f x) = tag_is (Some ns) y x).
  { intros y f x H. apply tag_is_keeps. exact H. }
  assert (N1 : el_ns M1 = Some ns).
  { destruct (with_reference_same_tag ns "TLCOrganization" "cobalt" "cobalt"
                "https://github.com/laws-africa/cobalt" (S ia) base) as [E1 _].
    unfold M1, cobalt_reference. rewrite E1. reflexivity. }
  unfold after_index, child_index in *. rewrite N1. cbn [M el_ns children] in A.
  destruct (find_index (tag_is (Some ns) "publication") cs) as [j|] eqn:Fp.
  - inversion A; subst j.
    rewrite (created_find _ ia (K "publication") (P "publication" eq_refl eq_refl) Fp (le_n _)).
    reflexivity.
  - rewrite (created_find_None _ (K "publication") (P "publication" eq_refl eq_refl) Fp).
    apply (created_find _ ia (K "identification") (P "identification" eq_refl eq_refl) A (le_n _)).
Qed.

Lemma created_count : count_children (tag_is (Some ns) "lifecycle") M1 = 1.
Proof.
  unfold count_children.
  assert (B : List.length (filter (tag_is (Some ns) "lifecycle") (children base)) = 1).
  { rewrite created_base_children, filter_list_update
      by (intros x; apply tag_is_keeps, keeps_tag_set_attr).
    rewrite filter_insert_at. unfold new_lifecycle. rewrite tag_is_same.
    unfold child_index in C. cbn [M el_ns children] in C.
    rewrite (find_index_None_filter _ _ C). reflexivity. }
  destruct created_children as [[ir [_ ->]] | [X [HX ->]]].
  - rewrite filter_list_update; [exact B|].
    intros x. apply tag_is_keeps, keeps_tag_add_reference.
  - rewrite filter_insert_at, B.
    rewrite (tag_is_name_false _ "references" "lifecycle" X HX eq_refl). reflexivity.
Qed.
End Created.

(** ** Idempotence of [_ensure_lifecycle] *)




(** ** Lookups below an element *)

Lemma follow_focus (t I : element) (b : path) (names : list string) (q : path) :
  subtree t b = Some I ->
  follow t (b ++ q) names = option_map (app b) (follow I q names).
Proof.
  intros E. revert q; induction names as [|n r IH]; intros q; simpl; [reflexivity|].
  rewrite subtree_app, E. destruct (subtree I q) as [e|]; [|reflexivity].
  destruct (child_index e n) as [i|]; [|reflexivity].
  rewrite <- app_assoc. apply IH.
Qed.

Lemma ident_chain_run (s : state) (b : path) (I : element) (names : list string) :
  subtree (root s) b = Some I ->
  StructuredDocument.ident_chain (Some b) names s
  = lookup (option_map (app b) (follow I [] names)) s.
Proof.
  intros E. unfold StructuredDocument.ident_chain.
  rewrite chain_ret_follow by eauto.
  rewrite <- (follow_focus _ _ _ names [] E), app_nil_r. reflexivity.
Qed.

Lemma modify_below (s : state) (b q : path) (I c : element) (f : element -> element) :
  subtree (root s) b = Some I -> subtree I q = Some c ->
  modify_at (b ++ q) f s = (Ok tt, with_element s b (update q f I)).
Proof.
  intros E Eq. erewrite modify_at_run by (rewrite subtree_app, E; exact Eq).
  rewrite update_app, (modify_with_element _ _ _ _ E). reflexivity.
Qed.

(** ** The object store *)

Lemma load_run (s : state) (a : nat) (u : FrbrUri.t) :
  nth_error (objects s) a = Some u -> load a s = (Ok u, s).
Proof. intros H. unfold load. rewrite H. reflexivity. Qed.

Lemma obj_modify_run (s : state) (a : nat) (u : FrbrUri.t) (f : FrbrUri.t -> FrbrUri.t) :
  nth_error (objects s) a = Some u ->
  obj_modify a f s = (Ok tt, set_objects (list_update a f (objects s)) s).
Proof.
  intros H. unfold obj_modify. rewrite (bind_Ok _ _ _ _ _ (load_run _ _ _ H)). reflexivity.
Qed.

Lemma nth_error_list_update_same {A} (f : A -> A) (l : list A) (i : nat) (x : A) :
  nth_error l i = Some x -> nth_error (list_update i f l) i = Some (f x).
Proof. intros H. rewrite nth_error_list_update, Nat.eqb_refl, H. reflexivity. Qed.

(** ** The synchronisation of one identification block, seen from the block *)

Lemma keeps_tag_set_child_value (n v : string) : keeps_tag (set_child_value n v).
Proof.
  intros B. unfold set_child_value. destruct (child_index B n); split; reflexivity.
Qed.

Lemma keeps_tag_ensure_child_value (ns n v : string) : keeps_tag (ensure_child_value ns n v).
Proof.
  intros W. unfold ensure_child_value. destruct (child_index W n); [split; reflexivity|].
  destruct (child_index W "FRBRcountry"); split; reflexivity.
Qed.

Lemma keeps_tag_drop_child (n : string) : keeps_tag (drop_child n).
Proof. intros W. unfold drop_child. destruct (child_index W n); split; reflexivity. Qed.

Lemma keeps_tag_in_child (blk : string) (f : element -> element) : keeps_tag (in_child blk f).
Proof. intros I. unfold in_child. destruct (child_index I blk); split; reflexivity. Qed.

Lemma child_index_in_child (blk n : string) (f : element -> element) (I : element) :
  keeps_tag f -> child_index (in_child blk f I) n = child_index I n.
Proof.
  intros K. unfold in_child. destruct (child_index I blk); [|reflexivity].
  apply child_index_update_child. exact K.
Qed.

Lemma child_index_tag (e : element) (n : string) (i : nat) (c : element) :
  child_index e n = Some i -> nth_error (children e) i = Some c -> el_name c = n.
Proof.
  intros H Hc. destruct (find_index_Some _ _ _ H) as [x [Hx [T _]]].
  assert (x = c) by congruence. subst x. unfold tag_is in T.
  apply andb_true_iff in T. destruct T as [_ T]. apply String.eqb_eq. exact T.
Qed.

Lemma child_index_distinct (e : element) (n n' : string) (i i' : nat) :
  child_index e n = Some i -> child_index e n' = Some i' -> n <> n' -> i <> i'.
Proof.
  intros H H' N E. subst i'.
  destruct (find_index_Some _ _ _ H) as [x [Hx _]].
  apply N. rewrite <- (child_index_tag _ _ _ _ H Hx). apply (child_index_tag _ _ _ _ H' Hx).
Qed.

Lemma children_update_child (e : element) (i : nat) (f : element -> element) :
  children (update [i] f e) = list_update i f (children e).
Proof. destruct e. reflexivity. Qed.

Lemma block_in_child_same (blk : string) (f : element -> element) (I B : element) :
  keeps_tag f -> block_of I blk = Some B -> block_of (in_child blk f I) blk = Some (f B).
Proof.
  intros K H. unfold block_of in *. rewrite child_index_in_child by exact K.
  unfold in_child. destruct (child_index I blk) as [i|]; [|discriminate].
  rewrite children_update_child. apply nth_error_list_update_same. exact H.
Qed.

Lemma block_in_child_other (blk blk' : string) (f : element -> element) (I : element) :
  keeps_tag f -> blk <> blk' -> block_of (in_child blk f I) blk' = block_of I blk'.
Proof.
  intros K N. unfold block_of. rewrite child_index_in_child by exact K.
  unfold in_child. destruct (child_index I blk) as [i|] eqn:C; [|reflexivity].
  destruct (child_index I blk') as [i'|] eqn:C'; [|reflexivity].
  rewrite children_update_child, nth_error_list_update.
  destruct (Nat.eqb_spec i i') as [e|_]; [|reflexivity].
  exfalso. apply (child_index_distinct _ _ _ _ _ C C' N e).
Qed.

Lemma in_child_compose (blk : string) (f g : element -> element) (I : element) :
  keeps_tag f -> in_child blk g (in_child blk f I) = in_child blk (fun e => g (f e)) I.
Proof.
  intros K. unfold in_child at 1. rewrite child_index_in_child by exact K.
  unfold in_child. destruct (child_index I blk) as [i|]; [|reflexivity].
  apply (update_update [i]).
Qed.

Lemma has_child_Some (B : element) (n : string) :
  has_child B n = true -> exists j c, child_index B n = Some j /\ nth_error (children B) j = Some c.
Proof.
  unfold has_child. destruct (child_index B n) as [j|] eqn:C; [|discriminate].
  intros _. destruct (find_index_Some _ _ _ C) as [c [Hc _]]. eauto.
Qed.

Lemma block_of_Some (I : element) (blk : string) (B : element) :
  block_of I blk = Some B ->
  exists i, child_index I blk = Some i /\ nth_error (children I) i = Some B.
Proof.
  unfold block_of. destruct (child_index I blk) as [i|]; [|discriminate]. eauto.
Qed.

Lemma objects_with_element (s : state) (m : path) (M' : element) :
  objects (with_element s m M') = objects s.
Proof. reflexivity. Qed.

Section Steps.
Context {env : Collaborators}.
Variable cls : doc_class.
Variables (st : state) (b : path) (I : element) (a : nat) (u : FrbrUri.t).
Hypothesis Eb : subtree (root st) b = Some I.
Hypothesis Ea : nth_error (objects st) a = Some u.

(** [ident.<blk>.<n>.set('value', g(uri))] *)
Lemma set_step_run (blk n : string) (B : element) (g : FrbrUri.t -> string) (K : M unit) :
  block_of I blk = Some B -> has_child B n = true ->
  (p <- StructuredDocument.ident_chain (Some b) [blk; n] ;;
   u' <- load a ;;
   attr_set p "value" (g u') ;;
   K)%py st
  = K (with_element st b (in_child blk (set_child_value n (g u)) I)).
Proof.
  intros HB Hn. destruct (block_of_Some _ _ _ HB) as [i [Ci Hi]].
  destruct (has_child_Some _ _ Hn) as [j [c [Cj Hj]]].
  unfold bind at 1. rewrite (ident_chain_run _ _ _ _ Eb).
  cbn [follow subtree]. rewrite Ci. cbn [app]. cbn [subtree]. rewrite Hi, Cj.
  cbn [option_map lookup ret app].
  unfold bind at 1. rewrite (load_run _ _ _ Ea).
  unfold bind at 1. unfold attr_set.
  rewrite (modify_below _ _ [i; j] _ c _ Eb) by (cbn [subtree]; rewrite Hi, Hj; reflexivity).
  f_equal. f_equal. unfold in_child. rewrite Ci.
  change (update [i; j] ?f I) with (update [i] (update [j] f) I).
  apply (update_ext_at [i] _ _ I B); [cbn [subtree]; rewrite Hi; reflexivity|].
  unfold set_child_value. rewrite Cj. reflexivity.
Qed.

Lemma update_fixed (p : path) (f : element -> element) (t e : element) :
  subtree t p = Some e -> f e = e -> update p f t = t.
Proof.
  intros E F. rewrite (update_ext_at p f (fun _ => e) t e E F).
  apply update_same_value. exact E.
Qed.

(** [self.ensure_element(name, at=ident.FRBRWork,
    after=ident.FRBRWork.FRBRcountry).set('value', g(uri))] *)
Lemma ensure_step_run (name : string) (W : element) (g : FrbrUri.t -> string) (K : M unit) :
  split "." name = [name] ->
  block_of I "FRBRWork" = Some W -> has_child W "FRBRcountry" = true ->
  (w <- StructuredDocument.ident_chain (Some b) ["FRBRWork"] ;;
   c <- StructuredDocument.ident_chain (Some b) ["FRBRWork"; "FRBRcountry"] ;;
   n <- StructuredDocument.ensure_element cls name c (Some w) ;;
   n <- as_element n ;;
   u' <- load a ;;
   attr_set n "value" (g u') ;;
   K)%py st
  = K (with_element st b (in_child "FRBRWork" (ensure_child_value (namespace st) name (g u)) I)).
Proof.
  intros Hs HB Hc. destruct (block_of_Some _ _ _ HB) as [i [Ci Hi]].
  destruct (has_child_Some _ _ Hc) as [jc [cc [Cc Hcc]]].
  assert (Ew : subtree (root st) (b ++ [i]) = Some W).
  { rewrite (subtree_snoc _ _ _ i Eb). exact Hi. }
  unfold bind at 1. rewrite (ident_chain_run _ _ _ _ Eb).
  cbn [follow subtree]. rewrite Ci. cbn [option_map lookup ret app].
  unfold bind at 1. rewrite (ident_chain_run _ _ _ _ Eb).
  cbn [follow subtree]. rewrite Ci. cbn [app]. cbn [subtree]. rewrite Hi, Cc.
  cbn [option_map lookup ret app].
  unfold bind at 1.
  unfold StructuredDocument.ensure_element, AkomaNtosoDocument.ensure_element,
    AkomaNtosoDocument.get_element.
  rewrite Hs. unfold bind at 1.
  rewrite get_element_loop_Node by eauto.
  assert (Fw : follow (root st) (b ++ [i]) [name]
               = option_map (app (b ++ [i])) (follow W [] [name])).
  { rewrite <- (follow_focus _ _ _ [name] [] Ew), app_nil_r. reflexivity. }
  rewrite Fw. cbn [follow subtree].
  assert (In1 : forall f, in_child "FRBRWork" f I = update [i] f I).
  { intros f. unfold in_child. rewrite Ci. reflexivity. }
  rewrite In1.
  destruct (child_index W name) as [j|] eqn:Cn; cbn [option_map app].
  - destruct (find_index_Some _ _ _ Cn) as [x [Hx _]].
    cbn [ret as_element]. unfold bind at 1. cbn [as_element ret].
    unfold bind at 1. rewrite (load_run _ _ _ Ea). unfold bind at 1. unfold attr_set.
    rewrite <- app_assoc. cbn [app].
    rewrite (modify_below _ _ [i; j] _ x _ Eb) by (cbn [subtree]; rewrite Hi, Hx; reflexivity).
    f_equal. f_equal.
    change (update [i; j] ?f I) with (update [i] (update [j] f) I).
    apply (update_ext_at [i] _ _ I W); [cbn [subtree]; rewrite Hi; reflexivity|].
    unfold ensure_child_value. rewrite Cn. reflexivity.
  - cbn [last]. unfold bind at 1. unfold AkomaNtosoDocument.make_element.
    unfold bind at 1.
    change (b ++ [i; jc]) with (b ++ [i] ++ [jc]). rewrite app_assoc.
    rewrite (addnext_run _ _ _ _ _ _ Ew Hcc). rewrite next_sibling_snoc.
    cbn [ret as_element]. unfold bind at 1. cbn [as_element ret].
    unfold bind at 1.
    set (ins := fun e => set_children
                  (insert_at (S jc) (Element (Some (namespace st)) name [] []) (children e)) e).
    assert (St1 : set_root (update (b ++ [i]) ins (root st)) st
                  = with_element st b (update [i] ins I)).
    { rewrite update_app. apply (modify_with_element _ _ _ _ Eb). }
    rewrite St1.
    rewrite (load_run (with_element st b (update [i] ins I)) a u) by exact Ea.
    unfold bind at 1. unfold attr_set. rewrite <- app_assoc. cbn [app].
    assert (Bound : S jc <= List.length (children W)).
    { apply Nat.le_succ_l. apply nth_error_Some. congruence. }
    rewrite (modify_below _ _ [i; S jc] (update [i] ins I)
                          (Element (Some (namespace st)) name [] [])).
    + rewrite with_element_twice. f_equal. f_equal.
      change (update [i; S jc] ?f ?t) with (update [i] (update [S jc] f) t).
      rewrite update_update.
      apply (update_ext_at [i] _ _ I W); [cbn [subtree]; rewrite Hi; reflexivity|].
      unfold ensure_child_value. rewrite Cn, Cc. reflexivity.
    + apply (subtree_with_element _ _ _ _ Eb).
    + cbn [subtree]. rewrite children_update_child.
      rewrite (nth_error_list_update_same _ _ _ _ Hi).
      unfold ins. destruct W as [h m attrs cw]. cbn [set_children children] in *.
      rewrite (nth_error_insert_at _ _ _ Bound). reflexivity.
Qed.

(** [try: ident.FRBRWork.remove(ident.FRBRWork.FRBRsubtype)
    except AttributeError: pass] *)
Lemma drop_step_run (W : element) (K : M unit) :
  block_of I "FRBRWork" = Some W ->
  (except_AttributeError
     (w <- StructuredDocument.ident_chain (Some b) ["FRBRWork"] ;;
      t <- StructuredDocument.ident_chain (Some b) ["FRBRWork"; "FRBRsubtype"] ;;
      remove w t)
     (ret tt) ;;
   K)%py st
  = K (with_element st b (in_child "FRBRWork" (drop_child "FRBRsubtype") I)).
Proof.
  intros HB. destruct (block_of_Some _ _ _ HB) as [i [Ci Hi]].
  assert (Ew : subtree (root st) (b ++ [i]) = Some W).
  { rewrite (subtree_snoc _ _ _ i Eb). exact Hi. }
  assert (In1 : forall f, in_child "FRBRWork" f I = update [i] f I).
  { intros f. unfold in_child. rewrite Ci. reflexivity. }
  rewrite In1.
  unfold bind at 1, except_AttributeError. unfold bind at 1.
  rewrite (ident_chain_run _ _ _ _ Eb).
  cbn [follow subtree]. rewrite Ci. cbn [option_map lookup ret app].
  unfold bind at 1. rewrite (ident_chain_run _ _ _ _ Eb).
  cbn [follow subtree]. rewrite Ci. cbn [app]. cbn [subtree]. rewrite Hi.
  destruct (child_index W "FRBRsubtype") as [js|] eqn:Cs;
    cbn [option_map lookup ret raise app is_AttributeError].
  - destruct (find_index_Some _ _ _ Cs) as [x [Hx _]].
    unfold remove. change (b ++ [i; js]) with (b ++ [i] ++ [js]). rewrite app_assoc.
    assert (Ex : subtree (root st) ((b ++ [i]) ++ [js]) = Some x).
    { rewrite (subtree_snoc _ _ _ js Ew). exact Hx. }
    rewrite (bind_Ok _ _ _ _ _ (node_at_Some _ _ _ Ex)). rewrite unsnoc_snoc.
    destruct (list_eq_dec Nat.eq_dec (b ++ [i]) (b ++ [i])) as [_|N]; [|contradiction].
    rewrite (modify_at_run _ _ _ _ Ew). rewrite update_app.
    rewrite (modify_with_element _ _ _ _ Eb). f_equal. f_equal.
    apply (update_ext_at [i] _ _ I W); [cbn [subtree]; rewrite Hi; reflexivity|].
    unfold drop_child. rewrite Cs. reflexivity.
  - f_equal. symmetry.
    rewrite (update_fixed [i] _ I W); [apply (with_element_same _ _ _ Eb) | |].
    + cbn [subtree]. rewrite Hi. reflexivity.
    + unfold drop_child. rewrite Cs. reflexivity.
Qed.
End Steps.

Lemma has_child_set_child_value (n v n' : string) (B : element) :
  has_child (set_child_value n v B) n' = has_child B n'.
Proof.
  unfold has_child, set_child_value. destruct (child_index B n); [|reflexivity].
  rewrite child_index_update_child by apply keeps_tag_set_attr. reflexivity.
Qed.

Lemma has_child_insert (W x : element) (k : nat) (n' : string) :
  has_child W n' = true ->
  has_child (set_children (insert_at k x (children W)) W) n' = true.
Proof.
  unfold has_child, child_index. destruct W as [h m a cs]. cbn [set_children children el_ns].
  intros H.
  destruct (find_index (tag_is h n') (insert_at k x cs)) eqn:F; [reflexivity|].
  exfalso. destruct (find_index (tag_is h n') cs) as [j|] eqn:G; [|discriminate].
  destruct (find_index_Some _ _ _ G) as [y [Hy [Ty _]]].
  assert (Z : find_index (tag_is h n') (insert_at k x cs) <> None).
  { apply find_index_not_None. exists y. split; [|exact Ty].
    apply In_insert_at. right. eapply nth_error_In. exact Hy. }
  congruence.
Qed.

Lemma has_child_ensure_child_value (ns n v n' : string) (W : element) :
  has_child W n' = true -> has_child (ensure_child_value ns n v W) n' = true.
Proof.
  intros H. unfold ensure_child_value. destruct (child_index W n).
  - unfold has_child. rewrite child_index_update_child by apply keeps_tag_set_attr. exact H.
  - destruct (child_index W "FRBRcountry"); [|exact H].
    unfold has_child. rewrite child_index_update_child by apply keeps_tag_set_attr.
    apply (has_child_insert W _ _ n' H).
Qed.

Lemma wf_ident_blocks (I : element) :
  wf_ident I = true ->
  exists W X F,
    block_of I "FRBRWork" = Some W /\ block_of I "FRBRExpression" = Some X
    /\ block_of I "FRBRManifestation" = Some F
    /\ has_child W "FRBRuri" = true /\ has_child W "FRBRthis" = true
    /\ has_child W "FRBRcountry" = true
    /\ has_child X "FRBRuri" = true /\ has_child X "FRBRthis" = true
    /\ has_child F "FRBRuri" = true /\ has_child F "FRBRthis" = true.
Proof.
  unfold wf_ident, has_block, block_of. intros H.
  apply andb_true_iff in H. destruct H as [H HF].
  apply andb_true_iff in H. destruct H as [HW HX].
  destruct (child_index I "FRBRWork") as [iw|]; [|discriminate].
  destruct (nth_error (children I) iw) as [W|]; [|discriminate].
  destruct (child_index I "FRBRExpression") as [ix|]; [|discriminate].
  destruct (nth_error (children I) ix) as [X|]; [|discriminate].
  destruct (child_index I "FRBRManifestation") as [im|]; [|discriminate].
  destruct (nth_error (children I) im) as [F|]; [|discriminate].
  cbn [forallb] in *. rewrite !andb_true_iff in *.
  exists W, X, F. intuition.
Qed.

Section SyncRun.
Context {env : Collaborators}.
Variable cls : doc_class.

Lemma find_ident_run (s : state) (c : path) (Ec : element) :
  subtree (root s) c = Some Ec ->
  StructuredDocument.find_ident c s
  = (Ok (option_map (app c) (find_identification (namespace s) Ec)), s).
Proof.
  intros E. unfold StructuredDocument.find_ident.
  rewrite (bind_Ok _ _ _ _ _ (node_at_Some _ _ _ E)). reflexivity.
Qed.

(** One turn of the loop of the setter rewrites one identification block. *)
Lemma sync_component_run (s : state) (c r : path) (Ec I : element)
      (a : nat) (u0 : FrbrUri.t) (name : option string) :
  subtree (root s) c = Some Ec ->
  find_identification (namespace s) Ec = Some r ->
  subtree (root s) (c ++ r) = Some I ->
  wf_ident I = true ->
  nth_error (objects s) a = Some u0 ->
  StructuredDocument.sync_component cls a name c s
  = (Ok tt,
     with_element (set_objects (list_update a (FrbrUri.set_work_component name) (objects s)) s)
                  (c ++ r)
                  (sync_ident (namespace s) (FrbrUri.set_work_component name u0) I)).
Proof.
  intros Ec0 Fr EI WF Ha.
  destruct (wf_ident_blocks _ WF) as [W [X [F [BW [BX [BF [Wu [Wt [Wc [Xu [Xt [Fu Ft]]]]]]]]]]]].
  set (u := FrbrUri.set_work_component name u0).
  set (st0 := set_objects (list_update a (FrbrUri.set_work_component name) (objects s)) s).
  set (b := c ++ r).
  assert (Ea : forall J, nth_error (objects (with_element st0 b J)) a = Some u).
  { intros J. apply (nth_error_list_update_same (FrbrUri.set_work_component name) _ _ _ Ha). }
  assert (Eb : forall J, subtree (root (with_element st0 b J)) b = Some J).
  { intros J. apply (subtree_with_element st0 b I J). exact EI. }
  assert (St : st0 = with_element st0 b I).
  { symmetry. apply with_element_same. exact EI. }
  unfold StructuredDocument.sync_component.
  unfold bind at 1. rewrite (obj_modify_run _ _ _ _ Ha). fold st0.
  unfold bind at 1. rewrite (find_ident_run st0 c Ec Ec0).
  change (namespace st0) with (namespace s). rewrite Fr. cbn [option_map]. fold b.
  rewrite St at 1.
  (* FRBRWork: FRBRuri, FRBRthis, FRBRcountry *)
  rewrite (set_step_run _ _ _ _ _ (Eb I) (Ea I) "FRBRWork" "FRBRuri" W (fun u => uri u) _ BW Wu).
  rewrite with_element_twice.
  set (f1 := set_child_value "FRBRuri" (uri u)).
  assert (K1 : keeps_tag f1) by apply keeps_tag_set_child_value.
  rewrite (set_step_run _ _ _ _ _ (Eb _) (Ea _) "FRBRWork" "FRBRthis" (f1 W)
             (fun u => work_uri u true) _ (block_in_child_same _ _ _ _ K1 BW)).
  2:{ unfold f1. rewrite has_child_set_child_value. exact Wt. }
  rewrite with_element_twice, (in_child_compose _ _ _ _ K1).
  set (f2 := fun e => set_child_value "FRBRthis" (work_uri u true) (f1 e)).
  assert (K2 : keeps_tag f2).
  { apply (keeps_tag_compose f1 _ K1). apply keeps_tag_set_child_value. }
  rewrite (set_step_run _ _ _ _ _ (Eb _) (Ea _) "FRBRWork" "FRBRcountry" (f2 W)
             (fun u => place u) _ (block_in_child_same _ _ _ _ K2 BW)).
  2:{ unfold f2, f1. rewrite !has_child_set_child_value. exact Wc. }
  rewrite with_element_twice, (in_child_compose _ _ _ _ K2).
  set (f3 := fun e => set_child_value "FRBRcountry" (place u) (f2 e)).
  assert (K3 : keeps_tag f3).
  { apply (keeps_tag_compose f2 _ K2). apply keeps_tag_set_child_value. }
  (* FRBRnumber *)
  rewrite (ensure_step_run cls _ _ _ _ _ (Eb _) (Ea _) "FRBRnumber" (f3 W)
             (fun u => FrbrUri.number u) _ eq_refl (block_in_child_same _ _ _ _ K3 BW)).
  2:{ unfold f3, f2, f1. rewrite !has_child_set_child_value. exact Wc. }
  rewrite with_element_twice, (in_child_compose _ _ _ _ K3).
  change (namespace (with_element st0 b _)) with (namespace s).
  set (f4 := fun e => ensure_child_value (namespace s) "FRBRnumber" (FrbrUri.number u) (f3 e)).
  assert (K4 : keeps_tag f4).
  { apply (keeps_tag_compose f3 _ K3). apply keeps_tag_ensure_child_value. }
  assert (Wc4 : has_child (f4 W) "FRBRcountry" = true).
  { unfold f4. apply has_child_ensure_child_value.
    unfold f3, f2, f1. rewrite !has_child_set_child_value. exact Wc. }
  (* FRBRsubtype *)
  unfold bind at 1. rewrite (load_run _ _ _ (Ea _)).
  assert (Tail : forall f5 : element -> element,
             keeps_tag f5 ->
             (p <- StructuredDocument.ident_chain (Some b) ["FRBRExpression"; "FRBRuri"] ;;
              u' <- load a ;; attr_set p "value" (expression_uri u' false) ;;
              p <- StructuredDocument.ident_chain (Some b) ["FRBRExpression"; "FRBRthis"] ;;
              u' <- load a ;; attr_set p "value" (expression_uri u' true) ;;
              p <- StructuredDocument.ident_chain (Some b) ["FRBRManifestation"; "FRBRuri"] ;;
              u' <- load a ;; attr_set p "value" (expression_uri u' false) ;;
              p <- StructuredDocument.ident_chain (Some b) ["FRBRManifestation"; "FRBRthis"] ;;
              u' <- load a ;; attr_set p "value" (expression_uri u' true))%py
               (with_element st0 b (in_child "FRBRWork" f5 I))
             = (Ok tt, with_element st0 b
                         (in_child "FRBRManifestation" (sync_expression u)
                            (in_child "FRBRExpression" (sync_expression u)
                               (in_child "FRBRWork" f5 I))))).
  { intros f5 K5. set (I5 := in_child "FRBRWork" f5 I).
    assert (BX5 : block_of I5 "FRBRExpression" = Some X).
    { unfold I5. rewrite block_in_child_other; [exact BX | exact K5 | discriminate]. }
    assert (BF5 : block_of I5 "FRBRManifestation" = Some F).
    { unfold I5. rewrite block_in_child_other; [exact BF | exact K5 | discriminate]. }
    rewrite (set_step_run _ _ _ _ _ (Eb _) (Ea _) "FRBRExpression" "FRBRuri" X
               (fun u => expression_uri u false) _ BX5 Xu).
    rewrite with_element_twice.
    set (g1 := set_child_value "FRBRuri" (expression_uri u false)).
    assert (G1 : keeps_tag g1) by apply keeps_tag_set_child_value.
    rewrite (set_step_run _ _ _ _ _ (Eb _) (Ea _) "FRBRExpression" "FRBRthis" (g1 X)
               (fun u => expression_uri u true) _ (block_in_child_same _ _ _ _ G1 BX5)).
    2:{ unfold g1. rewrite has_child_set_child_value. exact Xt. }
    rewrite with_element_twice, (in_child_compose _ _ _ _ G1).
    fold (sync_expression u).
    set (I6 := in_child "FRBRExpression" _ I5).
    assert (BF6 : block_of I6 "FRBRManifestation" = Some F).
    { unfold I6. rewrite block_in_child_other; [exact BF5 | | discriminate].
      apply (keeps_tag_compose g1 _ G1). apply keeps_tag_set_child_value. }
    rewrite (set_step_run _ _ _ _ _ (Eb _) (Ea _) "FRBRManifestation" "FRBRuri" F
               (fun u => expression_uri u false) _ BF6 Fu).
    rewrite with_element_twice. fold g1.
    assert (Last : forall (C : FrbrUri.t -> string) J B,
               block_of J "FRBRManifestation" = Some B -> has_child B "FRBRthis" = true ->
               (p <- StructuredDocument.ident_chain (Some b) ["FRBRManifestation"; "FRBRthis"] ;;
                u' <- load a ;; attr_set p "value" (C u'))%py (with_element st0 b J)
               = (Ok tt, with_element st0 b
                           (in_child "FRBRManifestation" (set_child_value "FRBRthis" (C u)) J))).
    { intros C J B HB Hn.
      pose proof (set_step_run _ _ _ _ _ (Eb J) (Ea J) "FRBRManifestation" "FRBRthis" B C
                               (ret tt) HB Hn) as Z.
      rewrite with_element_twice in Z. unfold ret at 2 in Z. rewrite <- Z.
      unfold bind. destruct (StructuredDocument.ident_chain _ _ _) as [[p|e] s1]; [|reflexivity].
      destruct (load a s1) as [[u'|e] s2]; [|reflexivity].
      destruct (attr_set p "value" (C u') s2) as [[[]|e] s3]; reflexivity. }
    rewrite (Last _ _ (g1 F) (block_in_child_same _ _ _ _ G1 BF6)).
    2:{ unfold g1. rewrite has_child_set_child_value. exact Ft. }
    rewrite (in_child_compose _ _ _ _ G1). reflexivity. }
  unfold sync_ident, sync_work. fold u.
  destruct (truthy_opt (FrbrUri.subtype u)) eqn:T.
  - pose proof (ensure_step_run cls _ _ _ _ _ (Eb _) (Ea _) "FRBRsubtype" (f4 W)
               (fun u => match FrbrUri.subtype u with Some v => v | None => "" end)
               (ret tt) eq_refl (block_in_child_same _ _ _ _ K4 BW) Wc4) as Z.
    rewrite with_element_twice, (in_child_compose _ _ _ _ K4) in Z.
    change (namespace (with_element st0 b _)) with (namespace s) in Z.
    match type of Z with _ = ?rhs => change rhs with (Ok tt, with_element st0 b
                     (in_child "FRBRWork"
                        (fun e => ensure_child_value (namespace s) "FRBRsubtype"
                                    match FrbrUri.subtype u with Some v => v | None => "" end
                                    (f4 e)) I)) in Z end.
    match goal with
    | |- bind ?blk ?k ?st = _ =>
        assert (Zb : blk st = (Ok tt, with_element st0 b
                     (in_child "FRBRWork"
                        (fun e => ensure_child_value (namespace s) "FRBRsubtype"
                                    match FrbrUri.subtype u with Some v => v | None => "" end
                                    (f4 e)) I)))
    end.
    { rewrite <- Z. unfold bind.
      destruct (StructuredDocument.ident_chain _ _ _) as [[p1|e] s1]; [|reflexivity].
      destruct (StructuredDocument.ident_chain _ _ _) as [[p2|e] s2]; [|reflexivity].
      destruct (StructuredDocument.ensure_element _ _ _ _ _) as [[p3|e] s3]; [|reflexivity].
      destruct (as_element _ _) as [[p4|e] s4]; [|reflexivity].
      destruct (load a s4) as [[u'|e] s5]; [|reflexivity].
      destruct (attr_set _ _ _ _) as [[[]|e] s6]; reflexivity. }
    rewrite (bind_Ok _ _ _ _ _ Zb).
    apply Tail. apply (keeps_tag_compose f4 _ K4). apply keeps_tag_ensure_child_value.
  - rewrite (drop_step_run _ _ _ (Eb _) (f4 W) _ (block_in_child_same _ _ _ _ K4 BW)).
    rewrite with_element_twice, (in_child_compose _ _ _ _ K4).
    apply Tail. apply (keeps_tag_compose f4 _ K4). apply keeps_tag_drop_child.
Qed.
End SyncRun.

(** ** The values that the synchronisation leaves *)

Lemma find_index_find {A} (p : A -> bool) (l : list A) :
  match find_index p l with
  | Some i => nth_error l i
  | None => None
  end = find p l.
Proof.
  induction l as [|a l IH]; [reflexivity|]. simpl.
  destruct (p a); [reflexivity|]. rewrite <- IH.
  destruct (find_index p l); reflexivity.
Qed.

Lemma child_value_find (B : element) (n : string) :
  child_value B n = match find (tag_is (el_ns B) n) (children B) with
                    | Some c => get c "value"
                    | None => None
                    end.
Proof.
  unfold child_value, child_index. rewrite <- find_index_find.
  destruct (find_index _ (children B)); reflexivity.
Qed.

Lemma find_append {A} (p : A -> bool) (l l' : list A) :
  find p (l ++ l') = match find p l with Some x => Some x | None => find p l' end.
Proof.
  induction l as [|a l IH]; [reflexivity|]. simpl. destruct (p a); [reflexivity|exact IH].
Qed.

Lemma find_insert_at {A} (p : A -> bool) (l : list A) (k : nat) (x : A) :
  p x = false -> find p (insert_at k x l) = find p l.
Proof.
  intros Px. unfold insert_at. rewrite <- (firstn_skipn k l) at 3.
  rewrite !find_append. simpl. rewrite Px. reflexivity.
Qed.

Lemma find_remove_at {A} (p : A -> bool) (l : list A) (k : nat) :
  (forall y, nth_error l k = Some y -> p y = false) ->
  find p (remove_at k l) = find p l.
Proof.
  revert k; induction l as [|a l IH]; intros k H.
  - unfold remove_at. destruct k; reflexivity.
  - destruct k; unfold remove_at in *; simpl.
    + rewrite (H a eq_refl). reflexivity.
    + destruct (p a); [reflexivity|]. apply IH. intros y Hy. apply H. exact Hy.
Qed.

Lemma child_value_insert (B x : element) (k : nat) (n : string) :
  String.eqb (el_name x) n = false ->
  child_value (set_children (insert_at k x (children B)) B) n = child_value B n.
Proof.
  intros N. rewrite !child_value_find. destruct B as [h m a cs].
  cbn [set_children children el_ns]. rewrite find_insert_at; [reflexivity|].
  unfold tag_is. rewrite N. apply andb_false_r.
Qed.

Lemma child_value_remove (B : element) (k : nat) (n : string) :
  (forall y, nth_error (children B) k = Some y -> String.eqb (el_name y) n = false) ->
  child_value (set_children (remove_at k (children B)) B) n = child_value B n.
Proof.
  intros N. rewrite !child_value_find. destruct B as [h m a cs].
  cbn [set_children children el_ns] in *. rewrite find_remove_at; [reflexivity|].
  intros y Hy. unfold tag_is. rewrite (N y Hy). apply andb_false_r.
Qed.

Lemma child_value_update_same (B c : element) (j : nat) (n : string) (f : element -> element) :
  keeps_tag f -> child_index B n = Some j -> nth_error (children B) j = Some c ->
  child_value (update [j] f B) n = get (f c) "value".
Proof.
  intros K C H. unfold child_value.
  rewrite (child_index_update_child _ _ _ _ K), C, children_update_child.
  rewrite (nth_error_list_update_same _ _ _ _ H). reflexivity.
Qed.

Lemma child_value_update_other (B : element) (j : nat) (n : string) (f : element -> element) :
  keeps_tag f ->
  (forall c, nth_error (children B) j = Some c -> String.eqb (el_name c) n = false) ->
  child_value (update [j] f B) n = child_value B n.
Proof.
  intros K N. unfold child_value. rewrite (child_index_update_child _ _ _ _ K).
  destruct (child_index B n) as [j'|] eqn:C; [|reflexivity].
  rewrite children_update_child, nth_error_list_update.
  destruct (Nat.eqb_spec j j') as [e|_]; [|reflexivity]. subst j'.
  destruct (find_index_Some _ _ _ C) as [c [Hc _]].
  pose proof (child_index_tag _ _ _ _ C Hc) as T.
  exfalso. specialize (N c Hc). rewrite T, String.eqb_refl in N. discriminate.
Qed.

Lemma child_value_set_same (n v : string) (B : element) :
  has_child B n = true -> child_value (set_child_value n v B) n = Some v.
Proof.
  intros H. destruct (has_child_Some _ _ H) as [j [c [C Hc]]].
  unfold set_child_value. rewrite C.
  rewrite (child_value_update_same _ c _ _ _ (keeps_tag_set_attr _ _) C Hc).
  apply get_set_attr.
Qed.

Lemma child_value_set_other (n v n' : string) (B : element) :
  String.eqb n n' = false ->
  child_value (set_child_value n v B) n' = child_value B n'.
Proof.
  intros N. unfold set_child_value. destruct (child_index B n) as [j|] eqn:C; [|reflexivity].
  apply child_value_update_other; [apply keeps_tag_set_attr|].
  intros c Hc. rewrite (child_index_tag _ _ _ _ C Hc). exact N.
Qed.

Lemma child_value_ensure_other (ns n v n' : string) (W : element) :
  String.eqb n n' = false ->
  child_value (ensure_child_value ns n v W) n' = child_value W n'.
Proof.
  intros N. unfold ensure_child_value. destruct (child_index W n) as [j|] eqn:C.
  - apply child_value_update_other; [apply keeps_tag_set_attr|].
    intros c Hc. rewrite (child_index_tag _ _ _ _ C Hc). exact N.
  - destruct (child_index W "FRBRcountry") as [jc|] eqn:Cc; [|reflexivity].
    rewrite child_value_update_other.
    + apply child_value_insert. exact N.
    + apply keeps_tag_set_attr.
    + intros c Hc. destruct W as [h m a cs]. cbn [set_children children] in Hc.
      destruct (find_index_Some _ _ _ Cc) as [x [Hx _]]. cbn [children] in Hx.
      assert (L : S jc <= List.length cs).
      { apply Nat.le_succ_l. apply nth_error_Some. rewrite Hx. discriminate. }
      rewrite (nth_error_insert_at _ _ _ L) in Hc.
      injection Hc as <-. exact N.
Qed.

Lemma child_value_drop_other (n n' : string) (W : element) :
  String.eqb n n' = false ->
  child_value (drop_child n W) n' = child_value W n'.
Proof.
  intros N. unfold drop_child. destruct (child_index W n) as [j|] eqn:C; [|reflexivity].
  apply child_value_remove. intros y Hy. rewrite (child_index_tag _ _ _ _ C Hy). exact N.
Qed.

Section SyncValues.
Context {env : Collaborators}.

Lemma keeps_tag_sync_work (ns : string) (u : FrbrUri.t) : keeps_tag (sync_work ns u).
Proof.
  intros W. unfold sync_work.
  destruct (truthy_opt (FrbrUri.subtype u)).
  - destruct (keeps_tag_ensure_child_value ns "FRBRsubtype"
                (match FrbrUri.subtype u with Some v => v | None => "" end)
                (ensure_child_value ns "FRBRnumber" (FrbrUri.number u)
                   (set_child_value "FRBRcountry" (place u)
                      (set_child_value "FRBRthis" (work_uri u true)
                         (set_child_value "FRBRuri" (uri u) W))))) as [A B].
    rewrite A, B.
    destruct (keeps_tag_ensure_child_value ns "FRBRnumber" (FrbrUri.number u)
                   (set_child_value "FRBRcountry" (place u)
                      (set_child_value "FRBRthis" (work_uri u true)
                         (set_child_value "FRBRuri" (uri u) W)))) as [A1 B1].
    rewrite A1, B1. split; reflexivity || (unfold set_child_value;
      repeat match goal with |- context [child_index ?e ?n] => destruct (child_index e n) end;
      reflexivity).
  - destruct (keeps_tag_drop_child "FRBRsubtype"
                (ensure_child_value ns "FRBRnumber" (FrbrUri.number u)
                   (set_child_value "FRBRcountry" (place u)
                      (set_child_value "FRBRthis" (work_uri u true)
                         (set_child_value "FRBRuri" (uri u) W))))) as [A B].
    rewrite A, B.
    destruct (keeps_tag_ensure_child_value ns "FRBRnumber" (FrbrUri.number u)
                   (set_child_value "FRBRcountry" (place u)
                      (set_child_value "FRBRthis" (work_uri u true)
                         (set_child_value "FRBRuri" (uri u) W)))) as [A1 B1].
    rewrite A1, B1. split; reflexivity || (unfold set_child_value;
      repeat match goal with |- context [child_index ?e ?n] => destruct (child_index e n) end;
      reflexivity).
Qed.

Lemma keeps_tag_sync_expression (u : FrbrUri.t) : keeps_tag (sync_expression u).
Proof.
  unfold sync_expression.
  apply (keeps_tag_compose (set_child_value "FRBRuri" (expression_uri u false))
                           (set_child_value "FRBRthis" (expression_uri u true)));
    apply keeps_tag_set_child_value.
Qed.

Lemma sync_work_values (ns : string) (u : FrbrUri.t) (W : element) :
  has_child W "FRBRuri" = true -> has_child W "FRBRthis" = true ->
  child_value (sync_work ns u W) "FRBRuri" = Some (uri u)
  /\ child_value (sync_work ns u W) "FRBRthis" = Some (work_uri u true).
Proof.
  intros Hu Ht. unfold sync_work.
  assert (A : forall n' B,
             String.eqb "FRBRnumber" n' = false -> String.eqb "FRBRsubtype" n' = false ->
             child_value
               (if truthy_opt (FrbrUri.subtype u)
                then ensure_child_value ns "FRBRsubtype"
                       (match FrbrUri.subtype u with Some v => v | None => "" end)
                       (ensure_child_value ns "FRBRnumber" (FrbrUri.number u) B)
                else drop_child "FRBRsubtype"
                       (ensure_child_value ns "FRBRnumber" (FrbrUri.number u) B)) n'
             = child_value B n').
  { intros n' B N1 N2. destruct (truthy_opt (FrbrUri.subtype u)).
    - rewrite (child_value_ensure_other _ _ _ _ _ N2). apply child_value_ensure_other. exact N1.
    - rewrite (child_value_drop_other _ _ _ N2). apply child_value_ensure_other. exact N1. }
  split.
  - rewrite A by reflexivity.
    rewrite child_value_set_other by reflexivity.
    rewrite child_value_set_other by reflexivity.
    apply child_value_set_same. exact Hu.
  - rewrite A by reflexivity.
    rewrite child_value_set_other by reflexivity.
    apply child_value_set_same. rewrite has_child_set_child_value. exact Ht.
Qed.

Lemma sync_expression_values (u : FrbrUri.t) (X : element) :
  has_child X "FRBRuri" = true -> has_child X "FRBRthis" = true ->
  child_value (sync_expression u X) "FRBRuri" = Some (expression_uri u false)
  /\ child_value (sync_expression u X) "FRBRthis" = Some (expression_uri u true).
Proof.
  intros Hu Ht. unfold sync_expression. split.
  - rewrite child_value_set_other by reflexivity. apply child_value_set_same. exact Hu.
  - apply child_value_set_same. rewrite has_child_set_child_value. exact Ht.
Qed.

Lemma block_value_block_of (I : element) (blk n : string) :
  block_value I blk n = match block_of I blk with
                        | Some B => child_value B n
                        | None => None
                        end.
Proof. unfold block_value, block_of. destruct (child_index I blk); reflexivity. Qed.

(** The six URI strings of a rewritten identification block. *)
Lemma sync_ident_values (ns : string) (u : FrbrUri.t) (I : element) :
  wf_ident I = true ->
  block_value (sync_ident ns u I) "FRBRWork" "FRBRuri" = Some (uri u)
  /\ block_value (sync_ident ns u I) "FRBRWork" "FRBRthis" = Some (work_uri u true)
  /\ block_value (sync_ident ns u I) "FRBRExpression" "FRBRuri" = Some (expression_uri u false)
  /\ block_value (sync_ident ns u I) "FRBRExpression" "FRBRthis" = Some (expression_uri u true)
  /\ block_value (sync_ident ns u I) "FRBRManifestation" "FRBRuri" = Some (expression_uri u false)
  /\ block_value (sync_ident ns u I) "FRBRManifestation" "FRBRthis" = Some (expression_uri u true).
Proof.
  intros WF.
  destruct (wf_ident_blocks _ WF) as [W [X [F [BW [BX [BF [Wu [Wt [Wc [Xu [Xt [Fu Ft]]]]]]]]]]]].
  pose proof (keeps_tag_sync_work ns u) as KW.
  pose proof (keeps_tag_sync_expression u) as KE.
  assert (NWX : "FRBRWork" <> "FRBRExpression") by discriminate.
  assert (NWM : "FRBRWork" <> "FRBRManifestation") by discriminate.
  assert (NXM : "FRBRExpression" <> "FRBRManifestation") by discriminate.
  assert (NXW : "FRBRExpression" <> "FRBRWork") by discriminate.
  assert (NMW : "FRBRManifestation" <> "FRBRWork") by discriminate.
  assert (NMX : "FRBRManifestation" <> "FRBRExpression") by discriminate.
  assert (EW : block_of (sync_ident ns u I) "FRBRWork" = Some (sync_work ns u W)).
  { unfold sync_ident.
    rewrite (block_in_child_other _ _ _ _ KE NMW), (block_in_child_other _ _ _ _ KE NXW).
    apply block_in_child_same; assumption. }
  assert (EX : block_of (sync_ident ns u I) "FRBRExpression" = Some (sync_expression u X)).
  { unfold sync_ident.
    rewrite (block_in_child_other _ _ _ _ KE NMX).
    apply block_in_child_same; [assumption|].
    rewrite (block_in_child_other _ _ _ _ KW NWX). exact BX. }
  assert (EM : block_of (sync_ident ns u I) "FRBRManifestation" = Some (sync_expression u F)).
  { unfold sync_ident.
    apply block_in_child_same; [assumption|].
    rewrite (block_in_child_other _ _ _ _ KE NXM), (block_in_child_other _ _ _ _ KW NWM).
    exact BF. }
  rewrite !block_value_block_of, EW, EX, EM.
  destruct (sync_work_values ns u W Wu Wt) as [A1 A2].
  destruct (sync_expression_values u X Xu Xt) as [A3 A4].
  destruct (sync_expression_values u F Fu Ft) as [A5 A6].
  repeat split; assumption.
Qed.
End SyncValues.

(** ** Separation of the components *)

Lemma divergeb_spec (p q : path) :
  divergeb p q = true ->
  exists c i j p' q', i <> j /\ p = c ++ i :: p' /\ q = c ++ j :: q'.
Proof.
  revert q; induction p as [|i p IH]; intros q H; [discriminate|].
  destruct q as [|j q]; [discriminate|]. cbn [divergeb] in H.
  destruct (Nat.eqb_spec i j) as [e|n].
  - subst j. destruct (IH q H) as [c [i' [j' [p' [q' [N [E1 E2]]]]]]].
    exists (i :: c), i', j', p', q'. subst. repeat split; assumption.
  - exists [], i, j, p, q. repeat split; assumption.
Qed.

Lemma divergeb_sym (p q : path) : divergeb p q = divergeb q p.
Proof.
  revert q; induction p as [|i p IH]; intros [|j q]; try reflexivity.
  cbn [divergeb]. rewrite (Nat.eqb_sym j i). destruct (Nat.eqb i j); [apply IH|reflexivity].
Qed.

(** An update inside one element is not seen inside an element apart from it. *)
Lemma diverge_frame (p c r q : path) (f : element -> element) (t : element) :
  divergeb p c = true ->
  subtree (update (c ++ r) f t) (p ++ q) = subtree t (p ++ q).
Proof.
  intros H. destruct (divergeb_spec _ _ H) as [pre [i [j [p' [c' [N [E1 E2]]]]]]].
  subst p c. rewrite <- !app_assoc. cbn [app].
  apply subtree_update_diverge. intros e. apply N. symmetry. exact e.
Qed.

(** ** Methods that only read the tree *)

Lemma set_objects_same (s : state) : set_objects (objects s) s = s.
Proof. destruct s; reflexivity. Qed.

Lemma reads_tree_run {A} (m : M A) (s : state) : reads_tree m -> m s = (fst (m s), s).
Proof. intros H. pose proof (H s (objects s)) as E. rewrite set_objects_same in E. exact E. Qed.

Lemma reads_tree_ret {A} (a : A) : reads_tree (ret a).
Proof. intros s o. reflexivity. Qed.

Lemma reads_tree_raise {A} (e : exn) : reads_tree (@raise A e).
Proof. intros s o. reflexivity. Qed.

Lemma reads_tree_lift {A} (r : result A) : reads_tree (lift r).
Proof. intros s o. reflexivity. Qed.

Lemma reads_tree_bind {A B} (m : M A) (k : A -> M B) :
  reads_tree m -> (forall a, reads_tree (k a)) -> reads_tree (bind m k).
Proof.
  intros Hm Hk s o. unfold bind. rewrite (Hm s o), (reads_tree_run m s Hm).
  cbn [fst]. destruct (fst (m s)) as [a|e]; [apply Hk|reflexivity].
Qed.

Lemma reads_tree_node_at (p : path) : reads_tree (node_at p).
Proof.
  intros s o. unfold node_at. cbn [set_objects root].
  destruct (subtree (root s) p); reflexivity.
Qed.

Lemma reads_tree_getattr (p : path) (n : string) : reads_tree (getattr p n).
Proof.
  apply reads_tree_bind; [apply reads_tree_node_at|].
  intros e. destruct (child_index e n); [apply reads_tree_ret|apply reads_tree_raise].
Qed.

Lemma reads_tree_attr_get (p : path) (k : string) : reads_tree (attr_get p k).
Proof.
  apply reads_tree_bind; [apply reads_tree_node_at|]. intros e. apply reads_tree_ret.
Qed.

Lemma reads_tree_attr_get_default (p : path) (k d : string) :
  reads_tree (attr_get_default p k d).
Proof.
  apply reads_tree_bind; [apply reads_tree_node_at|]. intros e. apply reads_tree_ret.
Qed.

Lemma reads_tree_chain (names : list string) (start : M path) :
  reads_tree start -> reads_tree (chain start names).
Proof.
  revert start; induction names as [|n r IH]; intros start H; [exact H|].
  cbn [chain]. apply IH. apply reads_tree_bind; [exact H|].
  intros p. apply reads_tree_getattr.
Qed.

Section Readers.
Context {env : Collaborators}.
Variable cls : doc_class.

Lemma reads_tree_main : reads_tree (StructuredDocument.main cls).
Proof. apply reads_tree_getattr. Qed.

Lemma reads_tree_meta : reads_tree (StructuredDocument.meta cls).
Proof.
  apply reads_tree_bind; [apply reads_tree_main|]. intros m. apply reads_tree_getattr.
Qed.

Lemma reads_tree_language : reads_tree (StructuredDocument.language cls).
Proof.
  apply reads_tree_bind; [apply reads_tree_chain, reads_tree_meta|].
  intros l. apply reads_tree_attr_get_default.
Qed.

Lemma reads_tree_expression_date : reads_tree (StructuredDocument.expression_date cls).
Proof.
  apply reads_tree_bind; [apply reads_tree_chain, reads_tree_meta|].
  intros d. apply reads_tree_bind; [apply reads_tree_attr_get|].
  intros v. apply reads_tree_lift.
Qed.

Lemma reads_tree_components : reads_tree (StructuredDocument.components cls).
Proof.
  unfold StructuredDocument.components.
  apply reads_tree_bind; [apply reads_tree_chain, reads_tree_meta|]. intros t.
  apply reads_tree_bind; [apply reads_tree_attr_get|]. intros v.
  apply reads_tree_bind; [apply reads_tree_lift|]. intros u.
  apply reads_tree_bind; [apply reads_tree_main|]. intros m.
  apply reads_tree_bind; [apply reads_tree_node_at|]. intros e.
  apply reads_tree_bind; [intros s o; reflexivity|]. intros ns.
  generalize (od_set (FrbrUri.work_component u) m []).
  generalize (component_metas ns e).
  intros metas. induction metas as [|rel rest IH]; intros acc.
  - apply reads_tree_ret.
  - apply reads_tree_bind; [apply reads_tree_chain, reads_tree_ret|]. intros t'.
    apply reads_tree_bind; [apply reads_tree_attr_get|]. intros v'.
    apply reads_tree_bind; [apply reads_tree_lift|]. intros u'.
    apply IH.
Qed.
End Readers.

(** ** The loop of the setter *)

Lemma set_work_component_twice (n n' : option string) (u : FrbrUri.t) :
  FrbrUri.set_work_component n (FrbrUri.set_work_component n' u)
  = FrbrUri.set_work_component n u.
Proof. destruct u; reflexivity. Qed.

Lemma after_components_last {V} (comps : list (option string * V)) (n : option string) (c : V)
      (u : FrbrUri.t) :
  after_components (comps ++ [(n, c)]) u = FrbrUri.set_work_component n u.
Proof.
  unfold after_components. rewrite fold_left_app. cbn [fold_left fst].
  generalize u. induction comps as [|x r IH]; intros u'; [reflexivity|].
  cbn [fold_left]. rewrite IH. apply set_work_component_twice.
Qed.

Lemma ident_path_frame (ns : string) (t t' : element) (c : path) :
  (forall q, subtree t' (c ++ q) = subtree t (c ++ q)) ->
  ident_path ns t' c = ident_path ns t c.
Proof.
  intros H. unfold ident_path. pose proof (H []) as E. rewrite app_nil_r in E.
  rewrite E. reflexivity.
Qed.

Lemma ident_path_app (ns : string) (t : element) (c b : path) :
  ident_path ns t c = Some b -> exists r, b = c ++ r.
Proof.
  unfold ident_path. destruct (subtree t c); [|discriminate].
  destruct (find_identification ns e) as [r|]; [|discriminate].
  intros E. injection E as <-. exists r. reflexivity.
Qed.

Lemma component_ok_frame (ns : string) (t t' : element) (c : path) :
  (forall q, subtree t' (c ++ q) = subtree t (c ++ q)) ->
  component_ok ns t' c = component_ok ns t c.
Proof.
  intros H. unfold component_ok. rewrite (ident_path_frame ns t t' c H).
  destruct (ident_path ns t c) as [b|] eqn:E; [|reflexivity].
  destruct (ident_path_app _ _ _ _ E) as [r ->]. rewrite H. reflexivity.
Qed.

Lemma separated_frame (ns : string) (t t' : element) (cs : list path) :
  (forall c, In c cs -> forall q, subtree t' (c ++ q) = subtree t (c ++ q)) ->
  separated ns t' cs = separated ns t cs.
Proof.
  induction cs as [|c r IH]; intros H; [reflexivity|]. cbn [separated].
  rewrite (ident_path_frame ns t t' c (H c (or_introl eq_refl))).
  rewrite IH; [reflexivity|]. intros c' Hc'. apply H. right. exact Hc'.
Qed.

Lemma strict_prefixb_app (m y : path) (y0 : nat) : strict_prefixb m (m ++ y0 :: y) = true.
Proof.
  induction m as [|i m IH]; [reflexivity|]. cbn [app strict_prefixb].
  rewrite Nat.eqb_refl. exact IH.
Qed.

Lemma strict_prefixb_diverge (m q : path) : divergeb m q = true -> strict_prefixb m q = false.
Proof.
  revert q; induction m as [|i m IH]; intros [|j q] H; try discriminate; try reflexivity.
  cbn [divergeb] in H. cbn [strict_prefixb].
  destruct (Nat.eqb i j); [apply IH; exact H|reflexivity].
Qed.

Lemma strict_prefixb_refl (m : path) : strict_prefixb m m = false.
Proof.
  induction m as [|i m IH]; [reflexivity|]. cbn [strict_prefixb]. rewrite IH.
  apply andb_false_r.
Qed.

Lemma divergeb_app (p c r : path) : divergeb p c = true -> divergeb p (c ++ r) = true.
Proof.
  revert c; induction p as [|i p IH]; intros [|j c] H; try discriminate.
  cbn [app divergeb] in *. destruct (Nat.eqb i j); [apply IH; exact H|reflexivity].
Qed.

(** Two paths: one is above the other, or they part. *)
Lemma path_compare (p m : path) :
  (exists x, m = p ++ x)
  \/ (exists y0 y, p = m ++ y0 :: y)
  \/ (exists c i j p' m', i <> j /\ p = c ++ i :: p' /\ m = c ++ j :: m').
Proof.
  revert m; induction p as [|i p IH]; intros m.
  - left. exists m. reflexivity.
  - destruct m as [|j m].
    + right. left. exists i, p. reflexivity.
    + destruct (Nat.eq_dec i j) as [e|n].
      * subst j. destruct (IH m) as [[x E]|[[y0 [y E]]|[c [i' [j' [p' [m' [N [E1 E2]]]]]]]]].
        -- left. exists x. subst m. reflexivity.
        -- right. left. exists y0, y. subst p. reflexivity.
        -- right. right. exists (i :: c), i', j', p', m'. subst. repeat split; assumption.
      * right. right. exists [], i, j, p, m. repeat split; assumption.
Qed.

(** An update with a function that keeps tags does not disturb the look-ups
    by name that do not go through the updated element. *)
Lemma follow_update_apart (t : element) (names : list string) (m : path) (f : element -> element) :
  keeps_tag f ->
  forall p q, strict_prefixb m q = false -> follow t p names = Some q ->
              follow (update m f t) p names = Some q.
Proof.
  intros K. induction names as [|n r IH]; intros p q SP H; [exact H|].
  cbn [follow] in *.
  destruct (subtree t p) as [e|] eqn:E; [|discriminate].
  destruct (child_index e n) as [i|] eqn:C; [|discriminate].
  destruct (follow_extends _ _ _ _ H) as [x Hx].
  assert (Z : exists e', subtree (update m f t) p = Some e' /\ child_index e' n = Some i).
  { destruct (path_compare p m) as [[y E1]|[[y0 [y E1]]|[c [i' [j' [p' [m' [N [E1 E2]]]]]]]]].
    - subst m. rewrite subtree_update_prefix, E. cbn [option_map].
      exists (update y f e). split; [reflexivity|].
      destruct y as [|y0 y].
      + exfalso. rewrite app_nil_r in SP. subst q. rewrite <- app_assoc in SP.
        cbn [app] in SP. rewrite strict_prefixb_app in SP. discriminate.
      + rewrite child_index_update_below by exact K. exact C.
    - exfalso. subst p q. rewrite <- !app_assoc in SP. cbn [app] in SP.
      rewrite strict_prefixb_app in SP. discriminate.
    - subst p m. exists e. split; [|exact C]. rewrite <- E.
      apply subtree_update_diverge. intros e0. apply N. symmetry. exact e0. }
  destruct Z as [e' [E' C']]. rewrite E', C'. apply IH; assumption.
Qed.

Lemma keeps_tag_sync_ident {env : Collaborators} (ns : string) (u : FrbrUri.t) :
  keeps_tag (sync_ident ns u).
Proof.
  intros I. unfold sync_ident.
  destruct (keeps_tag_in_child "FRBRManifestation" (sync_expression u)
              (in_child "FRBRExpression" (sync_expression u)
                 (in_child "FRBRWork" (sync_work ns u) I))) as [A B].
  rewrite A, B.
  destruct (keeps_tag_in_child "FRBRExpression" (sync_expression u)
              (in_child "FRBRWork" (sync_work ns u) I)) as [A1 B1].
  rewrite A1, B1. apply keeps_tag_in_child.
Qed.

Section SyncLoop.
Context {env : Collaborators}.
Variable cls : doc_class.
Variable a : nat.

Lemma sync_loop_run (comps : list (option string * path)) :
  forall (s : state) (u0 : FrbrUri.t),
    forallb (component_ok (namespace s) (root s)) (map snd comps) = true ->
    separated (namespace s) (root s) (map snd comps) = true ->
    nth_error (objects s) a = Some u0 ->
    exists s',
      for_each comps (fun ce => StructuredDocument.sync_component cls a (fst ce) (snd ce)) s
      = (Ok tt, s')
      /\ namespace s' = namespace s
      /\ objects s' = list_update a (after_components comps) (objects s)
      /\ (forall p, forallb (divergeb p) (map snd comps) = true ->
                    forall q, subtree (root s') (p ++ q) = subtree (root s) (p ++ q))
      /\ (forall p names q,
             follow (root s) p names = Some q ->
             (forall c b, In c (map snd comps) ->
                          ident_path (namespace s) (root s) c = Some b ->
                          strict_prefixb b q = false) ->
             follow (root s') p names = Some q)
      /\ (forall k name c,
             nth_error comps k = Some (name, c) ->
             exists b I,
               ident_path (namespace s) (root s) c = Some b
               /\ subtree (root s) b = Some I
               /\ wf_ident I = true
               /\ subtree (root s') b
                  = Some (sync_ident (namespace s) (FrbrUri.set_work_component name u0) I)).
Proof.
  induction comps as [|[name c] rest IH]; intros s u0 OK SEP Ha.
  - exists s. repeat split.
    + symmetry. apply list_update_id. reflexivity.
    + intros p names q H _. exact H.
    + intros k name c H. destruct k; discriminate.
  - cbn [map snd forallb separated] in OK, SEP.
    apply andb_true_iff in OK. destruct OK as [OKc OK].
    apply andb_true_iff in SEP. destruct SEP as [SEPc SEP].
    unfold component_ok in OKc.
    destruct (ident_path (namespace s) (root s) c) as [b|] eqn:Eb; [|discriminate].
    destruct (subtree (root s) b) as [I|] eqn:EI; [|discriminate].
    pose proof Eb as Eb'. unfold ident_path in Eb'.
    destruct (subtree (root s) c) as [Ec|] eqn:EEc; [|discriminate].
    destruct (find_identification (namespace s) Ec) as [r|] eqn:Fr; [|discriminate].
    injection Eb' as Eb'. subst b.
    pose proof (sync_component_run cls s c r Ec I a u0 name EEc Fr EI OKc Ha) as Run.
    set (u1 := FrbrUri.set_work_component name u0) in *.
    set (s1 := with_element
                 (set_objects (list_update a (FrbrUri.set_work_component name) (objects s)) s)
                 (c ++ r) (sync_ident (namespace s) u1 I)) in *.
    assert (Fm : forall c', divergeb (c ++ r) c' = true ->
                            forall q, subtree (root s1) (c' ++ q) = subtree (root s) (c' ++ q)).
    { intros c' D q. unfold s1, with_element. cbn [set_root set_objects root].
      rewrite <- (app_nil_r (c ++ r)) at 1. apply diverge_frame.
      rewrite divergeb_sym. exact D. }
    assert (Fin : forall c', In c' (map snd rest) ->
                             forall q, subtree (root s1) (c' ++ q) = subtree (root s) (c' ++ q)).
    { intros c' Hin. apply Fm. rewrite forallb_forall in SEPc. apply SEPc. exact Hin. }
    assert (Ns : namespace s1 = namespace s) by reflexivity.
    assert (OK1 : forallb (component_ok (namespace s1) (root s1)) (map snd rest) = true).
    { rewrite Ns. rewrite forallb_forall in *. intros c' Hin.
      rewrite (component_ok_frame _ _ _ _ (Fin c' Hin)). apply OK. exact Hin. }
    assert (SEP1 : separated (namespace s1) (root s1) (map snd rest) = true).
    { rewrite Ns. rewrite (separated_frame _ _ _ _ Fin). exact SEP. }
    assert (Ha1 : nth_error (objects s1) a = Some u1).
    { unfold s1. rewrite objects_with_element. cbn [set_objects objects].
      apply (nth_error_list_update_same (FrbrUri.set_work_component name) _ _ _ Ha). }
    destruct (IH s1 u1 OK1 SEP1 Ha1) as [s' [Run' [Ns' [Ob' [Fr' [Fo' En']]]]]].
    exists s'. split; [|split; [|split; [|split; [|split]]]].
    + cbn [for_each fst snd]. rewrite (bind_Ok _ _ _ _ _ Run). exact Run'.
    + rewrite Ns'. exact Ns.
    + rewrite Ob'. unfold s1. rewrite objects_with_element. cbn [set_objects objects].
      rewrite list_update_update. reflexivity.
    + intros p D q. cbn [map snd forallb] in D.
      apply andb_true_iff in D. destruct D as [Dc D].
      rewrite (Fr' p D q). unfold s1, with_element. cbn [set_root set_objects root].
      apply diverge_frame. exact Dc.
    + intros p names q Hf Hn. apply Fo'.
      * unfold s1, with_element. cbn [set_root set_objects root].
        rewrite (update_ext_at (c ++ r) (fun _ => sync_ident (namespace s) u1 I)
                   (sync_ident (namespace s) u1) (root s) I EI eq_refl).
        apply follow_update_apart; [apply keeps_tag_sync_ident| |exact Hf].
        apply (Hn c (c ++ r)); [left; reflexivity|exact Eb].
      * intros c' b' Hin Hb'. rewrite Ns in Hb'.
        rewrite (ident_path_frame _ _ _ _ (Fin c' Hin)) in Hb'.
        apply (Hn c' b'); [right; exact Hin|exact Hb'].
    + intros k name' c' Hk. destruct k as [|k].
      * cbn [nth_error] in Hk. injection Hk as <- <-.
        exists (c ++ r), I. split; [exact Eb|]. split; [exact EI|]. split; [exact OKc|].
        pose proof (Fr' (c ++ r) SEPc []) as E. rewrite app_nil_r in E. rewrite E.
        apply (subtree_with_element _ _ I). exact EI.
      * cbn [nth_error] in Hk.
        destruct (En' k name' c' Hk) as [b' [I' [P1 [P2 [P3 P4]]]]].
        assert (Hin : In c' (map snd rest)).
        { apply nth_error_In in Hk.
          apply (in_map snd) in Hk. exact Hk. }
        rewrite Ns in P1. rewrite (ident_path_frame _ _ _ _ (Fin c' Hin)) in P1.
        destruct (ident_path_app _ _ _ _ P1) as [r' ->].
        rewrite (Fin c' Hin) in P2.
        exists (c' ++ r'), I'. split; [exact P1|]. split; [exact P2|]. split; [exact P3|].
        rewrite P4, Ns. unfold u1. rewrite set_work_component_twice. reflexivity.
Qed.
End SyncLoop.

(** ** The setter of [frbr_uri] *)

Lemma bind_assoc {A B C} (m : M A) (k : A -> M B) (h : B -> M C) (s : state) :
  bind m (fun x => bind (k x) h) s = bind (bind m k) h s.
Proof. unfold bind. destruct (m s) as [[x|e] s0]; reflexivity. Qed.

Lemma set_work_component_prepared (n : option string) (lang : string) (d : date)
      (u : FrbrUri.t) :
  FrbrUri.set_work_component n (prepared lang d u)
  = FrbrUri.set_work_component n
      (FrbrUri.set_expression_date (Some ("@" +++ datestring (DDate d)))
                                   (FrbrUri.set_language lang u)).
Proof.
  unfold prepared. cbv zeta.
  destruct (FrbrUri.work_component _); [reflexivity|apply set_work_component_twice].
Qed.

Section Setter.
Context {env : Collaborators}.
Variable cls : doc_class.

Lemma set_frbr_uri_run (s : state) (a : nat) (u0 : FrbrUri.t) (lang : string) (d : date)
      (comps : list (option string * path)) :
  nth_error (objects s) a = Some u0 ->
  fst (StructuredDocument.language cls s) = Ok lang ->
  fst (StructuredDocument.expression_date cls s) = Ok d ->
  fst (StructuredDocument.components cls s) = Ok comps ->
  forallb (component_ok (namespace s) (root s)) (map snd comps) = true ->
  separated (namespace s) (root s) (map snd comps) = true ->
  exists s',
    StructuredDocument.set_frbr_uri cls (StructuredDocument.AsObject a) s = (Ok tt, s')
    /\ namespace s' = namespace s
    /\ objects s'
       = list_update a (fun u => after_components comps (prepared lang d u)) (objects s)
    /\ (forall p, forallb (divergeb p) (map snd comps) = true ->
                  forall q, subtree (root s') (p ++ q) = subtree (root s) (p ++ q))
    /\ (forall p names q,
           follow (root s) p names = Some q ->
           (forall c b, In c (map snd comps) ->
                        ident_path (namespace s) (root s) c = Some b ->
                        strict_prefixb b q = false) ->
           follow (root s') p names = Some q)
    /\ (forall k name c,
           nth_error comps k = Some (name, c) ->
           exists b I,
             ident_path (namespace s) (root s) c = Some b
             /\ subtree (root s) b = Some I
             /\ wf_ident I = true
             /\ subtree (root s') b
                = Some (sync_ident (namespace s)
                          (FrbrUri.set_work_component name (prepared lang d u0)) I)).
Proof.
  intros Ha HL HD HC OK SEP.
  set (st := set_objects (list_update a (prepared lang d) (objects s)) s).
  assert (Pre :
            StructuredDocument.set_frbr_uri cls (StructuredDocument.AsObject a) s
            = for_each comps
                (fun ce => StructuredDocument.sync_component cls a (fst ce) (snd ce)) st).
  { unfold StructuredDocument.set_frbr_uri.
    rewrite (bind_Ok _ _ _ _ _ (eq_refl : ret a s = (Ok a, s))).
    rewrite (bind_assoc _ (fun l => attr_get_default l "language" "eng")).
    change (bind (chain (StructuredDocument.meta cls)
                        ["identification"; "FRBRExpression"; "FRBRlanguage"])
                 (fun l => attr_get_default l "language" "eng"))
      with (StructuredDocument.language cls).
    assert (RL := reads_tree_run _ s (reads_tree_language cls)). rewrite HL in RL.
    rewrite (bind_Ok _ _ _ _ _ RL).
    rewrite (bind_Ok _ _ _ _ _ (obj_modify_run _ _ _ _ Ha)).
    set (o1 := list_update a (FrbrUri.set_language lang) (objects s)).
    assert (H1 : nth_error o1 a = Some (FrbrUri.set_language lang u0)).
    { apply (nth_error_list_update_same (FrbrUri.set_language lang) _ _ _ Ha). }
    assert (RD := reads_tree_expression_date cls s o1). rewrite HD in RD.
    rewrite (bind_Ok _ _ _ _ _ RD).
    rewrite (bind_Ok _ _ _ _ _ (obj_modify_run (set_objects o1 s) _ _ _ H1)).
    cbn [set_objects root nsmap namespace objects].
    change (State (root s) (nsmap s) (namespace s) ?o) with (set_objects o s).
    set (dd := FrbrUri.set_expression_date (Some ("@" +++ datestring (DDate d)))).
    set (o2 := list_update a dd o1).
    assert (H2 : nth_error o2 a = Some (dd (FrbrUri.set_language lang u0))).
    { apply (nth_error_list_update_same dd _ _ _ H1). }
    rewrite (bind_Ok _ _ _ _ _ (load_run (set_objects o2 s) _ _ H2)).
    assert (E3 : (match FrbrUri.work_component (dd (FrbrUri.set_language lang u0)) with
                  | None => obj_modify a (FrbrUri.set_work_component (Some "main"))
                  | Some _ => ret tt
                  end) (set_objects o2 s) = (Ok tt, st)).
    { unfold st.
      assert (O2 : o2 = list_update a (fun u => dd (FrbrUri.set_language lang u)) (objects s)).
      { unfold o2, o1. apply list_update_update. }
      destruct (FrbrUri.work_component (dd (FrbrUri.set_language lang u0))) as [w|] eqn:W.
      - unfold ret. apply (f_equal (fun o => (Ok tt, set_objects o s))). rewrite O2. apply list_update_ext.
        intros x Hx. assert (x = u0) by congruence. subst x.
        unfold prepared. cbv zeta. fold dd. rewrite W. reflexivity.
      - rewrite (obj_modify_run (set_objects o2 s) _ _ _ H2).
        cbn [set_objects root nsmap namespace objects].
        change (State (root s) (nsmap s) (namespace s) ?o) with (set_objects o s).
        apply (f_equal (fun o => (Ok tt, set_objects o s))). rewrite O2, list_update_update. apply list_update_ext.
        intros x Hx. assert (x = u0) by congruence. subst x.
        unfold prepared. cbv zeta. fold dd. rewrite W. reflexivity. }
    rewrite (bind_Ok _ _ _ _ _ E3).
    assert (RC := reads_tree_components cls s (list_update a (prepared lang d) (objects s))).
    rewrite HC in RC. fold st in RC.
    rewrite (bind_Ok _ _ _ _ _ RC). reflexivity. }
  rewrite Pre.
  assert (Ha' : nth_error (objects st) a = Some (prepared lang d u0)).
  { apply (nth_error_list_update_same (prepared lang d) _ _ _ Ha). }
  destruct (sync_loop_run cls a comps st (prepared lang d u0) OK SEP Ha')
    as [s' [Run [Ns [Ob [Fr [Fo En]]]]]].
  exists s'. split; [exact Run|]. split; [exact Ns|]. split; [|split; [exact Fr|split; [exact Fo|exact En]]].
  rewrite Ob. unfold st. cbn [set_objects objects]. apply list_update_update.
Qed.
End Setter.

Lemma bind_Ok_inv {A B} (m : M A) (k : A -> M B) (s s' : state) (b : B) :
  bind m k s = (Ok b, s') -> exists a s1, m s = (Ok a, s1) /\ k a s1 = (Ok b, s').
Proof.
  unfold bind. destruct (m s) as [[a|e] s1]; intros H; [|discriminate].
  exists a, s1. split; [reflexivity|exact H].
Qed.

Lemma od_set_nonempty {V} (k : option string) (v : V) (d : list (option string * V)) :
  od_set k v d <> [].
Proof.
  destruct d as [|[k' v'] r]; cbn [od_set]; [discriminate|].
  destruct (opt_string_eqb k' k); discriminate.
Qed.

(** [components()] always has the entry of the primary document's name. *)
Lemma components_nonempty {env : Collaborators} (cls : doc_class) (s s' : state)
      (comps : list (option string * path)) :
  StructuredDocument.components cls s = (Ok comps, s') -> comps <> [].
Proof.
  unfold StructuredDocument.components. intros H.
  apply bind_Ok_inv in H. destruct H as [t [s1 [_ H]]].
  apply bind_Ok_inv in H. destruct H as [v [s2 [_ H]]].
  apply bind_Ok_inv in H. destruct H as [u [s3 [_ H]]].
  apply bind_Ok_inv in H. destruct H as [m [s4 [_ H]]].
  apply bind_Ok_inv in H. destruct H as [e [s5 [_ H]]].
  apply bind_Ok_inv in H. destruct H as [ns [s6 [_ H]]].
  revert H. generalize (od_set_nonempty (FrbrUri.work_component u) m []).
  generalize (od_set (FrbrUri.work_component u) m []).
  generalize s6. generalize (component_metas ns e).
  intros metas. induction metas as [|rel rest IH]; intros s0 acc N H.
  - injection H as <- _. exact N.
  - apply bind_Ok_inv in H. destruct H as [t' [s7 [_ H]]].
    apply bind_Ok_inv in H. destruct H as [v' [s8 [_ H]]].
    apply bind_Ok_inv in H. destruct H as [u' [s9 [_ H]]].
    apply (IH _ _ (od_set_nonempty _ _ _) H).
Qed.

Lemma set_frbr_uri_text {env : Collaborators} (cls : doc_class) (s : state)
      (t : option string) (u0 : FrbrUri.t) :
  FrbrUri_parse t = Ok u0 ->
  StructuredDocument.set_frbr_uri cls (StructuredDocument.AsText t) s
  = StructuredDocument.set_frbr_uri cls (StructuredDocument.AsObject (List.length (objects s)))
      (set_objects (objects s ++ [u0]) s).
Proof.
  intros H. unfold StructuredDocument.set_frbr_uri.
  unfold bind at 1. unfold bind at 1. unfold lift. rewrite H. unfold alloc.
  unfold bind at 3. reflexivity.
Qed.



(** C9. The setter of [frbr_uri] works on the object it is given, not on a
    copy: when it returns, the object at the caller's address has the
    language and the expression date of the document and the work component
    of the last entry of [components()]; its other fields, and the other
    objects, are as before. *)
Theorem frbr_uri_setter_mutates_the_argument {env : Collaborators} (cls : doc_class)
        (s : state) (a : nat) (u0 : FrbrUri.t)
        (lang : string) (d : date) (comps : list (option string * path)) :
  nth_error (objects s) a = Some u0 ->
  StructuredDocument.language cls s = (Ok lang, s) ->
  StructuredDocument.expression_date cls s = (Ok d, s) ->
  StructuredDocument.components cls s = (Ok comps, s) ->
  forallb (component_ok (namespace s) (root s)) (map snd comps) = true ->
  separated (namespace s) (root s) (map snd comps) = true ->
  exists s' front name c,
    StructuredDocument.set_frbr_uri cls (StructuredDocument.AsObject a) s = (Ok tt, s')
    /\ comps = front ++ [(name, c)]
    /\ nth_error (objects s') a
       = Some (FrbrUri.Make (FrbrUri.country u0) (FrbrUri.locality u0) (FrbrUri.doctype u0)
                 (FrbrUri.subtype u0) (FrbrUri.date u0) (FrbrUri.number u0)
                 name lang (FrbrUri.actor u0) (FrbrUri.prefix u0)
                 (Some ("@" +++ datestring (DDate d))))
    /\ List.length (objects s') = List.length (objects s)
    /\ (forall a', a' <> a -> nth_error (objects s') a' = nth_error (objects s) a').
Proof.
  intros Ha HL HD HC OK SEP.
  destruct (set_frbr_uri_run cls s a u0 lang d comps Ha
              (f_equal fst HL) (f_equal fst HD) (f_equal fst HC) OK SEP)
    as [s' [Run [_ [Ob _]]]].
  destruct (exists_last (components_nonempty cls s s comps HC)) as [front [[name c] E]].
  exists s', front, name, c. split; [exact Run|]. split; [exact E|].
  rewrite Ob. split; [|split].
  - rewrite (nth_error_list_update_same _ _ _ _ Ha). subst comps.
    rewrite after_components_last, set_work_component_prepared.
    destruct u0; reflexivity.
  - apply length_list_update.
  - intros a' N. rewrite nth_error_list_update.
    destruct (Nat.eqb_spec a a') as [e|_]; [|reflexivity]. exfalso. apply N. symmetry. exact e.
Qed.

Lemma frbr_uri_setter_mutates_the_argument_witness :
  exists s' front name c,
    StructuredDocument.set_frbr_uri (env := Sample.env) Collection
      (StructuredDocument.AsObject 0) (Example.state_of Example.titled) = (Ok tt, s')
    /\ [(Some "main", [0]); (Some "schedule", [0; 2; 0; 0])] = front ++ [(name, c)]
    /\ nth_error (objects s') 0
       = Some (FrbrUri.Make "za" None "act" None "2021-06-07" "12"
                 name "eng" None "akn" (Some ("@" +++ datestring (DDate (Date 2020 3 5)))))
    /\ List.length (objects s') = 1
    /\ (forall a', a' <> 0 ->
                   nth_error (objects s') a'
                   = nth_error (objects (Example.state_of Example.titled)) a').
Proof.
  apply (frbr_uri_setter_mutates_the_argument (env := Sample.env) Collection
           (Example.state_of Example.titled) 0 Example.caller_uri "eng" (Date 2020 3 5)
           [(Some "main", [0]); (Some "schedule", [0; 2; 0; 0])]);
    vm_compute; reflexivity.
Defined.

(** ** The setter of [language] *)

Lemma block_value_path (t : element) (b : path) (I : element) (blk n v : string) :
  subtree t b = Some I -> block_value I blk n = Some v ->
  exists q c, follow t b [blk; n] = Some q /\ subtree t q = Some c /\ get c "value" = Some v.
Proof.
  intros E H. unfold block_value in H.
  destruct (child_index I blk) as [i|] eqn:Ci; [|discriminate].
  destruct (nth_error (children I) i) as [B|] eqn:Hi; [|discriminate].
  unfold child_value in H.
  destruct (child_index B n) as [j|] eqn:Cj; [|discriminate].
  destruct (nth_error (children B) j) as [c|] eqn:Hj; [|discriminate].
  assert (EB : subtree t (b ++ [i]) = Some B).
  { rewrite (subtree_snoc _ _ _ _ E). exact Hi. }
  assert (Ec : subtree t ((b ++ [i]) ++ [j]) = Some c).
  { rewrite (subtree_snoc _ _ _ _ EB). exact Hj. }
  exists ((b ++ [i]) ++ [j]), c. split; [|split; [exact Ec|exact H]].
  cbn [follow]. rewrite E, Ci, EB, Cj. reflexivity.
Qed.

Lemma separated_apart (ns : string) (t : element) (cs : list path) :
  separated ns t cs = true ->
  forall i j ci cj bi bj,
    nth_error cs i = Some ci -> nth_error cs j = Some cj ->
    ident_path ns t ci = Some bi -> ident_path ns t cj = Some bj ->
    strict_prefixb bi bj = false.
Proof.
  induction cs as [|c r IH]; intros S i j ci cj bi bj Hi Hj Bi Bj.
  - destruct i; discriminate.
  - cbn [separated] in S. apply andb_true_iff in S. destruct S as [Sc S].
    destruct (ident_path ns t c) as [b|] eqn:Eb; [|discriminate].
    rewrite forallb_forall in Sc.
    destruct i as [|i], j as [|j]; cbn [nth_error] in Hi, Hj.
    + assert (bi = bj) by congruence. subst bj. apply strict_prefixb_refl.
    + injection Hi as <-. assert (b = bi) by congruence. subst bi.
      destruct (ident_path_app _ _ _ _ Bj) as [x ->].
      apply strict_prefixb_diverge, divergeb_app, Sc. eapply nth_error_In. exact Hj.
    + injection Hj as <-. assert (b = bj) by congruence. subst bj.
      destruct (ident_path_app _ _ _ _ Bi) as [x ->].
      apply strict_prefixb_diverge. rewrite divergeb_sym.
      apply divergeb_app, Sc. eapply nth_error_In. exact Hi.
    + apply (IH S i j ci cj bi bj Hi Hj Bi Bj).
Qed.

Section LanguageSetter.
Context {env : Collaborators}.
Variable cls : doc_class.

Lemma frbr_uri_run (s : state) (b : path) (I : element) (v : string) :
  follow (root s) [] [document_type cls; "meta"; "identification"] = Some b ->
  subtree (root s) b = Some I ->
  block_value I "FRBRManifestation" "FRBRuri" = Some v ->
  StructuredDocument.frbr_uri cls s = read_uri v s.
Proof.
  intros F E V. destruct (block_value_path _ _ _ _ _ _ E V) as [q [c [Fq [Ec Gc]]]].
  unfold StructuredDocument.frbr_uri.
  assert (Ch : chain (StructuredDocument.meta cls)
                     ["identification"; "FRBRManifestation"; "FRBRuri"] s = (Ok q, s)).
  { rewrite chain_meta_run.
    change (document_type cls :: "meta" :: ["identification"; "FRBRManifestation"; "FRBRuri"])
      with ([document_type cls; "meta"; "identification"] ++ ["FRBRManifestation"; "FRBRuri"]).
    rewrite follow_app, F, Fq. reflexivity. }
  rewrite (bind_Ok _ _ _ _ _ Ch).
  rewrite (bind_Ok _ _ _ _ _ (attr_get_run _ _ "value" _ Ec)). rewrite Gc. reflexivity.
Qed.

Lemma language_stored_run (s : state) (l : path) (L : string) :
  follow (root s) [] (language_path cls) = Some l ->
  StructuredDocument.set_language cls L s
  = StructuredDocument.resync cls (language_stored l L s)
  /\ StructuredDocument.language cls (language_stored l L s)
     = (Ok L, language_stored l L s).
Proof.
  intros F. destruct (follow_valid _ _ _ _ F (root_valid s)) as [e E]. split.
  - unfold StructuredDocument.set_language, bind. rewrite chain_meta_run.
    unfold language_path in F. rewrite F. cbn [lookup ret].
    rewrite (attr_set_run _ _ _ _ _ E). reflexivity.
  - unfold StructuredDocument.language.
    assert (Ch : chain (StructuredDocument.meta cls)
                       ["identification"; "FRBRExpression"; "FRBRlanguage"]
                       (language_stored l L s) = (Ok l, language_stored l L s)).
    { rewrite chain_meta_run. unfold language_stored. cbn [set_root root].
      unfold language_path in F.
      rewrite (follow_update_target _ _ _ _ _ (keeps_tag_set_attr "language" L) F).
      reflexivity. }
    rewrite (bind_Ok _ _ _ _ _ Ch). unfold attr_get_default.
    assert (E' : subtree (root (language_stored l L s)) l = Some (set_attr "language" L e)).
    { unfold language_stored. cbn [set_root root]. apply subtree_update_same. exact E. }
    rewrite (bind_Ok _ _ _ _ _ (node_at_Some _ _ _ E')). rewrite get_set_attr. reflexivity.
Qed.
End LanguageSetter.


